(** * TabNet training orchestration (src/train.py): a shallow embedding

    The development follows the layout of [class TabNet]:

    - [Py]       the Python values that travel through the parameter
                 dictionaries and the input containers;
    - [Masking]  [__generate_model_mask];
    - [Loss]     [__get_reconstruction_loss] and the sparsity term of
                 [__train], over the real numbers;
    - [Loop]     the epoch loop of [__train] with its best-model tracking,
                 over a store of weight tensors that are mutated in place;
    - [Facade]   [__init__] and [fit] over the shared store of dictionaries
                 (the class-level defaults are objects every instance
                 aliases);
    - [Phases]   what a call of [__train] leaves behind, and the two
                 phases of [fit];
    - [Guards]   the conditions under which [fit] raises;
    - [Predict]  [__predict], [predict_proba] and [predict], over tensors
                 that carry their rank.

    Definitions come first; the statements about them follow. *)

From Stdlib Require Import List ZArith QArith Lia Bool String Reals Psatz.
From stdpp Require Import gmap strings list sorting pretty.

Set Default Proof Using "Type".
#[local] Set Warnings "-register-all".

(* ===================================================================== *)
(** ** Python values *)
(* ===================================================================== *)

Module Py.

(** Column labels: a DataFrame carries strings, an ndarray is addressed by
    position ([range(X.shape[1])]). *)
Inductive key : Type :=
| KStr (s : string)
| KInt (z : Z).

#[global] Instance key_eq_dec : EqDecision key.
Proof. solve_decision. Defined.

(** The values stored in the parameter dictionaries.  Nested dictionaries
    keep their insertion order, as Python's do. *)
Inductive pyval : Type :=
| PNone
| PBool (b : bool)
| PInt (z : Z)
| PFloat (q : Q)
| PStr (s : string)
| PList (xs : list pyval)
| PDict (kvs : list (key * pyval)).

(** [d[k] = v] on an insertion-ordered dictionary: an existing key keeps
    its place, a new one goes last. *)
Fixpoint dict_set {V : Type} (d : list (key * V)) (k : key) (v : V) : list (key * V) :=
  match d with
  | [] => [(k, v)]
  | (k', v') :: d' =>
      if decide (k' = k) then (k, v) :: d' else (k', v') :: dict_set d' k v
  end.

Fixpoint dict_get {V : Type} (d : list (key * V)) (k : key) : option V :=
  match d with
  | [] => None
  | (k', v') :: d' => if decide (k' = k) then Some v' else dict_get d' k
  end.

(** [dict(zip(ks, vs))] *)
Definition dict_of_zip {V : Type} (ks : list key) (vs : list V) : list (key * V) :=
  fold_left (fun d kv => dict_set d (fst kv) (snd kv)) (combine ks vs) [].

End Py.

(** A 2-D tensor, row major.  (A notation, so that list lemmas apply to
    tensors as they stand.) *)
Abbreviation tensor A := (list (list A)).

(* ===================================================================== *)
(** ** The masking engine: [__generate_model_mask] *)
(* ===================================================================== *)

Module Masking.
Import Py.

(** One entry of [model_params["categorical_config"]]. *)
Record cat_entry : Type := CatEntry {
  cat_map : list (key * pyval);
  n_dims : nat;
  idx : nat;
  identifier : pyval
}.

(** The keys of [model_params] that [__generate_model_mask] reads. *)
Record mask_params : Type := MaskParams {
  n_original_input_dims : nat;
  categorical_config : list (key * cat_entry);
  embedding_dim : nat
}.

(** The entropy behind [torch.bernoulli]: one uniform sample of [0, 1) per
    entry, here the rational [u_num / (u_num + u_gap + 1)]. *)
Record usample : Type := USample { u_num : nat; u_gap : nat }.

Definition sample_val (s : usample) : Q :=
  Z.of_nat (u_num s) # Pos.of_succ_nat (u_num s + u_gap s).

Definition rng : Type := nat -> nat -> usample.

(** [torch.bernoulli] on one entry: 1 with probability [q]; a probability
    outside [0, 1] raises.  The probability is read as the exact rational;
    the code holds its single-precision value, which lies on the same side
    of 0 and of 1 for the [q = 1 - p] of every [p] in [0, 1], above 1, or
    below 0 by [2^-23] at least. *)
Definition bernoulli1 (q : Q) (s : usample) : option Q :=
  if Qle_bool 0 q && Qle_bool q 1
  then Some (if Qle_bool q (sample_val s) then 0%Q else 1%Q)
  else None.

Fixpoint bernoulli_row (u : nat -> usample) (j : nat) (qs : list Q) : option (list Q) :=
  match qs with
  | [] => Some []
  | q :: qs' =>
      match bernoulli1 q (u j), bernoulli_row u (S j) qs' with
      | Some v, Some vs => Some (v :: vs)
      | _, _ => None
      end
  end.

Fixpoint bernoulli_from (u : rng) (i : nat) (probs : tensor Q) : option (tensor Q) :=
  match probs with
  | [] => Some []
  | r :: rs =>
      match bernoulli_row (u i) 0 r, bernoulli_from u (S i) rs with
      | Some v, Some vs => Some (v :: vs)
      | _, _ => None
      end
  end.

Definition bernoulli (probs : tensor Q) (u : rng) : option (tensor Q) :=
  bernoulli_from u 0 probs.

(** [torch.ones(n, d)] and [t * c] *)
Definition ones (n d : nat) : tensor Q := replicate n (replicate d 1%Q).
Definition scale (t : tensor Q) (c : Q) : tensor Q := map (map (fun v => (v * c)%Q)) t.

(** [t[:, c]], [t[:, cs]], [.unsqueeze(-1)], [.repeat(1, e)] and
    [torch.cat(ts, -1)] *)
Definition col {A} (d : A) (t : tensor A) (c : nat) : list A :=
  map (fun row => nth c row d) t.
Definition index_cols {A} (d : A) (t : tensor A) (cs : list nat) : tensor A :=
  map (fun row => map (fun c => nth c row d) cs) t.
Definition unsqueeze {A} (v : list A) : tensor A := map (fun x => [x]) v.
Definition repeat_cols {A} (t : tensor A) (e : nat) : tensor A :=
  map (fun row => concat (replicate e row)) t.

Definition hcat {A} (a b : tensor A) : tensor A :=
  map (fun ab => fst ab ++ snd ab) (combine a b).
Fixpoint cat_last {A} (ts : list (tensor A)) : tensor A :=
  match ts with
  | [] => []
  | [t] => t
  | t :: ts' => hcat t (cat_last ts')
  end.

(** [set([categorical_config[i]["idx"] for i in categorical_config])] *)
Definition idx_list (mp : mask_params) : list nat :=
  map (fun kv => idx (snd kv)) (categorical_config mp).
Definition idx_slices (mp : mask_params) : gset nat := list_to_set (idx_list mp).

(** The body of [for c_idx in range(n_original_input_dims)]. *)
Definition mask_step (mask : tensor Q) (slices : gset nat) (e : nat)
    (acc : list nat * list (tensor Q)) (c_idx : nat) : list nat * list (tensor Q) :=
  let '(mask_keep_idx, mask_arr) := acc in
  if bool_decide (c_idx ∉ slices)
  then (mask_keep_idx ++ [c_idx], mask_arr)
  else (mask_keep_idx, mask_arr ++ [repeat_cols (unsqueeze (col 0%Q mask c_idx)) e]).

Definition generate_model_mask (mp : mask_params) (p : Q) (batch_size : nat) (u : rng)
  : option (tensor Q) :=
  match bernoulli (scale (ones batch_size (n_original_input_dims mp)) (1 - p)) u with
  | None => None
  | Some mask =>
      let '(mask_keep_idx, mask_arr) :=
        fold_left (mask_step mask (idx_slices mp) (embedding_dim mp))
                  (seq 0 (n_original_input_dims mp)) ([], []) in
      Some (cat_last (index_cols 0%Q mask mask_keep_idx :: mask_arr))
  end.

(** [n_input_dims] as [fit] derives it:
    [X_train.shape[1] + len(categorical_config) * (embedding_dim - 1)]. *)
Definition n_input_dims (mp : mask_params) : Z :=
  Z.of_nat (n_original_input_dims mp)
  + Z.of_nat (length (categorical_config mp)) * (Z.of_nat (embedding_dim mp) - 1).

(** What [fit] guarantees of the configuration it builds: every categorical
    column is a column of the input, and no two entries share a column. *)
Definition config_in_range (mp : mask_params) : Prop :=
  NoDup (idx_list mp) /\ Forall (fun c => c < n_original_input_dims mp)%nat (idx_list mp).

(** The layout of one output row, from the drawn row: the columns that are
    not categorical, then one block per categorical column, both by
    ascending column position. *)
Definition keep_columns (mp : mask_params) : list nat :=
  filter (fun c => c ∉ idx_slices mp) (seq 0 (n_original_input_dims mp)).
Definition cat_columns (mp : mask_params) : list nat :=
  filter (fun c => c ∈ idx_slices mp) (seq 0 (n_original_input_dims mp)).
Definition block (e : nat) (row : list Q) (c : nat) : list Q := replicate e (nth c row 0%Q).
Definition layout (mp : mask_params) (row : list Q) : list Q :=
  map (fun c => nth c row 0%Q) (keep_columns mp)
  ++ concat (map (block (embedding_dim mp) row) (cat_columns mp)).

(** The expanded width: the columns that are not categorical one to one,
    every categorical column [embedding_dim] wide. *)
Definition expanded_width (mp : mask_params) : nat :=
  length (keep_columns mp) + length (cat_columns mp) * embedding_dim mp.

(** The layout the specification words: the blocks in the order the
    categorical columns were registered in [categorical_config]. *)
Definition layout_registered (mp : mask_params) (row : list Q) : list Q :=
  map (fun c => nth c row 0%Q) (keep_columns mp)
  ++ concat (map (block (embedding_dim mp) row) (idx_list mp)).

(** A configuration that registers column 2 before column 0. *)
Definition swapped_config : mask_params :=
  {| n_original_input_dims := 3;
     categorical_config :=
       [ (KStr "b", {| cat_map := []; n_dims := 0; idx := 2; identifier := PStr "b" |});
         (KStr "a", {| cat_map := []; n_dims := 0; idx := 0; identifier := PStr "a" |}) ];
     embedding_dim := 2 |}.

(** Samples 0 in columns 0 and 1, and 9/10 in column 2. *)
Definition low_then_high : rng :=
  fun _ j => if (j <? 2)%nat then USample 0 0 else USample 9 0.

End Masking.

(* ===================================================================== *)
(** ** The loss composer, over the real numbers *)
(* ===================================================================== *)

(** Tensors of floats are read as tensors of reals.  The standard
    deviation is the exception: whether [torch.std] returns exactly zero
    on a column is a fact of the floating-point computation (it need not,
    on a constant column), and the code tests that value.  The deviation
    as computed is therefore a parameter [torch_std] of the loss, given
    column by column.  Two things torch does with floats have no
    counterpart here and are kept out of the statements: [torch.std] of a
    single-row batch is not-a-number (the statements about the standard
    deviation ask for two rows), and the logarithm of a non-positive number
    ([ln] is 0 there). *)

Module Loss.
#[local] Open Scope R_scope.

Definition rsum (v : list R) : R := fold_right Rplus 0 v.

(** [v.mean()] *)
Definition mean (v : list R) : R := rsum v / INR (length v).

(** [x.size(1)] and [x[:, j]] *)
Definition width (x : tensor R) : nat :=
  match x with
  | [] => 0%nat
  | row :: _ => length row
  end.
Definition column (x : tensor R) (j : nat) : list R := map (fun row => nth j row 0) x.

(** The deviation of a column in exact arithmetic, with Bessel's
    correction.  It is what the computation returns on the columns of the
    examples below, whose entries are all the same small integer. *)
Definition std1 (v : list R) : R :=
  sqrt (rsum (map (fun a => (a - mean v) * (a - mean v)) v) / (INR (length v) - 1)).

Section Reconstruction.

(** [torch.std] on one column, as computed. *)
Variable torch_std : list R -> R.

(** [torch.std(x, dim=0)] *)
Definition std_dim0 (x : tensor R) : list R :=
  map (fun j => torch_std (column x j)) (seq 0 (width x)).

(** [std[std == 0] = 1] *)
Definition replace_zero (s : list R) : list R :=
  map (fun v => if Req_dec_T v 0 then 1 else v) s.

(** [torch.ones_like], elementwise [-] and [*], [/] against a row vector,
    [torch.norm] (no arguments: the 2-norm of all entries), and [.sum()] of
    the 0-dimensional tensor that [torch.norm] returns. *)
Definition ones_like (x : tensor R) : tensor R := map (map (fun _ => 1)) x.
Definition tsub (a b : tensor R) : tensor R := zip_with (zip_with Rminus) a b.
Definition tmul (a b : tensor R) : tensor R := zip_with (zip_with Rmult) a b.
Definition tdiv_row (a : tensor R) (s : list R) : tensor R :=
  map (fun row => zip_with Rdiv row s) a.
Definition norm (t : tensor R) : R := sqrt (rsum (map (fun v => v * v) (concat t))).
Definition sum0 (v : R) : R := v.

(** [(torch.ones_like(x) - feature_mask) * (x_reconstruction - x) / std] *)
Definition scaled_residual (x x_reconstruction feature_mask : tensor R) : tensor R :=
  let std := replace_zero (std_dim0 x) in
  tdiv_row (tmul (tsub (ones_like x) feature_mask) (tsub x_reconstruction x)) std.

Definition get_reconstruction_loss (x x_reconstruction feature_mask : tensor R) : R :=
  sum0 (norm (scaled_residual x x_reconstruction feature_mask)).

(** The divisor the loss applies to column [j]. *)
Definition divisor (x : tensor R) (j : nat) : R :=
  let s := torch_std (column x j) in if Req_dec_T s 0 then 1 else s.

(** The reconstruction loss as the specification words it: the Euclidean
    norm of each row, summed across the batch. *)
Definition row_norm (row : list R) : R := sqrt (rsum (map (fun v => v * v) row)).
Definition reconstruction_loss_rowwise (x x_reconstruction feature_mask : tensor R) : R :=
  rsum (map row_norm (scaled_residual x x_reconstruction feature_mask)).

End Reconstruction.

(** The sparsity term of [__train]:
    [-1 * torch.stack([(c_mask * torch.log(c_mask + epsilon)).sum(dim=-1).mean()
                       for c_mask in masks]).mean()] *)
Definition entropy_terms (epsilon : R) (c_mask : tensor R) : tensor R :=
  map (map (fun v => v * ln (v + epsilon))) c_mask.
Definition sum_last (t : tensor R) : list R := map rsum t.
Definition sparsity_loss (masks : list (tensor R)) (epsilon : R) : R :=
  -1 * mean (map (fun c_mask => mean (sum_last (entropy_terms epsilon c_mask))) masks).

(** The sparsity term as the specification words it: the mean over
    features, then over batch rows. *)
Definition mean_last (t : tensor R) : list R := map mean t.
Definition sparsity_loss_mean_of_means (masks : list (tensor R)) (epsilon : R) : R :=
  -1 * mean (map (fun c_mask => mean (mean_last (entropy_terms epsilon c_mask))) masks).

(** An [n] by [d] tensor. *)
Definition shape (n d : nat) (t : tensor R) : Prop :=
  length t = n /\ Forall (fun row => length row = d) t.

End Loss.

(* ===================================================================== *)
(** ** The training loop: [__train] *)
(* ===================================================================== *)

(** The weights of the model are tensors that the optimizer updates in
    place.  [state_dict()] hands out references to those tensors and
    [load_state_dict] copies tensor contents into them, so the loop is
    modelled over a store of tensors addressed by location.  The forward and
    backward passes, the optimizer, the validation pass and the
    early-stopping tracker (of [.utils]) are parameters. *)

Module Loop.

(** A validation criterion: a float, possibly not-a-number. *)
Inductive crit : Type :=
| NaN
| Fin (q : Q).

Definition isnan (c : crit) : bool :=
  match c with
  | NaN => true
  | Fin _ => false
  end.

(** [torch.min(a, b)] (not-a-number propagates) and [a == b] (false on
    not-a-number). *)
Definition tmin (a b : crit) : crit :=
  match a, b with
  | Fin x, Fin y => if Qle_bool x y then Fin x else Fin y
  | _, _ => NaN
  end.
Definition teq (a b : crit) : bool :=
  match a, b with
  | Fin x, Fin y => Qeq_bool x y
  | _, _ => false
  end.

(** [val_loss == torch.min(val_loss, model_max_criteria)
     or torch.isnan(model_max_criteria)] *)
Definition is_running_min (val_loss model_max_criteria : crit) : bool :=
  teq val_loss (tmin val_loss model_max_criteria) || isnan model_max_criteria.

Definition loc : Type := nat.

(** The labels of [__save_model]. *)
Inductive save_label : Type :=
| SaveEpoch (c_epoch : nat)
| SaveFinal.

(** The keys of [train_params] the loop reads.  The two rates are divisors
    in the source and are taken positive. *)
Record loop_params : Type := LoopParams {
  early_stopping : bool;
  epoch_save_frequency : positive;
  learning_rate_decay_step_rate : positive
}.

Section Train.

Context {W batch opt val es : Type}.

(** [optimizer.zero_grad(); loss.backward(); optimizer.step()] on one batch,
    in the self-supervised regime or not. *)
Variable opt_step : bool -> opt -> W -> batch -> opt * W.
(** [scheduler.step()] *)
Variable sched_step : opt -> opt.
(** The validation criterion of an epoch: [__validation_reconstruct_loss],
    or [criterion] on the output of [__validation_predict]. *)
Variable validate : val -> bool -> nat -> W -> crit.
(** [es_tracker.step] *)
Variable es_step : es -> crit -> es * bool.

Record train_state : Type := TrainState {
  st_store : list W;
  st_opt : opt;
  st_es : es;
  model_max_state_dict : option loc;
  model_max_criteria : crit;
  st_step : nat;
  st_saved : list (bool * save_label * W)
}.

(** The model object: where its parameter tensors live. *)
Variable model : loc.

(** [self.model.state_dict()]: the dictionary refers to the live tensors. *)
Definition state_dict (s : list W) : loc := model.

(** [self.model.load_state_dict(sd)]: the contents are copied into the live
    tensors. *)
Definition load_state_dict (sd : loc) (s : list W) : list W :=
  match s !! sd with
  | Some w => <[model := w]> s
  | None => s
  end.

(** [torch.save((model_params, self.model.state_dict()), path)]: the file
    holds the values the tensors have at that moment. *)
Definition save_model (self_supervised : bool) (l : save_label) (s : train_state)
  : train_state :=
  match st_store s !! model with
  | Some w =>
      {| st_store := st_store s; st_opt := st_opt s; st_es := st_es s;
         model_max_state_dict := model_max_state_dict s;
         model_max_criteria := model_max_criteria s;
         st_step := st_step s;
         st_saved := st_saved s ++ [(self_supervised, l, w)] |}
  | None => s
  end.

(** The body of the loop over the batches of one epoch. *)
Definition batch_step (tp : loop_params) (self_supervised : bool)
    (s : train_state) (b : batch) : train_state :=
  match st_store s !! model with
  | Some w =>
      let step := S (st_step s) in
      let '(o, w') := opt_step self_supervised (st_opt s) w b in
      let o' :=
        if (step mod Pos.to_nat (learning_rate_decay_step_rate tp) =? 0)%nat
        then sched_step o else o in
      {| st_store := <[model := w']> (st_store s); st_opt := o'; st_es := st_es s;
         model_max_state_dict := model_max_state_dict s;
         model_max_criteria := model_max_criteria s;
         st_step := step;
         st_saved := st_saved s |}
  | None => s
  end.

(** The best-model tracking after a validation pass. *)
Definition track_best (val_loss : crit) (s : train_state) : train_state :=
  if is_running_min val_loss (model_max_criteria s)
  then {| st_store := st_store s; st_opt := st_opt s; st_es := st_es s;
          model_max_state_dict := Some (state_dict (st_store s));
          model_max_criteria := val_loss;
          st_step := st_step s;
          st_saved := st_saved s |}
  else s.

(** [self.model.load_state_dict(model_max_state_dict)] *)
Definition restore_best (s : train_state) : train_state :=
  match model_max_state_dict s with
  | Some sd =>
      {| st_store := load_state_dict sd (st_store s); st_opt := st_opt s;
         st_es := st_es s;
         model_max_state_dict := model_max_state_dict s;
         model_max_criteria := model_max_criteria s;
         st_step := st_step s;
         st_saved := st_saved s |}
  | None => s
  end.

Definition set_es (e : es) (s : train_state) : train_state :=
  {| st_store := st_store s; st_opt := st_opt s; st_es := e;
     model_max_state_dict := model_max_state_dict s;
     model_max_criteria := model_max_criteria s;
     st_step := st_step s;
     st_saved := st_saved s |}.

(** One pass of [for c_epoch in range(epochs)]; the flag says whether the
    pass ended in [break]. *)
Definition epoch (tp : loop_params) (self_supervised : bool)
    (train_generator : nat -> list batch) (val_generator : option val)
    (s : train_state) (c_epoch : nat) : train_state * bool :=
  let s1 := fold_left (batch_step tp self_supervised) (train_generator c_epoch) s in
  let s2 :=
    if (0 <? c_epoch)%nat
       && (c_epoch mod Pos.to_nat (epoch_save_frequency tp) =? 0)%nat
    then save_model self_supervised (SaveEpoch c_epoch) s1 else s1 in
  match val_generator with
  | None => (s2, false)
  | Some v =>
      match st_store s2 !! model with
      | None => (s2, false)
      | Some w =>
          let val_loss := validate v self_supervised c_epoch w in
          let s3 := track_best val_loss s2 in
          if early_stopping tp then
            let '(e, stop) := es_step (st_es s3) val_loss in
            if stop then (restore_best (set_es e s3), true)
            else (set_es e s3, false)
          else (s3, false)
      end
  end.

Fixpoint run_epochs (tp : loop_params) (self_supervised : bool)
    (train_generator : nat -> list batch) (val_generator : option val)
    (s : train_state) (cs : list nat) : train_state * option nat :=
  match cs with
  | [] => (s, None)
  | c_epoch :: cs' =>
      let '(s', stop) := epoch tp self_supervised train_generator val_generator s c_epoch in
      if stop then (s', Some c_epoch)
      else run_epochs tp self_supervised train_generator val_generator s' cs'
  end.

(** [__train]: a fresh optimizer and tracker, the epoch loop, the final
    checkpoint.  The result carries the store, the checkpoints written and
    the step counter that [__train] returns. *)
Definition init_state (new_opt : opt) (new_es : es) (step_offset : nat)
    (store : list W) (saved : list (bool * save_label * W)) : train_state :=
  {| st_store := store; st_opt := new_opt; st_es := new_es;
     model_max_state_dict := None;
     model_max_criteria := NaN;
     st_step := step_offset;
     st_saved := saved |}.

Definition phase_loop (tp : loop_params) (new_opt : opt) (new_es : es)
    (train_generator : nat -> list batch) (val_generator : option val)
    (epochs : nat) (self_supervised : bool) (step_offset : nat)
    (store : list W) (saved : list (bool * save_label * W)) : train_state * option nat :=
  run_epochs tp self_supervised train_generator val_generator
    (init_state new_opt new_es step_offset store saved) (seq 0 epochs).

Definition train (tp : loop_params) (new_opt : opt) (new_es : es)
    (train_generator : nat -> list batch) (val_generator : option val)
    (epochs : nat) (self_supervised : bool) (step_offset : nat)
    (store : list W) (saved : list (bool * save_label * W)) : train_state :=
  save_model self_supervised SaveFinal
    (fst (phase_loop tp new_opt new_es train_generator val_generator
            epochs self_supervised step_offset store saved)).

(** The epoch at which the loop ended in [break], if it did. *)
Definition stopped_early (tp : loop_params) (new_opt : opt) (new_es : es)
    (train_generator : nat -> list batch) (val_generator : option val)
    (epochs : nat) (self_supervised : bool) (step_offset : nat)
    (store : list W) (saved : list (bool * save_label * W)) : option nat :=
  snd (phase_loop tp new_opt new_es train_generator val_generator
         epochs self_supervised step_offset store saved).

(** The weights of the live model. *)
Definition live (s : train_state) : option W := st_store s !! model.

(** The store agrees with a run [a] of the optimizer that never saw a
    store: same live weights, optimizer state and step counter. *)
Definition agrees (s : train_state) (a : opt * W * nat) : Prop :=
  live s = Some (snd (fst a)) /\ st_opt s = fst (fst a) /\ st_step s = snd a.

(** The tracked state dictionary, when there is one, is the live tensors. *)
Definition tracks_live (s : train_state) : Prop :=
  model_max_state_dict s = None \/ model_max_state_dict s = Some model.

(** The weights the optimizer leaves behind, apart from any store: one batch,
    and the batches of the epochs of a list. *)
Definition pure_step (tp : loop_params) (self_supervised : bool)
    (a : opt * W * nat) (b : batch) : opt * W * nat :=
  let '(o, w, n) := a in
  let '(o1, w') := opt_step self_supervised o w b in
  (if (S n mod Pos.to_nat (learning_rate_decay_step_rate tp) =? 0)%nat
   then sched_step o1 else o1, w', S n).
Definition pure_epochs (tp : loop_params) (self_supervised : bool)
    (train_generator : nat -> list batch) (a : opt * W * nat) (cs : list nat)
  : opt * W * nat :=
  fold_left (fun a c => fold_left (pure_step tp self_supervised) (train_generator c) a) cs a.

(** The specification's best-model snapshot: the weights as they were at the
    end of the training of the latest epoch whose criterion was a running
    minimum, among the epochs of [cs]. *)
Fixpoint best_snapshot (tp : loop_params) (self_supervised : bool)
    (train_generator : nat -> list batch) (v : val)
    (a : opt * W * nat) (best : option W * crit) (cs : list nat) : option W * crit :=
  match cs with
  | [] => best
  | c :: cs' =>
      let a' := fold_left (pure_step tp self_supervised) (train_generator c) a in
      let val_loss := validate v self_supervised c (snd (fst a')) in
      best_snapshot tp self_supervised train_generator v a'
        (if is_running_min val_loss (snd best) then (Some (snd (fst a')), val_loss) else best)
        cs'
  end.

End Train.

(** Modelled from the spec: the early-stopping tracker of [.utils]
    ([EarlyStopping.step]), which keeps the best criterion seen and a count
    of consecutive checks without improvement, and signals a stop once that
    count reaches the patience.  The improvement test is "strictly below
    the best" (a zero percentage threshold). *)
Record es_tracker : Type := EsTracker {
  es_best : option crit;
  es_bad : nat;
  es_patience : nat
}.

Definition tracker_step (t : es_tracker) (c : crit) : es_tracker * bool :=
  match es_best t with
  | None => ({| es_best := Some c; es_bad := 0; es_patience := es_patience t |}, false)
  | Some best =>
      let better :=
        match c, best with
        | Fin x, Fin y => negb (Qle_bool y x)
        | _, _ => false
        end in
      let t' :=
        if better
        then {| es_best := Some c; es_bad := 0; es_patience := es_patience t |}
        else {| es_best := es_best t; es_bad := S (es_bad t); es_patience := es_patience t |} in
      (t', (es_patience t <=? es_bad t')%nat)
  end.

(** A run on integers: every batch adds its number to the single weight,
    and the validation criterion is the weight itself, so the first epoch
    is the best one. *)
Definition add_step (_ : bool) (o : unit) (w : Z) (b : Z) : unit * Z := (o, (w + b)%Z).
Definition weight_as_loss (_ : unit) (_ : bool) (_ : nat) (w : Z) : crit := Fin (inject_Z w).
Definition one_batch_of_one (_ : nat) : list Z := [1%Z].

Definition demo_params (stop_early : bool) : loop_params :=
  {| early_stopping := stop_early;
     epoch_save_frequency := 100;
     learning_rate_decay_step_rate := 1000 |}.

Definition fresh_tracker : es_tracker :=
  {| es_best := None; es_bad := 0; es_patience := 1 |}.

Definition demo_train (stop_early : bool) (epochs : nat) : train_state :=
  train add_step (fun o => o) weight_as_loss tracker_step 0%nat
    (demo_params stop_early) tt fresh_tracker
    one_batch_of_one (Some tt) epochs false 0 [0%Z] [].

Definition demo_best_snapshot (epochs : nat) : option Z :=
  fst (best_snapshot add_step (fun o => o) weight_as_loss (demo_params false) false
         one_batch_of_one tt (tt, 0%Z, 0%nat) (None, NaN) (seq 0 epochs)).

End Loop.

(* ===================================================================== *)
(** ** The public facade: [__init__] and [fit] *)
(* ===================================================================== *)

(** The parameter dictionaries are objects: the three class-level defaults
    live at fixed places of a store of dictionaries, and an instance holds
    references into that store.  The values inside a dictionary are plain
    values (the code never mutates them in place; it replaces them). *)

Module Facade.
Import Py.

Abbreviation dict := (gmap string pyval).

Inductive exn : Type :=
| ValueError (msg : string)
| KeyError
| IndexError
| AttributeError
| TypeError.

(** The inputs of [fit]: a labelled table, a series, a 2-D or 1-D array,
    or nothing. *)
Inductive container : Type :=
| CNone
| CDataFrame (columns : list key) (rows : list (list pyval))
| CSeries (values : list pyval)
| CNdarray2 (n_cols : nat) (rows : list (list pyval))
| CNdarray1 (values : list pyval).

Inductive pytype : Type :=
| TNoneType
| TDataFrame
| TSeries
| TNdarray.

#[global] Instance pytype_eq_dec : EqDecision pytype.
Proof. solve_decision. Defined.

(** [type(x)] *)
Definition type_of (c : container) : pytype :=
  match c with
  | CNone => TNoneType
  | CDataFrame _ _ => TDataFrame
  | CSeries _ => TSeries
  | CNdarray2 _ _ | CNdarray1 _ => TNdarray
  end.

Definition is_none (c : container) : bool :=
  match c with
  | CNone => true
  | _ => false
  end.

(** [x.shape[1]] *)
Definition shape1 (c : container) : exn + nat :=
  match c with
  | CNone => inl AttributeError
  | CDataFrame columns _ => inr (length columns)
  | CNdarray2 n_cols _ => inr n_cols
  | CSeries _ | CNdarray1 _ => inl IndexError
  end.

(** A label as a dictionary key. *)
Definition as_key (v : pyval) : exn + key :=
  match v with
  | PStr s => inr (KStr s)
  | PInt z => inr (KInt z)
  | _ => inl TypeError
  end.

Fixpoint index_of (k : key) (ks : list key) : option nat :=
  match ks with
  | [] => None
  | k' :: ks' => if decide (k' = k) then Some 0%nat else option_map S (index_of k ks')
  end.

(** [x[col]]: the column of that label of a table (labels are taken
    distinct), the row of that number of an array. *)
Definition getitem (c : container) (col : key) : exn + container :=
  match c with
  | CDataFrame columns rows =>
      match index_of col columns with
      | Some i => inr (CSeries (map (fun row => nth i row PNone) rows))
      | None => inl KeyError
      end
  | CNdarray2 _ rows =>
      match col with
      | KInt z =>
          match (if (0 <=? z)%Z then rows !! Z.to_nat z
                 else if (0 <=? Z.of_nat (length rows) + z)%Z
                      then rows !! Z.to_nat (Z.of_nat (length rows) + z)
                      else None) with
          | Some row => inr (CNdarray1 row)
          | None => inl IndexError
          end
      | KStr _ => inl IndexError
      end
  | CSeries _ | CNdarray1 _ => inl IndexError
  | CNone => inl TypeError
  end.

(** Truth of a value, [v == False], and [len(v)]. *)
Definition truthy (v : pyval) : bool :=
  match v with
  | PNone => false
  | PBool b => b
  | PInt z => negb (z =? 0)%Z
  | PFloat q => negb (Qeq_bool q 0)
  | PStr s => negb (String.eqb s "")
  | PList xs => match xs with [] => false | _ => true end
  | PDict kvs => match kvs with [] => false | _ => true end
  end.
Definition eq_False (v : pyval) : bool :=
  match v with
  | PBool b => negb b
  | PInt z => (z =? 0)%Z
  | PFloat q => Qeq_bool q 0
  | _ => false
  end.
Definition len (v : pyval) : exn + nat :=
  match v with
  | PStr s => inr (String.length s)
  | PList xs => inr (length xs)
  | PDict kvs => inr (length kvs)
  | _ => inl TypeError
  end.

(** [d[k]] on a parameter dictionary. *)
Definition item (d : dict) (k : string) : exn + pyval :=
  match d !! k with
  | Some v => inr v
  | None => inl KeyError
  end.

(** The error monad of [fit]'s straight-line code. *)
Definition bind {A B : Type} (m : exn + A) (f : A -> exn + B) : exn + B :=
  match m with
  | inl e => inl e
  | inr a => f a
  end.
Notation "x <- m ;; f" := (bind m (fun x => f))
  (at level 100, m at next level, right associativity).

(** The class-level dictionaries. *)
Definition default_train_params : dict :=
  list_to_map
    [ ("batch_size", PInt 8192);
      ("validation_batch_size", PInt 1024);
      ("run_self_supervised_training", PBool false);
      ("run_supervised_training", PBool true);
      ("early_stopping", PBool true);
      ("early_stopping_min_delta_pct", PInt 0);
      ("early_stopping_patience", PInt 20);
      ("max_epochs_supervised", PInt 500);
      ("max_epochs_self_supervised", PInt 500);
      ("epoch_save_frequency", PInt 100);
      ("train_generator_shuffle", PBool true);
      ("train_generator_n_workers", PInt 0);
      ("epsilon", PFloat (1 # 10000000));
      ("learning_rate", PFloat (1 # 100));
      ("learning_rate_decay_factor", PFloat (95 # 100));
      ("learning_rate_decay_step_rate", PInt 1000);
      ("weight_decay", PFloat (1 # 1000));
      ("sparsity_regularization", PFloat (1 # 10000));
      ("p_mask", PFloat (2 # 10)) ]%string.
Definition default_save_params : dict :=
  list_to_map
    [ ("model_name", PStr "forest_cover");
      ("save_folder", PStr "../runs/model_backups/") ]%string.
Definition default_model_params : dict :=
  list_to_map
    [ ("n_steps", PInt 5);
      ("n_dims_d", PInt 16);
      ("n_dims_a", PInt 16);
      ("batch_norm_momentum", PFloat (85 # 100));
      ("dropout_p", PFloat (3 # 10));
      ("categorical_variables", PList []);
      ("categorical_config", PDict []);
      ("discrete_target_mapping", PDict []);
      ("embedding_dim", PInt 2);
      ("discrete_outputs", PBool false);
      ("gamma", PFloat (15 # 10)) ]%string.

(** Where the three class attributes live, and the store as the class
    statement leaves it. *)
Definition TRAIN_DEFAULTS : nat := 0.
Definition SAVE_DEFAULTS : nat := 1.
Definition MODEL_DEFAULTS : nat := 2.
Definition class_store : list dict :=
  [default_train_params; default_save_params; default_model_params].

(** [TabNetModel], called with the entries of [model_params] as keyword
    arguments: the model remembers what it was built from. *)
Record tabnet_model : Type := TabNetModel { built_from : dict }.

(** An instance: [self.model_params], [self.save_params] and
    [self.train_params] are references; [self.model] is [None] until a
    model is loaded or built. *)
Record tabnet : Type := TabNet {
  model_params : nat;
  save_params : option nat;
  train_params : option nat;
  model : option tabnet_model
}.

(** [d.update(other)] on the dictionary at [l]. *)
Definition update_at (l : nat) (other : dict) (h : list dict) : list dict :=
  alter (fun d => other ∪ d) l h.

(** The store of dictionaries together with one instance. *)
Abbreviation world := (list dict * tabnet)%type.

(** [__init__], in the store [h]; [c_model_save] is what [__load_model]
    returned. *)
Definition init (h : list dict) (model_params_arg : dict)
    (c_model_save : option (dict * tabnet_model)) : world :=
  match c_model_save with
  | Some (loaded_params, loaded_model) =>
      (h ++ [loaded_params],
       {| model_params := length h; save_params := None; train_params := None;
          model := Some loaded_model |})
  | None =>
      (update_at MODEL_DEFAULTS model_params_arg h,
       {| model_params := MODEL_DEFAULTS; save_params := None; train_params := None;
          model := None |})
  end.

(** [self.model_params] as it reads now, and one of its entries. *)
Definition params_of (w : world) : option dict := fst w !! model_params (snd w).
Definition param (w : world) (k : string) : option pyval :=
  d ← params_of w; d !! k.

Section Fit.

(** [generate_categorical_to_ordinal_map] of [.utils], and the
    [n_output_dims] of the [TrainingDataset] built from the targets and the
    target mapping. *)
Variable generate_categorical_to_ordinal_map : container -> list (key * pyval).
Variable n_output_dims : container -> pyval -> pyval.

(** [dict(zip(X.columns, range(n)))] or [dict(zip(range(n), range(n)))] *)
Definition data_columns_of (X_train : container) (n : nat) : list (key * nat) :=
  match X_train with
  | CDataFrame columns _ => dict_of_zip columns (seq 0 n)
  | _ => dict_of_zip (map (fun i => KInt (Z.of_nat i)) (seq 0 n)) (seq 0 n)
  end.

(** The checks of the validation columns (lines 433 to 444). *)
Definition check_val_columns (X_train X_val : container) (n : nat) : exn + unit :=
  match X_val with
  | CDataFrame val_columns _ =>
      match X_train with
      | CDataFrame columns _ =>
          if negb (length val_columns =? length columns)%nat
          then inl (ValueError "Lengths must match to compare")
          else if bool_decide (val_columns = columns) then inr tt
          else inl (ValueError "X_train and X_val have differing columns!")
      | _ => inl AttributeError
      end
  | CNdarray2 _ _ | CNdarray1 _ =>
      m <- shape1 X_val ;;
      if negb (m =? n)%nat
      then inl (ValueError "Training and validation datasets have differing number of columns")
      else inr tt
  | _ => inr tt
  end.

(** The entry that line 456 writes for a column. *)
Definition config_entry (cast_map : list (key * pyval)) (i : nat) (col : pyval) : pyval :=
  PDict [ (KStr "map", PDict cast_map);
          (KStr "n_dims", PInt (Z.of_nat (length cast_map)));
          (KStr "idx", PInt (Z.of_nat i));
          (KStr "identifier", col) ].

(** The loop [for col in categorical_variables] (lines 454 to 461). *)
Fixpoint build_config (X_train : container) (data_columns : list (key * nat))
    (cols : list pyval) (config_dict : list (key * pyval)) : exn + list (key * pyval) :=
  match cols with
  | [] => inr config_dict
  | col :: cols' =>
      k <- as_key col ;;
      column <- getitem X_train k ;;
      let cast_map := generate_categorical_to_ordinal_map column in
      match dict_get data_columns k with
      | None => inl KeyError
      | Some i =>
          build_config X_train data_columns cols'
            (dict_set config_dict k (config_entry cast_map i col))
      end
  end.

Definition as_int (v : pyval) : exn + Z :=
  match v with
  | PInt z => inr z
  | PBool b => inr (if b then 1 else 0)%Z
  | _ => inl TypeError
  end.

(** What [fit] does to [self.model_params] and [self.model], up to the
    dispatch of the phases: the dictionary and the model as the call leaves
    them, and either the exception raised or the phases to run (their
    [self_supervised] flags, in order). *)
Definition configure (mp : dict) (m : option tabnet_model) (tp : dict)
    (X_train y_train X_val y_val : container)
  : dict * option tabnet_model * (exn + list bool) :=
  (* line 420 *)
  match (if m is None
         then v <- item mp "discrete_outputs" ;; inr (truthy v)
         else inr false) with
  | inl e => (mp, m, inl e)
  | inr set_target =>
  let mp :=
    if set_target
    then <["discrete_target_mapping" := PDict (generate_categorical_to_ordinal_map y_train)]> mp
    else mp in
  (* line 425 *)
  if bool_decide (type_of X_train <> type_of X_val)
     || bool_decide (type_of y_train <> type_of y_val)
  then (mp, m, inl (ValueError "Training and validation datasets should have same type"))
  else
  (* lines 428 to 444 *)
  match (n <- shape1 X_train ;;
         _ <- (if is_none X_val then inr tt else check_val_columns X_train X_val n) ;;
         inr n) with
  | inl e => (mp, m, inl e)
  | inr n =>
  let data_columns := data_columns_of X_train n in
  (* lines 447 to 462 *)
  match (cv <- item mp "categorical_variables" ;;
         k <- len cv ;;
         if (0 <? k)%nat
         then match cv with
              | PList cols =>
                  c <- build_config X_train data_columns cols [] ;; inr (Some c)
              | _ => inl TypeError
              end
         else inr None) with
  | inl e => (mp, m, inl e)
  | inr new_config =>
  let mp :=
    match new_config with
    | Some config_dict => <["categorical_config" := PDict config_dict]> mp
    | None => mp
    end in
  (* lines 511 and 512 *)
  match (cc <- item mp "categorical_config" ;;
         n_cat <- len cc ;;
         ed <- item mp "embedding_dim" ;;
         e <- as_int ed ;;
         inr ((Z.of_nat n + Z.of_nat n_cat * (e - 1))%Z, (Z.of_nat n - Z.of_nat n_cat)%Z)) with
  | inl e => (mp, m, inl e)
  | inr (n_input_dims, n_continuous_dims) =>
  (* lines 515 to 526 *)
  match (if m is None
         then dtm <- item mp "discrete_target_mapping" ;; inr (Some dtm)
         else inr None) with
  | inl e => (mp, m, inl e)
  | inr build =>
  let mp :=
    match build with
    | Some dtm =>
        <["column_index_map" :=
            PDict (map (fun kv => (fst kv, PInt (Z.of_nat (snd kv)))) data_columns)]>
        (<["n_output_dims" := n_output_dims y_train dtm]>
        (<["n_continuous_input_dims" := PInt n_continuous_dims]>
        (<["n_original_input_dims" := PInt (Z.of_nat n)]>
        (<["n_input_dims" := PInt n_input_dims]> mp))))
    | None => mp
    end in
  let m :=
    match build with
    | Some _ => Some (TabNetModel mp)
    | None => m
    end in
  (* lines 533 to 554 *)
  (mp, m,
   ss <- item tp "run_self_supervised_training" ;;
   sv <- item tp "run_supervised_training" ;;
   if eq_False ss && eq_False sv
   then inl (ValueError "No training scheme defined: set `run_self_supervised_training` or `run_supervised_training` to True")
   else inr ((if truthy ss then [true] else []) ++ (if truthy sv then [false] else [])))
  end end end end end.

(** [fit], on the store of dictionaries: the store and the instance as the
    call leaves them, and how the call ended. *)
Definition fit (w : world)
    (X_train y_train X_val y_val : container) (train_params_arg save_params_arg : dict)
  : world * (exn + list bool) :=
  let '(h, self) := w in
  (* lines 414 to 418 *)
  let h := update_at SAVE_DEFAULTS save_params_arg h in
  let h := update_at TRAIN_DEFAULTS train_params_arg h in
  match h !! model_params self, h !! TRAIN_DEFAULTS with
  | Some mp, Some tp =>
      let '(mp', m', r) := configure mp (model self) tp X_train y_train X_val y_val in
      ((<[model_params self := mp']> h,
        {| model_params := model_params self;
           save_params := Some SAVE_DEFAULTS;
           train_params := Some TRAIN_DEFAULTS;
           model := m' |}),
       r)
  | _, _ => ((h, self), inl AttributeError)
  end.

End Fit.

(** The keys of [self.model_params] that [__generate_model_mask] reads, for
    a dictionary whose entries have the shape [fit] gives them; and the
    method itself, on the dictionary (a missing or ill-typed key raises). *)
Definition as_nat (v : pyval) : option nat :=
  match v with
  | PInt z => if (0 <=? z)%Z then Some (Z.to_nat z) else None
  | _ => None
  end.

Definition entry_view (v : pyval) : option Masking.cat_entry :=
  match v with
  | PDict kvs =>
      match dict_get kvs (KStr "map") with
      | Some (PDict cast_map) =>
          nd ← dict_get kvs (KStr "n_dims") ≫= as_nat;
          i ← dict_get kvs (KStr "idx") ≫= as_nat;
          ident ← dict_get kvs (KStr "identifier");
          Some {| Masking.cat_map := cast_map; Masking.n_dims := nd;
                  Masking.idx := i; Masking.identifier := ident |}
      | _ => None
      end
  | _ => None
  end.

Fixpoint config_view (kvs : list (key * pyval)) : option (list (key * Masking.cat_entry)) :=
  match kvs with
  | [] => Some []
  | (k, v) :: kvs' =>
      e ← entry_view v;
      es ← config_view kvs';
      Some ((k, e) :: es)
  end.

Definition mask_view (mp : dict) : option Masking.mask_params :=
  n ← mp !! "n_original_input_dims" ≫= as_nat;
  cc ← mp !! "categorical_config";
  e ← mp !! "embedding_dim" ≫= as_nat;
  match cc with
  | PDict kvs =>
      es ← config_view kvs;
      Some {| Masking.n_original_input_dims := n;
              Masking.categorical_config := es;
              Masking.embedding_dim := e |}
  | _ => None
  end.

Definition generate_mask (mp : dict) (p : Q) (batch_size : nat) (u : Masking.rng)
  : option (tensor Q) :=
  v ← mask_view mp;
  Masking.generate_model_mask v p batch_size u.

(** An entry of [categorical_config] as the loop of [fit] writes it, given
    the [data_columns] of the call; and a configuration made of such
    entries, one per label. *)
Definition fitted_entry (data_columns : list (key * nat)) (k : key) (v : pyval) : Prop :=
  exists cast_map i ident,
    v = config_entry cast_map i ident /\ dict_get data_columns k = Some i.

Definition fitted_config (data_columns : list (key * nat)) (c : list (key * pyval)) : Prop :=
  NoDup (map fst c) /\ Forall (fun kv => fitted_entry data_columns (fst kv) (snd kv)) c.

(** Modelled from the spec: [generate_categorical_to_ordinal_map] of
    [.utils], the "mapping from category value to ordinal index": the
    distinct values of the column, numbered from 0 in order of first
    appearance. *)
Definition values_of (c : container) : list pyval :=
  match c with
  | CSeries values | CNdarray1 values => values
  | CDataFrame _ rows | CNdarray2 _ rows => concat rows
  | CNone => []
  end.
Definition ordinal_map (c : container) : list (key * pyval) :=
  fold_left
    (fun d v =>
       match as_key v with
       | inr k => match dict_get d k with
                  | Some _ => d
                  | None => dict_set d k (PInt (Z.of_nat (length d)))
                  end
       | inl _ => d
       end)
    (values_of c) [].

(** Modelled from the spec: the [n_output_dims] property of
    [TrainingDataset]: the number of target categories for a discrete
    target, 1 otherwise. *)
Definition dataset_n_output_dims (y : container) (target_mapping : pyval) : pyval :=
  match target_mapping with
  | PDict (_ :: _ as kvs) => PInt (Z.of_nat (length kvs))
  | _ => PInt 1
  end.

(** Two small tables with a categorical column ["c"] and a numeric one, and
    their targets. *)
Definition frame_ab : container :=
  CDataFrame [KStr "c"; KStr "x"]
    [ [PStr "a"; PInt 1]; [PStr "b"; PInt 2] ].
Definition frame_bz : container :=
  CDataFrame [KStr "c"; KStr "x"]
    [ [PStr "b"; PInt 3]; [PStr "z"; PInt 4] ].
Definition targets : container := CSeries [PInt 0; PInt 1].

Definition categorical_c : dict := {[ "categorical_variables" := PList [PStr "c"] ]}.

(** An instance built with that override, fitted on the first table and
    then on the second, each time with the table itself as validation set;
    and a second instance built, with no override, after the first fit. *)
Definition built : world := init class_store categorical_c None.
Definition first_fit_with g n : world * (exn + list bool) :=
  fit g n built frame_ab targets frame_ab targets ∅ ∅.
Definition second_fit_with g n : world * (exn + list bool) :=
  fit g n (fst (first_fit_with g n)) frame_bz targets frame_bz targets ∅ ∅.
Definition first_fit : world * (exn + list bool) :=
  first_fit_with ordinal_map dataset_n_output_dims.
Definition second_fit : world * (exn + list bool) :=
  second_fit_with ordinal_map dataset_n_output_dims.
Definition second_instance : world := init (fst (fst first_fit)) ∅ None.

(** What the model of an instance was built from, at one key. *)
Definition built_param (w : world) (k : string) : option pyval :=
  m ← model (snd w); built_from m !! k.

End Facade.

(* ===================================================================== *)
(** ** What a phase leaves behind, and the two phases of [fit] *)
(* ===================================================================== *)

Module Phases.
Import Loop.

Section Phases.

Context {W batch opt val es : Type}.
Variable opt_step : bool -> opt -> W -> batch -> opt * W.
Variable sched_step : opt -> opt.
Variable validate : val -> bool -> nat -> W -> crit.
Variable es_step : es -> crit -> es * bool.
Variable model : loc.
Variable tp : loop_params.

(** The epochs whose batches ran: the whole budget, or those up to the
    epoch that ended in [break]. *)
Definition epochs_run (stop : option nat) (epochs : nat) : nat :=
  match stop with
  | Some k => S k
  | None => epochs
  end.

(** [(c_epoch > 0) and (c_epoch % epoch_save_frequency == 0)] *)
Definition saves_at (c_epoch : nat) : bool :=
  (0 <? c_epoch)%nat && (c_epoch mod Pos.to_nat (epoch_save_frequency tp) =? 0)%nat.

(** The batches that the epochs of a list hold. *)
Definition n_batches (train_generator : nat -> list batch) (cs : list nat) : nat :=
  list_sum (map (fun c => length (train_generator c)) cs).

(** The weights the optimizer has reached when the batches of epoch [c]
    are done. *)
Definition weights_after (self_supervised : bool) (train_generator : nat -> list batch)
    (a : opt * W * nat) (c : nat) : W :=
  snd (fst (pure_epochs opt_step sched_step tp self_supervised train_generator a
              (seq 0 (S c)))).

(** The validation criteria of the epochs of a list, in order. *)
Fixpoint criteria_seen (self_supervised : bool) (train_generator : nat -> list batch)
    (v : val) (a : opt * W * nat) (cs : list nat) : list crit :=
  match cs with
  | [] => []
  | c :: cs' =>
      let a' := fold_left (pure_step opt_step sched_step tp self_supervised)
                  (train_generator c) a in
      validate v self_supervised c (snd (fst a'))
      :: criteria_seen self_supervised train_generator v a' cs'
  end.

(** The checkpoints the epochs of a list write, one epoch after the other. *)
Fixpoint epoch_saves (self_supervised : bool) (train_generator : nat -> list batch)
    (a : opt * W * nat) (cs : list nat) : list (bool * save_label * W) :=
  match cs with
  | [] => []
  | c :: cs' =>
      let a' := fold_left (pure_step opt_step sched_step tp self_supervised)
                  (train_generator c) a in
      (if saves_at c then [(self_supervised, SaveEpoch c, snd (fst a'))] else [])
      ++ epoch_saves self_supervised train_generator a' cs'
  end.

(** Once a criterion has been recorded there is a state dictionary. *)
Definition has_snapshot (s : @train_state W opt es) : Prop :=
  model_max_state_dict s = None -> model_max_criteria s = NaN.

(** Lines 536 to 554 of [fit]: the phases of the plan in order, each a call
    of [__train] that starts from the step counter the one before returned.
    Both calls iterate the same loaders; the batches of an epoch may differ
    from phase to phase. *)
Definition run_phases (new_opt : opt) (new_es : es)
    (train_generator : bool -> nat -> list batch) (val_generator : option val)
    (max_epochs : bool -> nat) (plan : list bool)
    (store : list W) (saved : list (bool * save_label * W))
  : nat * list W * list (bool * save_label * W) :=
  fold_left
    (fun acc self_supervised =>
       let '(step, store, saved) := acc in
       let s := train opt_step sched_step validate es_step model tp new_opt new_es
                  (train_generator self_supervised) val_generator
                  (max_epochs self_supervised) self_supervised step store saved in
       (st_step s, st_store s, st_saved s))
    plan (0%nat, store, saved).

End Phases.

(** The run on integers of [Loop], with a checkpoint every second epoch and
    no early stopping; and the two phases of [fit] on the same integers. *)
Definition saving_params : loop_params :=
  {| early_stopping := false;
     epoch_save_frequency := 2;
     learning_rate_decay_step_rate := 1000 |}.

Definition saving_train (epochs : nat) : train_state :=
  train add_step (fun o => o) weight_as_loss tracker_step 0%nat
    saving_params tt fresh_tracker
    one_batch_of_one (Some tt) epochs false 0 [0%Z] [].

Definition demo_phases (epochs_self_supervised epochs_supervised : nat)
  : nat * list Z * list (bool * save_label * Z) :=
  run_phases add_step (fun o => o) weight_as_loss tracker_step 0%nat
    saving_params tt fresh_tracker
    (fun _ => one_batch_of_one) (Some tt)
    (fun self_supervised : bool =>
       if self_supervised then epochs_self_supervised else epochs_supervised)
    [true; false] [0%Z] [].

End Phases.

(* ===================================================================== *)
(** ** The guards of [fit] *)
(* ===================================================================== *)

Module Guards.
Import Py Facade.
#[local] Open Scope string_scope.

(** A validation set that does not match the training set: another type,
    other column labels, another number of columns. *)
Definition mismatched (X_train y_train X_val y_val : container) : Prop :=
  type_of X_train <> type_of X_val
  \/ type_of y_train <> type_of y_val
  \/ (exists columns rows val_columns val_rows,
        X_train = CDataFrame columns rows /\ X_val = CDataFrame val_columns val_rows
        /\ val_columns <> columns)
  \/ (exists n_cols rows val_n_cols val_rows,
        X_train = CNdarray2 n_cols rows /\ X_val = CNdarray2 val_n_cols val_rows
        /\ val_n_cols <> n_cols).

(** The keys of the model parameters that [fit] writes. *)
Definition fit_keys : list string :=
  [ "discrete_target_mapping"; "categorical_config"; "n_input_dims";
    "n_original_input_dims"; "n_continuous_input_dims"; "n_output_dims";
    "column_index_map" ].

(** The error of line 534. *)
Definition no_scheme : exn :=
  ValueError "No training scheme defined: set `run_self_supervised_training` or `run_supervised_training` to True".

(** A table whose labels are not those of [frame_ab]; training overrides
    that switch the supervised phase off, or set its flag to [None]; and a
    categorical variable that no table here has. *)
Definition frame_other : container :=
  CDataFrame [KStr "c"; KStr "y"]
    [ [PStr "a"; PInt 1]; [PStr "b"; PInt 2] ].
Definition supervised_off : dict := {[ "run_supervised_training" := PBool false ]}.
Definition supervised_none : dict := {[ "run_supervised_training" := PNone ]}.
Definition categorical_missing : dict :=
  {[ "categorical_variables" := PList [PStr "c"; PStr "nowhere"] ]}.

End Guards.

(* ===================================================================== *)
(** ** Inference: [__predict], [predict_proba] and [predict] *)
(* ===================================================================== *)

(** The forward pass of the model, the [InferenceDataset] and
    [map_ordinals_to_categoricals] (of [.model] and [.utils]) are
    parameters.  The tensors carry their rank, since [squeeze], [torch.cat]
    and [torch.argmax] depend on it. *)

Module Predict.
Import Py Facade.
#[local] Open Scope R_scope.

(** A real tensor of rank 0, 1 or 2.  A 2-D tensor records its number of
    columns, so that one with no row has a shape. *)
Inductive rtensor : Type :=
| T0 (v : R)
| T1 (vs : list R)
| T2 (n_cols : nat) (rows : list (list R)).

(** A tensor of indices, as [torch.argmax] returns it. *)
Inductive itensor : Type :=
| I0 (i : nat)
| I1 (indices : list nat).

(** What inference can raise: an exception of the facade, the
    [RuntimeError] of a torch operation, or whatever
    [__generate_model_mask] raises. *)
Inductive raised : Type :=
| Raised (e : exn)
| RuntimeError
| MaskError.

Definition lift {A : Type} (m : exn + A) : raised + A :=
  match m with
  | inl e => inl (Raised e)
  | inr a => inr a
  end.

Definition rbind {A B : Type} (m : raised + A) (f : A -> raised + B) : raised + B :=
  match m with
  | inl e => inl e
  | inr a => f a
  end.
Notation "x <-- m ;; f" := (rbind m (fun x => f))
  (at level 100, m at next level, right associativity).

(** [t.squeeze()]: every dimension of size 1 goes. *)
Definition squeeze (t : rtensor) : rtensor :=
  match t with
  | T0 v => T0 v
  | T1 [v] => T0 v
  | T1 vs => T1 vs
  | T2 n_cols [row] => if (n_cols =? 1)%nat then T0 (nth 0 row 0) else T1 row
  | T2 n_cols rows =>
      if (n_cols =? 1)%nat then T1 (map (fun row => nth 0 row 0) rows) else T2 n_cols rows
  end.

(** [nn.functional.softmax(logits, dim=-1)] on a 2-D tensor. *)
Definition softmax_row (v : list R) : list R :=
  map (fun a => exp a / Loss.rsum (map exp v)) v.
Definition softmax_last (rows : tensor R) : tensor R := map softmax_row rows.

(** [torch.argmax(t, dim=-1)]: the first position of the greatest entry;
    an empty last dimension raises. *)
Fixpoint argmax_from (best_i : nat) (best : R) (i : nat) (v : list R) : nat :=
  match v with
  | [] => best_i
  | a :: v' =>
      if Rlt_dec best a then argmax_from i a (S i) v'
      else argmax_from best_i best (S i) v'
  end.
Definition argmax_row (v : list R) : nat :=
  match v with
  | [] => 0%nat
  | a :: v' => argmax_from 0 a 1 v'
  end.
Definition argmax_last (t : rtensor) : raised + itensor :=
  match t with
  | T0 _ => inr (I0 0)
  | T1 [] => inl (Raised IndexError)
  | T1 vs => inr (I0 (argmax_row vs))
  | T2 n_cols rows =>
      if (n_cols =? 0)%nat then inl (Raised IndexError)
      else inr (I1 (map argmax_row rows))
  end.

(** [torch.cat(ts, dim=0)]: an empty list and a 0-dimensional tensor
    raise; 1-D tensors without entries are skipped; what is left must be
    of one rank, and of one width when 2-D. *)
Definition is_T0 (t : rtensor) : bool :=
  match t with
  | T0 _ => true
  | _ => false
  end.
Definition is_skipped (t : rtensor) : bool :=
  match t with
  | T1 [] => true
  | _ => false
  end.
Fixpoint cat1 (ts : list rtensor) : raised + list R :=
  match ts with
  | [] => inr []
  | T1 vs :: ts' => vs' <-- cat1 ts' ;; inr (vs ++ vs')
  | _ :: _ => inl RuntimeError
  end.
Fixpoint cat2 (n_cols : nat) (ts : list rtensor) : raised + list (list R) :=
  match ts with
  | [] => inr []
  | T2 n_cols' rows :: ts' =>
      if (n_cols' =? n_cols)%nat
      then rows' <-- cat2 n_cols ts' ;; inr (rows ++ rows')
      else inl RuntimeError
  | _ :: _ => inl RuntimeError
  end.
Definition cat (ts : list rtensor) : raised + rtensor :=
  match ts with
  | [] => inl RuntimeError
  | _ :: _ =>
      if existsb is_T0 ts then inl RuntimeError
      else
        match filter (fun t => is_skipped t = false) ts with
        | [] => inr (T1 [])
        | T0 _ :: _ => inl RuntimeError
        | T1 vs :: ts' => vs' <-- cat1 ts' ;; inr (T1 (vs ++ vs'))
        | T2 n_cols rows :: ts' => rows' <-- cat2 n_cols ts' ;; inr (T2 n_cols (rows ++ rows'))
        end
  end.

(** The batches of a [DataLoader] that does not shuffle: [batch_size] items
    each, the last one what is left. *)
Fixpoint batches_aux {A : Type} (fuel batch_size : nat) (l : list A) : list (list A) :=
  match fuel with
  | O => []
  | S fuel' =>
      match l with
      | [] => []
      | _ :: _ => take batch_size l :: batches_aux fuel' batch_size (drop batch_size l)
      end
  end.
Definition batches {A : Type} (batch_size : nat) (l : list A) : list (list A) :=
  batches_aux (length l) batch_size l.

(** [all(f(x) for x in l)] in the error monad. *)
Fixpoint collect {A B : Type} (f : A -> raised + B) (l : list A) : raised + list B :=
  match l with
  | [] => inr []
  | x :: l' => y <-- f x ;; ys <-- collect f l' ;; inr (y :: ys)
  end.

Definition not_initialized : raised :=
  Raised (ValueError "Model not yet initialized. Run `train` to fit a model to an input dataset").
Definition no_proba : raised :=
  Raised (ValueError "`Predict_proba` not available for regression models").

(** What [predict] returns: the labels that [map_ordinals_to_categoricals]
    gives, or the values of a regression. *)
Inductive prediction (labels : Type) : Type :=
| Labels (l : labels)
| Values (t : rtensor).
Arguments Labels {labels} l.
Arguments Values {labels} t.

(** The table of [predict_proba]: its column labels and its rows. *)
Record proba_frame (labels : Type) : Type := ProbaFrame {
  frame_columns : labels;
  frame_rows : list (list R)
}.
Arguments ProbaFrame {labels} _ _.
Arguments frame_columns {labels} _.
Arguments frame_rows {labels} _.

Section Predict.

(** A row as the [InferenceDataset] yields it, and the dataset itself. *)
Context {row labels : Type}.
Variable inference_dataset : container -> pyval -> list (key * nat) -> raised + list row.
(** [self.model(x_batch_cont, x_batch_cat, mask)] in evaluation mode: the
    logits, one row per item, [n_out] wide. *)
Variable forward : tabnet_model -> list row -> tensor Q -> tensor R.
Variable n_out : tabnet_model -> nat.
Variable map_ordinals_to_categoricals : itensor -> pyval -> labels.
(** [len] of what it returns. *)
Variable label_count : labels -> nat.
(** The state of the random generator. *)
Variable u : Masking.rng.

(** The body of the loop over the batches (lines 573 to 580). *)
Definition predict_batch (mp : dict) (net : tabnet_model) (b : list row) : raised + rtensor :=
  match generate_mask mp 0 (length b) u with
  | None => inl MaskError
  | Some ones_mask =>
      let y_pred_logits := forward net b ones_mask in
      d <-- lift (item mp "discrete_outputs") ;;
      if truthy d then inr (T2 (n_out net) (softmax_last y_pred_logits))
      else inr (squeeze (T2 (n_out net) y_pred_logits))
  end.

(** [__predict]: the mode the model is left in ([True] for training), and
    the tensor returned or the exception raised. *)
Definition predict_agg (mp : dict) (m : option tabnet_model) (training : bool)
    (X : container) (batch_size : nat) : bool * (raised + rtensor) :=
  match m with
  | None => (training, inl not_initialized)
  | Some net =>
      match (n <-- lift (shape1 X) ;;
             cc <-- lift (item mp "categorical_config") ;;
             pred_data <-- inference_dataset X cc (data_columns_of X n) ;;
             _ <-- (if (batch_size =? 0)%nat
                    then inl (Raised (ValueError "batch_size should be a positive integer value, but got batch_size=0"))
                    else inr tt) ;;
             out_y_pred <-- collect (predict_batch mp net) (batches batch_size pred_data) ;;
             y <-- cat out_y_pred ;;
             inr (squeeze y)) with
      | inl e => (false, inl e)
      | inr y_pred_agg => (true, inr y_pred_agg)
      end
  end.

(** [predict] *)
Definition predict (mp : dict) (m : option tabnet_model) (training : bool)
    (X : container) (batch_size : nat) : bool * (raised + prediction labels) :=
  match item mp "discrete_outputs" with
  | inl e => (training, inl (Raised e))
  | inr d =>
      let '(mode, r) := predict_agg mp m training X batch_size in
      if truthy d
      then (mode,
            y <-- r ;;
            i <-- argmax_last y ;;
            mapping <-- lift (item mp "discrete_target_mapping") ;;
            inr (Labels (map_ordinals_to_categoricals i mapping)))
      else (mode, y <-- r ;; inr (Values y))
  end.

(** [predict_proba]: [pd.DataFrame] of a 1-D array is one column, of a 0-D
    array an error; the columns are numbered, and renamed through the
    target mapping, which must give as many labels as there are columns. *)
Definition predict_proba (mp : dict) (m : option tabnet_model) (training : bool)
    (X : container) (batch_size : nat) : bool * (raised + proba_frame labels) :=
  match item mp "discrete_outputs" with
  | inl e => (training, inl (Raised e))
  | inr d =>
      if negb (truthy d) then (training, inl no_proba)
      else
        let '(mode, r) := predict_agg mp m training X batch_size in
        (mode,
         y <-- r ;;
         ret_data <-- match y with
                      | T0 _ => inl (Raised (ValueError "Must pass 2-d input. shape=()"))
                      | T1 vs => inr (1%nat, map (fun v => [v]) vs)
                      | T2 n_cols rows => inr (n_cols, rows)
                      end ;;
         mapping <-- lift (item mp "discrete_target_mapping") ;;
         let columns := map_ordinals_to_categoricals (I1 (seq 0 (fst ret_data))) mapping in
         if (label_count columns =? fst ret_data)%nat
         then inr (ProbaFrame columns (snd ret_data))
         else inl (Raised (ValueError
                             ("Length mismatch: Expected axis has "
                              +:+ pretty (fst ret_data)
                              +:+ " elements, new values have "
                              +:+ pretty (label_count columns) +:+ " elements")%string)))
  end.

(** The model answers row by row when nothing is masked: on an all-ones
    mask, the logits of a batch are the logits [f] of each of its rows. *)
Definition row_wise (net : tabnet_model) (f : row -> list R) : Prop :=
  forall (b : list row) (mask : tensor Q),
    length mask = length b -> Forall (Forall (fun x => x = 1%Q)) mask ->
    forward net b mask = map f b.

(** The instance is ready to serve [X]: the parameters the loop reads are
    there, and the dataset of [X] has the rows [items]. *)
Definition serves (mp : dict) (X : container) (items : list row) : Prop :=
  exists v cc n,
    mask_view mp = Some v
    /\ mp !! "categorical_config" = Some cc
    /\ shape1 X = inr n
    /\ inference_dataset X cc (data_columns_of X n) = inr items.

End Predict.

(** A model on numeric rows whose [k] logits are the first [k] entries of
    the row; an array of three rows and its targets; and two instances
    fitted on them, one discrete and one not. *)
Definition demo_rows (X : container) (_ : pyval) (_ : list (key * nat))
  : raised + list (list R) :=
  match X with
  | CNdarray2 _ rows =>
      inr (map (map (fun v => match v with PInt z => IZR z | _ => 0 end)) rows)
  | _ => inl (Raised TypeError)
  end.
Definition demo_logits (k : nat) (r : list R) : list R :=
  map (fun j => nth j r 0) (seq 0 k).
Definition demo_forward (k : nat) (_ : tabnet_model) (b : list (list R)) (_ : tensor Q)
  : tensor R :=
  map (demo_logits k) b.
Definition demo_labels (i : itensor) (_ : pyval) : itensor := i.
Definition demo_label_count (i : itensor) : nat :=
  match i with
  | I0 _ => 0%nat
  | I1 indices => length indices
  end.

Definition demo_X : container :=
  CNdarray2 2 [ [PInt 1; PInt 5]; [PInt 7; PInt 3]; [PInt 2; PInt 2] ].
Definition demo_y : container := CNdarray1 [PInt 0; PInt 1; PInt 0].
Definition demo_one : container := CNdarray2 2 [ [PInt 1; PInt 5] ].

Definition fitted_params (overrides : dict) : dict :=
  default ∅ (params_of (fst (fit ordinal_map dataset_n_output_dims
                               (init class_store overrides None)
                               demo_X demo_y demo_X demo_y ∅ ∅))).
Definition discrete_params : dict := fitted_params {[ "discrete_outputs" := PBool true ]}%string.
Definition regression_params : dict := fitted_params ∅.

End Predict.

(* ===================================================================== *)
(** * Statements *)
(* ===================================================================== *)

Import Py.

(* ===================================================================== *)
(** ** The masking engine *)
(* ===================================================================== *)

Import Masking.

Section MaskingFacts.

Lemma mask_loop_unfold (mask : tensor Q) (slices : gset nat) (e : nat) cs keep arr :
  fold_left (mask_step mask slices e) cs (keep, arr)
  = (keep ++ filter (fun c => c ∉ slices) cs,
     arr ++ map (fun c => repeat_cols (unsqueeze (col 0%Q mask c)) e)
                (filter (fun c => c ∈ slices) cs)).
Proof.
  revert keep arr. induction cs as [|c cs IH]; intros keep arr; simpl.
  - by rewrite !app_nil_r.
  - rewrite !filter_cons.
    case_bool_decide; repeat case_decide; try tauto;
      rewrite IH; simpl; by rewrite <- app_assoc.
Qed.

Lemma concat_replicate_singleton {A} (x : A) e : concat (replicate e [x]) = replicate e x.
Proof. induction e as [|e IH]; simpl; [done | by rewrite IH]. Qed.

Lemma block_tensor_rows (mask : tensor Q) e c :
  repeat_cols (unsqueeze (col 0%Q mask c)) e = map (fun row => block e row c) mask.
Proof.
  unfold repeat_cols, unsqueeze, col, block. rewrite !map_map.
  apply map_ext. intros row. apply concat_replicate_singleton.
Qed.

Lemma hcat_map {A B} (f g : A -> list B) (l : list A) :
  hcat (map f l) (map g l) = map (fun x => f x ++ g x) l.
Proof. unfold hcat. induction l as [|x l IH]; simpl; [done | by rewrite IH]. Qed.

Lemma cat_last_map {A B C} (f : A -> list B) (g : A -> C -> list B) (cs : list C) (l : list A) :
  cat_last (map f l :: map (fun c => map (fun x => g x c) l) cs)
  = map (fun x => f x ++ concat (map (g x) cs)) l.
Proof.
  revert f. induction cs as [|c cs IH]; intros f.
  - simpl. apply map_ext. intros x. by rewrite app_nil_r.
  - change (cat_last (map f l :: map (fun c0 => map (fun x => g x c0) l) (c :: cs)))
      with (hcat (map f l)
              (cat_last (map (fun x => g x c) l :: map (fun c0 => map (fun x => g x c0) l) cs))).
    rewrite IH, hcat_map. done.
Qed.

(** The loop and the concatenation, row by row. *)
Lemma generate_model_mask_layout mp p n u :
  generate_model_mask mp p n u
  = option_map (map (layout mp))
      (bernoulli (scale (ones n (n_original_input_dims mp)) (1 - p)) u).
Proof.
  unfold generate_model_mask.
  destruct (bernoulli _ u) as [mask|]; [|done].
  rewrite mask_loop_unfold. cbv beta iota. rewrite !app_nil_l.
  cbn [option_map]. f_equal.
  rewrite (map_ext _ _ (block_tensor_rows mask (embedding_dim mp))).
  unfold index_cols.
  by rewrite (cat_last_map _ (fun row c => block (embedding_dim mp) row c)).
Qed.


(** Every sample lies below 1. *)
Lemma sample_below_one s : Qle_bool 1 (sample_val s) = false.
Proof.
  unfold Qle_bool, sample_val. simpl. apply Z.leb_gt.
  rewrite Zpos_P_of_succ_nat. lia.
Qed.

Lemma bernoulli1_certain s : bernoulli1 (1 * (1 - 0)) s = Some 1%Q.
Proof.
  unfold bernoulli1.
  change (1 * (1 - 0))%Q with 1%Q.
  by rewrite sample_below_one.
Qed.

Lemma bernoulli1_Qeq q q' s : (q == q')%Q -> bernoulli1 q s = bernoulli1 q' s.
Proof. intros E. unfold bernoulli1. by rewrite !E. Qed.

Lemma bernoulli_row_spec u qs : forall j vs,
  bernoulli_row u j qs = Some vs ->
  length vs = length qs /\
  forall c q, qs !! c = Some q ->
    exists v, bernoulli1 q (u (j + c)%nat) = Some v /\ vs !! c = Some v.
Proof.
  induction qs as [|q qs IH]; intros j vs; simpl.
  - intros [= <-]. split; [done|]. intros c q0 Hc. by destruct c.
  - destruct (bernoulli1 q (u j)) as [v|] eqn:Hv; [|done].
    destruct (bernoulli_row u (S j) qs) as [vs'|] eqn:Hvs; [|done].
    intros [= <-]. destruct (IH _ _ Hvs) as [Hlen Hent].
    split; [simpl; by rewrite Hlen|].
    intros [|c] q0 Hc; simpl in *.
    + injection Hc as <-. exists v. by rewrite Nat.add_0_r.
    + destruct (Hent c q0 Hc) as (v0 & Hv0 & Hl). exists v0.
      by rewrite Nat.add_succ_r.
Qed.

Lemma bernoulli_from_spec u probs : forall i m,
  bernoulli_from u i probs = Some m ->
  length m = length probs /\
  forall r qs, probs !! r = Some qs ->
    exists row, bernoulli_row (u (i + r)%nat) 0 qs = Some row /\ m !! r = Some row.
Proof.
  induction probs as [|qs0 probs IH]; intros i m; simpl.
  - intros [= <-]. split; [done|]. intros r qs Hr. by destruct r.
  - destruct (bernoulli_row (u i) 0 qs0) as [v|] eqn:Hv; [|done].
    destruct (bernoulli_from u (S i) probs) as [vs'|] eqn:Hvs; [|done].
    intros [= <-]. destruct (IH _ _ Hvs) as [Hlen Hent].
    split; [simpl; by rewrite Hlen|].
    intros [|r] qs Hr; simpl in *.
    + injection Hr as <-. exists v. by rewrite Nat.add_0_r.
    + destruct (Hent r qs Hr) as (v0 & Hv0 & Hl). exists v0.
      by rewrite Nat.add_succ_r.
Qed.

Lemma lookup_map {A B} (f : A -> B) (l : list A) i :
  map f l !! i = option_map f (l !! i).
Proof. revert i. induction l as [|x l IH]; intros [|i]; simpl; auto. Qed.

Lemma scale_ones_lookup n d c r qs :
  scale (ones n d) c !! r = Some qs -> (r < n)%nat /\ qs = replicate d (1 * c)%Q.
Proof.
  unfold scale, ones. rewrite lookup_map.
  destruct (replicate n (replicate d 1%Q) !! r) as [row|] eqn:Hr; [|done].
  apply lookup_replicate in Hr as [-> Hr]. intros [= <-]. split; [done|].
  clear. induction d; simpl; [done | by f_equal].
Qed.

Lemma scale_ones_length n d c : length (scale (ones n d) c) = n.
Proof. unfold scale, ones. by rewrite length_map, length_replicate. Qed.

(** What one drawn entry is: the draw of its own sample. *)
Lemma drawn_entry n d p u mask r row c :
  bernoulli (scale (ones n d) (1 - p)) u = Some mask ->
  mask !! r = Some row -> (c < d)%nat ->
  exists v, bernoulli1 (1 - p) (u r c) = Some v /\ row !! c = Some v.
Proof.
  intros Hb Hr Hc. apply bernoulli_from_spec in Hb as [Hlen Hrows].
  assert (r < length (scale (ones n d) (1 - p)))%nat as Hlt
    by (rewrite <- Hlen; by eapply lookup_lt_Some).
  destruct (lookup_lt_is_Some_2 _ _ Hlt) as [qs Hqs].
  destruct (Hrows r qs Hqs) as (row' & Hrow' & Hm). simpl in Hrow'.
  rewrite Hr in Hm. injection Hm as <-.
  apply scale_ones_lookup in Hqs as [_ ->].
  apply bernoulli_row_spec in Hrow' as [_ Hent].
  destruct (Hent c (1 * (1 - p))%Q) as (v & Hv & Hl).
  { by apply lookup_replicate_2. }
  exists v. split; [|done]. rewrite <- Hv. apply bernoulli1_Qeq. ring.
Qed.

(** With [p = 0] the draw is the all-ones tensor, whatever the samples. *)
Lemma bernoulli_row_certain u d j :
  bernoulli_row u j (replicate d (1 * (1 - 0))%Q) = Some (replicate d 1%Q).
Proof.
  revert j. induction d as [|d IH]; intros j; [done|].
  cbn [replicate bernoulli_row]. by rewrite bernoulli1_certain, IH.
Qed.

Lemma bernoulli_certain n d u :
  bernoulli (scale (ones n d) (1 - 0)) u = Some (ones n d).
Proof.
  unfold bernoulli. generalize 0%nat as i.
  assert (scale (ones n d) (1 - 0) = replicate n (replicate d (1 * (1 - 0))%Q)) as ->.
  { unfold scale, ones. induction n as [|n IH]; [done|].
    cbn [replicate map]. f_equal; [|done]. clear. induction d; simpl; [done | by f_equal]. }
  unfold ones. induction n as [|n IH]; intros i; [done|].
  cbn [replicate bernoulli_from]. by rewrite bernoulli_row_certain, IH.
Qed.


Lemma StronglySorted_lt_seq j n : StronglySorted lt (seq j n).
Proof.
  revert j. induction n as [|n IH]; intros j; simpl; constructor; [apply IH|].
  apply Forall_forall. intros x Hx. apply list_elem_of_In, in_seq in Hx. lia.
Qed.

Lemma StronglySorted_filter {A} (R : relation A) (P : A -> Prop)
    `{!forall x, Decision (P x)} (l : list A) :
  StronglySorted R l -> StronglySorted R (filter P l).
Proof.
  induction 1 as [|x l Hl IH Hx]; [constructor|].
  rewrite filter_cons. case_decide; [|done].
  constructor; [done|]. apply Forall_forall. intros y Hy.
  apply list_elem_of_filter in Hy as [_ Hy].
  rewrite Forall_forall in Hx. by apply Hx.
Qed.

Lemma elem_of_cat_columns mp c :
  c ∈ cat_columns mp <-> c ∈ idx_list mp /\ (c < n_original_input_dims mp)%nat.
Proof.
  unfold cat_columns, idx_slices. rewrite list_elem_of_filter, elem_of_list_to_set.
  rewrite elem_of_seq. intuition lia.
Qed.

Lemma cat_columns_perm mp : config_in_range mp -> cat_columns mp ≡ₚ idx_list mp.
Proof.
  intros [Hnd Hlt]. apply NoDup_Permutation; [|done|].
  - apply NoDup_filter, NoDup_seq.
  - intros c. rewrite elem_of_cat_columns. rewrite Forall_forall in Hlt.
    split; [tauto|]. intros Hc. split; [done | by apply Hlt].
Qed.

(** Columns registered in ascending position: the two orders coincide. *)
Lemma cat_columns_registered mp :
  StronglySorted lt (idx_list mp) ->
  Forall (fun c => c < n_original_input_dims mp)%nat (idx_list mp) ->
  cat_columns mp = idx_list mp.
Proof.
  intros Hs Hlt. apply (StronglySorted_unique_strong lt).
  - intros; lia.
  - apply StronglySorted_filter, StronglySorted_lt_seq.
  - done.
  - apply cat_columns_perm. split; [|done].
    clear Hlt. induction Hs as [|x l Hl IH Hx]; constructor; [|done].
    intros Hin. rewrite Forall_forall in Hx. specialize (Hx _ Hin). lia.
Qed.

Lemma keep_cat_length mp :
  (length (keep_columns mp) + length (cat_columns mp) = n_original_input_dims mp)%nat.
Proof.
  unfold keep_columns, cat_columns.
  transitivity (length (seq 0 (n_original_input_dims mp))); [|apply length_seq].
  induction (seq 0 (n_original_input_dims mp)) as [|c cs IH]; [done|].
  rewrite !filter_cons. repeat case_decide; try tauto; simpl; lia.
Qed.

Lemma length_concat_blocks e row cs :
  length (concat (map (block e row) cs)) = (length cs * e)%nat.
Proof.
  induction cs as [|c cs IH]; [done|].
  simpl. rewrite length_app, IH. unfold block. rewrite length_replicate. lia.
Qed.

Lemma length_layout mp row :
  length (layout mp row)
  = (length (keep_columns mp) + length (cat_columns mp) * embedding_dim mp)%nat.
Proof. unfold layout. by rewrite length_app, length_map, length_concat_blocks. Qed.

Lemma lookup_concat_blocks e row cs k c j :
  cs !! k = Some c -> (j < e)%nat ->
  concat (map (block e row) cs) !! (k * e + j)%nat = Some (nth c row 0%Q).
Proof.
  revert k. induction cs as [|c0 cs IH]; intros [|k] Hk Hj; simpl in *; try done.
  - injection Hk as ->. rewrite lookup_app_l by (unfold block; rewrite length_replicate; lia).
    by apply lookup_replicate_2.
  - rewrite lookup_app_r by (unfold block; rewrite length_replicate; lia).
    unfold block at 1. rewrite length_replicate.
    replace (e + k * e + j - e)%nat with (k * e + j)%nat by lia. by apply IH.
Qed.

(** With [p = 0]: the rows, their width and their entries. *)
Lemma all_ones_of_expanded_width mp n u :
  exists out,
    generate_model_mask mp 0 n u = Some out
    /\ length out = n
    /\ Forall (fun row => length row = expanded_width mp
                          /\ Forall (fun v => v = 1%Q) row) out.
Proof.
  rewrite generate_model_mask_layout, bernoulli_certain.
  eexists. split; [reflexivity|]. split.
  { unfold ones. by rewrite length_map, length_replicate. }
  apply Forall_forall. intros row Hrow.
  apply list_elem_of_In, in_map_iff in Hrow as (ones_row & <- & Hin).
  apply list_elem_of_In in Hin. unfold ones in Hin.
  apply list_elem_of_lookup in Hin as [r Hr].
  apply lookup_replicate in Hr as [-> _]. split; [apply length_layout|].
  unfold layout. apply Forall_app. split.
  - apply Forall_forall. intros v Hv.
    apply list_elem_of_In, in_map_iff in Hv as (c & <- & Hc).
    apply list_elem_of_In, list_elem_of_filter in Hc as [_ Hc].
    apply list_elem_of_In, in_seq in Hc.
    apply nth_lookup_Some with (d := 0%Q). apply lookup_replicate_2. lia.
  - apply Forall_forall. intros v Hv.
    apply list_elem_of_In, in_concat in Hv as (blk & Hblk & Hv).
    apply in_map_iff in Hblk as (c & <- & Hc).
    apply list_elem_of_In, elem_of_cat_columns in Hc as [_ Hc].
    unfold block in Hv. apply list_elem_of_In, elem_of_replicate in Hv as [-> _].
    apply nth_lookup_Some with (d := 0%Q). apply lookup_replicate_2. lia.
Qed.

(** For a configuration as [fit] builds it, the expanded width is the
    [n_input_dims] that [fit] derives. *)
Lemma expanded_width_n_input_dims mp :
  config_in_range mp -> Z.of_nat (expanded_width mp) = n_input_dims mp.
Proof.
  intros Hwf. unfold expanded_width, n_input_dims.
  pose proof (keep_cat_length mp) as Hsum.
  pose proof (Permutation_length (cat_columns_perm mp Hwf)) as Hcat.
  unfold idx_list in Hcat. rewrite length_map in Hcat. nia.
Qed.

(** A probability within [0, 1] never raises. *)
Lemma bernoulli_row_returns u q d : forall j,
  (0 <= q)%Q -> (q <= 1)%Q -> exists row, bernoulli_row u j (replicate d q) = Some row.
Proof.
  intros j H0 H1. revert j. induction d as [|d IH]; intros j; [by exists []|].
  destruct (IH (S j)) as [row Hrow]. cbn [replicate bernoulli_row].
  unfold bernoulli1.
  rewrite (proj2 (Qle_bool_iff 0 q) H0), (proj2 (Qle_bool_iff q 1) H1). simpl.
  rewrite Hrow. eauto.
Qed.

Lemma generate_model_mask_returns mp p n u :
  (0 <= p)%Q -> (p <= 1)%Q -> exists out, generate_model_mask mp p n u = Some out.
Proof.
  intros H0 H1. rewrite generate_model_mask_layout.
  assert (exists mask,
            bernoulli (scale (ones n (n_original_input_dims mp)) (1 - p)) u = Some mask)
    as [mask ->]; [|by eexists].
  unfold bernoulli. generalize 0%nat as i.
  assert (scale (ones n (n_original_input_dims mp)) (1 - p)
          = replicate n (replicate (n_original_input_dims mp) (1 * (1 - p))%Q)) as ->.
  { unfold scale, ones. generalize (n_original_input_dims mp) as d. intros d.
    induction n as [|n IH]; [done|].
    cbn [replicate map]. f_equal; [|done]. clear. induction d; simpl; [done | by f_equal]. }
  induction n as [|n IH]; intros i; [by exists []|].
  destruct (IH (S i)) as [rows Hrows].
  destruct (bernoulli_row_returns (u i) (1 * (1 - p))%Q (n_original_input_dims mp) 0%nat)
    as [row Hrow].
  { lra. }
  { lra. }
  cbn [replicate bernoulli_from]. rewrite Hrow, Hrows. eauto.
Qed.

End MaskingFacts.

(** The mask of [swapped_config] at [p = 1/2] exists. *)
Lemma generate_model_mask_returns_witness :
  exists out, generate_model_mask swapped_config (1 # 2) 2 low_then_high = Some out.
Proof.
  apply (generate_model_mask_returns swapped_config (1 # 2) 2%nat low_then_high);
    [apply (Qle_bool_imp_le 0 (1 # 2)) | apply (Qle_bool_imp_le (1 # 2) 1)]; reflexivity.
Defined.

(** C7 (as worded): the blocks do not follow the registration order.  With
    column 2 registered before column 0 and the draw [1, 1, 0], the code
    returns [1, 1, 1, 0, 0]; the registration order would give
    [1, 0, 0, 1, 1]. *)
Lemma mask_not_in_registration_order :
  ~ (forall mp p n u out,
       generate_model_mask mp p n u = Some out ->
       exists mask,
         bernoulli (scale (ones n (n_original_input_dims mp)) (1 - p)) u = Some mask
         /\ out = map (layout_registered mp) mask).
Proof.
  intros H.
  destruct (H swapped_config (1 # 2) 2%nat low_then_high
              [[1; 1; 1; 0; 0]; [1; 1; 1; 0; 0]]%Q eq_refl) as (mask & Hm & Hout).
  vm_compute in Hm. injection Hm as <-. vm_compute in Hout. discriminate Hout.
Qed.

(** C7 (amended): every mask returned by [generate_model_mask] is, row by
    row, the mask values of the columns that are not categorical, by
    ascending column position, followed by one block of [embedding_dim]
    copies per categorical column, again by ascending column position.
    That is the registration order of [categorical_config] whenever the
    categorical columns were registered by ascending position. *)
Theorem mask_layout_by_column_position mp p n u out :
  generate_model_mask mp p n u = Some out ->
  exists mask,
    bernoulli (scale (ones n (n_original_input_dims mp)) (1 - p)) u = Some mask
    /\ out = map (layout mp) mask
    /\ (StronglySorted lt (idx_list mp) ->
        Forall (fun c => c < n_original_input_dims mp)%nat (idx_list mp) ->
        out = map (layout_registered mp) mask).
Proof.
  rewrite generate_model_mask_layout.
  destruct (bernoulli _ u) as [mask|]; [|done].
  intros [= <-]. exists mask. split; [done|]. split; [done|].
  intros Hs Hlt. apply map_ext. intros row.
  unfold layout, layout_registered. by rewrite cat_columns_registered.
Qed.

(** The layout theorem on the two-row draw of [swapped_config]. *)
Lemma mask_layout_by_column_position_witness :
  exists mask,
    bernoulli (scale (ones 2 (n_original_input_dims swapped_config)) (1 - (1 # 2)))
      low_then_high = Some mask
    /\ [[1; 1; 1; 0; 0]; [1; 1; 1; 0; 0]]%Q = map (layout swapped_config) mask
    /\ (StronglySorted lt (idx_list swapped_config) ->
        Forall (fun c => c < n_original_input_dims swapped_config)%nat
          (idx_list swapped_config) ->
        [[1; 1; 1; 0; 0]; [1; 1; 1; 0; 0]]%Q = map (layout_registered swapped_config) mask).
Proof.
  apply (mask_layout_by_column_position swapped_config (1 # 2) 2%nat low_then_high).
  reflexivity.
Defined.

(** C9: with [p = 0], whatever the batch size, the configuration and the
    samples, [generate_model_mask] returns a tensor of [n] rows, each of
    the expanded input width, in which every entry is 1.  For a
    configuration as [fit] builds it (categorical columns that are distinct
    columns of the input) that width is [n_input_dims]. *)
Theorem generate_mask_p0_all_ones mp n u :
  exists out,
    generate_model_mask mp 0 n u = Some out
    /\ length out = n
    /\ Forall (fun row => length row = expanded_width mp
                          /\ Forall (fun v => v = 1%Q) row) out
    /\ (config_in_range mp -> Z.of_nat (expanded_width mp) = n_input_dims mp).
Proof.
  destruct (all_ones_of_expanded_width mp n u) as (out & Hout & Hlen & Hrows).
  exists out. split; [done|]. split; [done|]. split; [done|].
  apply expanded_width_n_input_dims.
Qed.

(** The all-ones theorem on [swapped_config], four rows of width 5. *)
Lemma generate_mask_p0_all_ones_witness :
  exists out,
    generate_model_mask swapped_config 0 4 low_then_high = Some out
    /\ length out = 4%nat
    /\ Forall (fun row => length row = expanded_width swapped_config
                          /\ Forall (fun v => v = 1%Q) row) out
    /\ Z.of_nat (expanded_width swapped_config) = n_input_dims swapped_config.
Proof.
  destruct (generate_mask_p0_all_ones swapped_config 4 low_then_high)
    as (out & Hout & Hlen & Hrows & Hwidth).
  exists out. split; [done|]. split; [done|]. split; [done|].
  apply Hwidth. split.
  - apply (bool_decide_unpack (NoDup _)). vm_compute. exact I.
  - repeat constructor.
Defined.

(** C10: in every mask returned by [generate_model_mask], whatever [p] and
    the batch size, the [embedding_dim] slots of a categorical block carry,
    within a row, one and the same value: the single Bernoulli draw with
    keep-probability [1 - p] made for that row and that original column,
    from that entry's own sample.  Every registered categorical column of
    the input has such a block. *)
Theorem mask_block_shares_one_draw mp p n u out :
  generate_model_mask mp p n u = Some out ->
  length out = n
  /\ (forall c, c ∈ idx_list mp -> (c < n_original_input_dims mp)%nat ->
        exists k, cat_columns mp !! k = Some c)
  /\ (forall r row k c,
        out !! r = Some row -> cat_columns mp !! k = Some c ->
        exists v,
          bernoulli1 (1 - p) (u r c) = Some v
          /\ forall j, (j < embedding_dim mp)%nat ->
               row !! (length (keep_columns mp) + k * embedding_dim mp + j)%nat = Some v).
Proof.
  rewrite generate_model_mask_layout.
  destruct (bernoulli _ u) as [mask|] eqn:Hb; [|done].
  intros [= <-]. split; [|split].
  - rewrite length_map. apply bernoulli_from_spec in Hb as [-> _].
    apply scale_ones_length.
  - intros c Hc Hlt. apply list_elem_of_lookup, elem_of_cat_columns. done.
  - intros r row k c Hr Hk. rewrite lookup_map in Hr.
    destruct (mask !! r) as [drawn|] eqn:Hd; [|done]. injection Hr as <-.
    assert (c < n_original_input_dims mp)%nat as Hc.
    { apply list_elem_of_lookup_2, elem_of_cat_columns in Hk. tauto. }
    destruct (drawn_entry _ _ _ _ _ _ _ _ Hb Hd Hc) as (v & Hv & Hl).
    exists v. split; [done|]. intros j Hj. unfold layout.
    rewrite lookup_app_r by (rewrite length_map; lia).
    rewrite length_map.
    replace (length (keep_columns mp) + k * embedding_dim mp + j - length (keep_columns mp))%nat
      with (k * embedding_dim mp + j)%nat by lia.
    rewrite (lookup_concat_blocks _ _ _ _ c) by done.
    f_equal. by apply nth_lookup_Some.
Qed.

(** The block theorem on the two-row draw of [swapped_config]. *)
Lemma mask_block_shares_one_draw_witness :
  length [[1; 1; 1; 0; 0]; [1; 1; 1; 0; 0]]%Q = 2%nat
  /\ (forall c, c ∈ idx_list swapped_config ->
        (c < n_original_input_dims swapped_config)%nat ->
        exists k, cat_columns swapped_config !! k = Some c)
  /\ (forall r row k c,
        [[1; 1; 1; 0; 0]; [1; 1; 1; 0; 0]]%Q !! r = Some row ->
        cat_columns swapped_config !! k = Some c ->
        exists v,
          bernoulli1 (1 - (1 # 2)) (low_then_high r c) = Some v
          /\ forall j, (j < embedding_dim swapped_config)%nat ->
               row !! (length (keep_columns swapped_config)
                       + k * embedding_dim swapped_config + j)%nat = Some v).
Proof.
  apply (mask_block_shares_one_draw swapped_config (1 # 2) 2%nat low_then_high).
  reflexivity.
Defined.

(* ===================================================================== *)
(** ** The loss composer *)
(* ===================================================================== *)

Import Loss.
#[local] Open Scope R_scope.

Section LossFacts.

Variable torch_std : list R -> R.

Abbreviation std_dim0 := (std_dim0 torch_std).
Abbreviation divisor := (divisor torch_std).
Abbreviation scaled_residual := (scaled_residual torch_std).
Abbreviation get_reconstruction_loss := (get_reconstruction_loss torch_std).

Lemma rsum_app v w : rsum (v ++ w) = rsum v + rsum w.
Proof. induction v as [|a v IH]; simpl; [lra | rewrite IH; lra]. Qed.

Lemma rsum_scale {A} (c : R) (f : A -> R) (l : list A) :
  rsum (map (fun a => c * f a) l) = c * rsum (map f l).
Proof. induction l as [|a l IH]; simpl; [lra | rewrite IH; lra]. Qed.

Lemma rsum_squares_nonneg v : 0 <= rsum (map (fun a => a * a) v).
Proof. induction v as [|a v IH]; simpl; [lra | nra]. Qed.

Lemma row_norm_square row : row_norm row * row_norm row = rsum (map (fun v => v * v) row).
Proof. unfold row_norm. apply sqrt_sqrt, rsum_squares_nonneg. Qed.

Lemma rsum_squares_concat t :
  rsum (map (fun v => v * v) (concat t))
  = rsum (map (fun row => row_norm row * row_norm row) t).
Proof.
  induction t as [|row t IH]; [done|].
  simpl. rewrite map_app, rsum_app, IH, row_norm_square. done.
Qed.

(** [torch.norm] of a matrix, by rows. *)
Lemma norm_by_rows t :
  norm t = sqrt (rsum (map (fun row => row_norm row * row_norm row) t)).
Proof. unfold norm. by rewrite rsum_squares_concat. Qed.


Lemma shape_lookup n d t i j :
  shape n d t -> (i < n)%nat -> (j < d)%nat ->
  exists row v, t !! i = Some row /\ length row = d /\ row !! j = Some v.
Proof.
  intros [Hn Hd] Hi Hj.
  destruct (lookup_lt_is_Some_2 t i) as [row Hrow]; [lia|].
  rewrite Forall_forall in Hd.
  assert (length row = d) as Hlen by (apply Hd; by eapply list_elem_of_lookup_2).
  destruct (lookup_lt_is_Some_2 row j) as [v Hv]; [lia|].
  by exists row, v.
Qed.

Lemma shape_width n d t : shape n d t -> (0 < n)%nat -> width t = d.
Proof.
  intros [Hn Hd] Hpos. destruct t as [|row t]; simpl in *; [lia|].
  by inversion Hd.
Qed.

Lemma divisor_lookup x j :
  (j < width x)%nat -> replace_zero (std_dim0 x) !! j = Some (divisor x j).
Proof.
  intros Hj. unfold replace_zero, Loss.std_dim0. rewrite !lookup_map.
  rewrite lookup_seq_lt by done. done.
Qed.

Lemma divisor_nonzero x j : divisor x j <> 0.
Proof. unfold Loss.divisor. destruct (Req_dec_T _ 0); [lra | done]. Qed.

Lemma divisor_zero_std x j : torch_std (column x j) = 0 -> divisor x j = 1.
Proof. unfold Loss.divisor. intros ->. destruct (Req_dec_T 0 0); [done | lra]. Qed.

(** One entry of the scaled residual. *)
Lemma scaled_residual_entry n d x xr mask i j :
  shape n d x -> shape n d xr -> shape n d mask -> (i < n)%nat -> (j < d)%nat ->
  nth i (scaled_residual x xr mask) [] !! j
  = Some ((1 - nth j (nth i mask []) 0)
          * (nth j (nth i xr []) 0 - nth j (nth i x []) 0) / divisor x j).
Proof.
  intros Hx Hr Hm Hi Hj.
  destruct (shape_lookup _ _ _ _ _ Hx Hi Hj) as (xrow & xv & Hxi & Hxl & Hxj).
  destruct (shape_lookup _ _ _ _ _ Hr Hi Hj) as (rrow & rv & Hri & Hrl & Hrj).
  destruct (shape_lookup _ _ _ _ _ Hm Hi Hj) as (mrow & mv & Hmi & Hml & Hmj).
  rewrite (nth_lookup_Some _ _ [] _ Hxi), (nth_lookup_Some _ _ [] _ Hri),
    (nth_lookup_Some _ _ [] _ Hmi).
  rewrite (nth_lookup_Some _ _ 0 _ Hxj), (nth_lookup_Some _ _ 0 _ Hrj),
    (nth_lookup_Some _ _ 0 _ Hmj).
  assert (scaled_residual x xr mask !! i
          = Some (zip_with Rdiv
                    (zip_with Rmult (zip_with Rminus (map (fun _ => 1) xrow) mrow)
                                    (zip_with Rminus rrow xrow))
                    (replace_zero (std_dim0 x)))) as Hrow.
  { unfold Loss.scaled_residual, tdiv_row, tmul, tsub, ones_like.
    rewrite lookup_map, !lookup_zip_with, lookup_map, Hxi, Hmi, Hri. done. }
  rewrite (nth_lookup_Some _ _ [] _ Hrow).
  rewrite !lookup_zip_with, lookup_map, Hxj, Hmj, Hrj.
  rewrite divisor_lookup by (rewrite (shape_width n d) by (done || lia); done).
  done.
Qed.

Lemma scaled_residual_shape n d x xr mask :
  shape n d x -> shape n d xr -> shape n d mask -> (0 < n)%nat ->
  shape n d (scaled_residual x xr mask).
Proof.
  intros Hx Hr Hm Hpos.
  assert (length (replace_zero (std_dim0 x)) = d) as Hstd.
  { unfold replace_zero, Loss.std_dim0. rewrite !length_map, length_seq.
    by apply (shape_width n). }
  destruct Hx as [Hxn Hxd], Hr as [Hrn Hrd], Hm as [Hmn Hmd].
  unfold Loss.scaled_residual, tdiv_row, tmul, tsub, ones_like. split.
  - rewrite length_map, !length_zip_with, length_map. lia.
  - apply Forall_forall. intros row Hrow.
    apply list_elem_of_In, in_map_iff in Hrow as (row' & <- & Hrow').
    apply list_elem_of_In, list_elem_of_lookup in Hrow' as [i Hi].
    rewrite !lookup_zip_with, lookup_map in Hi.
    destruct (x !! i) as [xrow|] eqn:Hxi; [|done].
    destruct (mask !! i) as [mrow|] eqn:Hmi; [|done].
    destruct (xr !! i) as [rrow|] eqn:Hri; [|done].
    simpl in Hi. injection Hi as <-.
    rewrite Forall_forall in Hxd, Hrd, Hmd.
    rewrite !length_zip_with, length_map.
    rewrite (Hxd xrow), (Hmd mrow), (Hrd rrow), Hstd
      by (by eapply list_elem_of_lookup_2). lia.
Qed.


(** Two equal rows: the column has zero deviation. *)
Lemma std1_pair_equal a : std1 [a; a] = 0.
Proof.
  unfold std1, mean. simpl.
  replace ((a - (a + (a + 0)) / (1 + 1)) * (a - (a + (a + 0)) / (1 + 1))
           + ((a - (a + (a + 0)) / (1 + 1)) * (a - (a + (a + 0)) / (1 + 1)) + 0))
    with 0 by (field_simplify; lra).
  replace (0 / (1 + 1 - 1)) with 0 by field. apply sqrt_0.
Qed.

(** The residuals 3 and 4 on a column of zeros, whatever its divisor. *)
Lemma residual_3_4 :
  scaled_residual [[0]; [0]] [[3]; [4]] [[0]; [0]]
  = [[3 / divisor [[0]; [0]] 0]; [4 / divisor [[0]; [0]] 0]].
Proof.
  unfold Loss.scaled_residual, tdiv_row, tmul, tsub, ones_like, replace_zero,
    Loss.std_dim0, Loss.divisor.
  simpl. repeat f_equal; unfold Rdiv; ring.
Qed.

Lemma sqrt_square_abs a : sqrt (a * a) = Rabs a.
Proof. exact (sqrt_Rsqr_abs a). Qed.

Lemma abs_quotient c s : 0 < c -> Rabs (c / s) = c * Rabs (/ s).
Proof.
  intros Hc. unfold Rdiv. rewrite Rabs_mult, (Rabs_right c) by lra. done.
Qed.

End LossFacts.

(** C4 (as worded): the loss is not the sum of the per-row Euclidean norms,
    whatever [torch.std] computes.  On two rows whose residuals are 3 and 4
    over the divisor [s] of a column of zeros, the code returns [5 / |s|],
    the norm of the whole matrix; the row norms sum to [7 / |s|].  (That
    divisor is 1: the deviation of a column of zeros is zero.) *)
Lemma reconstruction_loss_not_sum_of_row_norms :
  ~ (exists torch_std : list R -> R,
       forall x x_reconstruction feature_mask,
         get_reconstruction_loss torch_std x x_reconstruction feature_mask
         = reconstruction_loss_rowwise torch_std x x_reconstruction feature_mask).
Proof.
  intros [torch_std H]. specialize (H [[0]; [0]] [[3]; [4]] [[0]; [0]]).
  unfold get_reconstruction_loss, reconstruction_loss_rowwise, sum0, norm, row_norm in H.
  rewrite residual_3_4 in H.
  pose proof (divisor_nonzero torch_std [[0]; [0]] 0) as Hs.
  set (s := divisor torch_std [[0]; [0]] 0) in *. simpl in H.
  replace (3 / s * (3 / s) + (4 / s * (4 / s) + 0)) with (5 / s * (5 / s)) in H
    by (field; done).
  replace (3 / s * (3 / s) + 0) with (3 / s * (3 / s)) in H by lra.
  replace (4 / s * (4 / s) + 0) with (4 / s * (4 / s)) in H by lra.
  rewrite !sqrt_square_abs, !abs_quotient in H by lra.
  assert (Rabs (/ s) <> 0) as Hpos by (apply Rabs_no_R0; by apply Rinv_neq_0_compat).
  lra.
Qed.

(** C4 (amended): on a batch of at least two rows, every entry of the
    residual is the difference between the reconstruction and the embedded
    input, zeroed where the position was not masked out, divided by the
    column's per-batch standard deviation (1 where that deviation is zero);
    the loss is the Euclidean norm of the whole residual matrix, that is the
    square root of the sum of the squared row norms, and the trailing sum
    leaves that one number as it is. *)
Theorem reconstruction_loss_whole_batch_norm
    (torch_std : list R -> R) n d x x_reconstruction feature_mask :
  (2 <= n)%nat ->
  shape n d x -> shape n d x_reconstruction -> shape n d feature_mask ->
  get_reconstruction_loss torch_std x x_reconstruction feature_mask
  = sqrt (rsum (map (fun row => row_norm row * row_norm row)
                    (scaled_residual torch_std x x_reconstruction feature_mask)))
  /\ shape n d (scaled_residual torch_std x x_reconstruction feature_mask)
  /\ forall i j, (i < n)%nat -> (j < d)%nat ->
       nth i (scaled_residual torch_std x x_reconstruction feature_mask) [] !! j
       = Some ((1 - nth j (nth i feature_mask []) 0)
               * (nth j (nth i x_reconstruction []) 0 - nth j (nth i x []) 0)
               / divisor torch_std x j).
Proof.
  intros Hn Hx Hr Hm. split; [|split].
  - unfold get_reconstruction_loss, sum0. apply norm_by_rows.
  - apply scaled_residual_shape; (done || lia).
  - intros i j Hi Hj. by apply (scaled_residual_entry torch_std n d).
Qed.

(** The norm theorem on the two-row batch with residuals 3 and 4. *)
Lemma reconstruction_loss_whole_batch_norm_witness :
  get_reconstruction_loss std1 [[0]; [0]] [[3]; [4]] [[0]; [0]]
  = sqrt (rsum (map (fun row => row_norm row * row_norm row)
                    (scaled_residual std1 [[0]; [0]] [[3]; [4]] [[0]; [0]])))
  /\ shape 2 1 (scaled_residual std1 [[0]; [0]] [[3]; [4]] [[0]; [0]])
  /\ forall i j, (i < 2)%nat -> (j < 1)%nat ->
       nth i (scaled_residual std1 [[0]; [0]] [[3]; [4]] [[0]; [0]]) [] !! j
       = Some ((1 - nth j (nth i [[0]; [0]] []) 0)
               * (nth j (nth i [[3]; [4]] []) 0 - nth j (nth i [[0]; [0]] []) 0)
               / divisor std1 [[0]; [0]] j).
Proof.
  apply (reconstruction_loss_whole_batch_norm std1 2 1 [[0]; [0]] [[3]; [4]] [[0]; [0]]);
    [lia | | |]; (split; [reflexivity | repeat constructor]).
Defined.

(** C8: on a batch of at least two rows, a column whose per-batch standard
    deviation, as [torch.std] computed it, is exactly zero is divided by 1:
    its residual entries are the masked differences themselves.  No column
    is ever divided by zero, whatever the deviations computed.  (The test
    of line 147 is on the computed value: a constant column is covered when
    the computation gives exactly zero on it, and only then.) *)
Theorem zero_std_column_divides_by_one
    (torch_std : list R -> R) n d x x_reconstruction feature_mask j :
  (2 <= n)%nat ->
  shape n d x -> shape n d x_reconstruction -> shape n d feature_mask ->
  (j < d)%nat ->
  torch_std (column x j) = 0 ->
  replace_zero (std_dim0 torch_std x) !! j = Some 1
  /\ (forall j', (j' < d)%nat ->
        exists s, replace_zero (std_dim0 torch_std x) !! j' = Some s /\ s <> 0)
  /\ (forall i, (i < n)%nat ->
        nth i (scaled_residual torch_std x x_reconstruction feature_mask) [] !! j
        = Some ((1 - nth j (nth i feature_mask []) 0)
                * (nth j (nth i x_reconstruction []) 0 - nth j (nth i x []) 0))).
Proof.
  intros Hn Hx Hr Hm Hj Hstd.
  assert (width x = d) as Hw by (apply (shape_width n); (done || lia)).
  split; [|split].
  - rewrite divisor_lookup by lia. by rewrite divisor_zero_std.
  - intros j' Hj'. exists (divisor torch_std x j'). split; [|apply divisor_nonzero].
    apply divisor_lookup. lia.
  - intros i Hi. rewrite (scaled_residual_entry torch_std n d) by done.
    rewrite divisor_zero_std by done. f_equal. field.
Qed.

(** The divisor theorem on a column of two fives, where the deviation
    computed is zero: the mean is 5 and both differences are 0. *)
Lemma zero_std_column_divides_by_one_witness :
  replace_zero (std_dim0 std1 [[5]; [5]]) !! 0%nat = Some 1
  /\ (forall j', (j' < 1)%nat ->
        exists s, replace_zero (std_dim0 std1 [[5]; [5]]) !! j' = Some s /\ s <> 0)
  /\ (forall i, (i < 2)%nat ->
        nth i (scaled_residual std1 [[5]; [5]] [[3]; [4]] [[0]; [1]]) [] !! 0%nat
        = Some ((1 - nth 0 (nth i [[0]; [1]] []) 0)
                * (nth 0 (nth i [[3]; [4]] []) 0 - nth 0 (nth i [[5]; [5]] []) 0))).
Proof.
  apply (zero_std_column_divides_by_one std1 2 1 [[5]; [5]] [[3]; [4]] [[0]; [1]] 0);
    [lia | | | | lia | apply std1_pair_equal];
    (split; [reflexivity | repeat constructor]).
Defined.

Section SparsityFacts.

Lemma mean_scale {A} (c : R) (f : A -> R) (l : list A) :
  mean (map (fun a => c * f a) l) = c * mean (map f l).
Proof. unfold mean. rewrite rsum_scale, !length_map. unfold Rdiv. ring. Qed.

Lemma map_ext_on {A B} (f g : A -> B) (l : list A) :
  Forall (fun a => f a = g a) l -> map f l = map g l.
Proof. induction 1; simpl; [done | by f_equal]. Qed.

(** On rows of [d] features the sum is [d] times the mean. *)
Lemma sum_last_mean_last d (t : tensor R) :
  (0 < d)%nat -> Forall (fun row => length row = d) t ->
  mean (sum_last t) = INR d * mean (mean_last t).
Proof.
  intros Hd Hrows. unfold sum_last, mean_last.
  rewrite <- (mean_scale (INR d) mean t). f_equal.
  apply map_ext_on. eapply Forall_impl; [exact Hrows|].
  intros row Hlen. unfold mean. rewrite Hlen. field.
  apply not_0_INR. lia.
Qed.

Lemma entropy_terms_rows eps d (m : tensor R) :
  Forall (fun row => length row = d) m ->
  Forall (fun row => length row = d) (entropy_terms eps m).
Proof.
  unfold entropy_terms. intros H. apply Forall_forall. intros row Hrow.
  apply list_elem_of_In, in_map_iff in Hrow as (row' & <- & Hin).
  rewrite length_map. rewrite Forall_forall in H. by apply H, list_elem_of_In.
Qed.

End SparsityFacts.

(** C3 (as worded): the sparsity loss is not built from the mean over
    features.  On one step, one row, the uniform mask over two features, the
    code returns minus the logarithm of [1/2 + epsilon]; the mean over
    features gives half of that. *)
Lemma sparsity_loss_not_mean_over_features :
  ~ (forall masks epsilon,
       sparsity_loss masks epsilon = sparsity_loss_mean_of_means masks epsilon).
Proof.
  intros H. specialize (H [[[1 / 2; 1 / 2]]] (1 / 10000000)).
  unfold sparsity_loss, sparsity_loss_mean_of_means, mean, mean_last, sum_last,
    entropy_terms in H. simpl in H.
  assert (ln (1 / 2 + 1 / 10000000) < 0) as Hneg.
  { rewrite <- ln_1. apply ln_increasing; lra. }
  set (L := ln (1 / 2 + 1 / 10000000)) in *.
  unfold mean in H. simpl in H. lra.
Qed.

(** C3 (amended): for every training batch, the sparsity loss is the
    average over the model's steps of the negated mean, over batch rows, of
    the per-row sum over features of [mask * log(mask + epsilon)].  With [d]
    features per row that is [d] times the mean-over-features value. *)
Theorem sparsity_loss_sums_over_features d masks epsilon :
  (0 < d)%nat ->
  Forall (Forall (fun row => length row = d)) masks ->
  sparsity_loss masks epsilon
  = - mean (map (fun c_mask =>
              mean (map (fun row => rsum (map (fun v => v * ln (v + epsilon)) row)) c_mask))
            masks)
  /\ sparsity_loss masks epsilon = INR d * sparsity_loss_mean_of_means masks epsilon.
Proof.
  intros Hd Hshape. split.
  - unfold sparsity_loss, sum_last, entropy_terms.
    rewrite (map_ext _ _ (fun c_mask => f_equal mean (map_map _ rsum c_mask))). lra.
  - unfold sparsity_loss, sparsity_loss_mean_of_means.
    rewrite (map_ext_on _ (fun c_mask => INR d * mean (mean_last (entropy_terms epsilon c_mask)))).
    + rewrite mean_scale. lra.
    + eapply Forall_impl; [exact Hshape|]. intros m Hm.
      apply sum_last_mean_last; [done | by apply entropy_terms_rows].
Qed.

(** The sparsity theorem on one step with the uniform mask over two
    features. *)
Lemma sparsity_loss_sums_over_features_witness :
  sparsity_loss [[[1 / 2; 1 / 2]]] (1 / 10000000)
  = - mean (map (fun c_mask =>
              mean (map (fun row => rsum (map (fun v => v * ln (v + 1 / 10000000)) row)) c_mask))
            [[[1 / 2; 1 / 2]]])
  /\ sparsity_loss [[[1 / 2; 1 / 2]]] (1 / 10000000)
     = INR 2 * sparsity_loss_mean_of_means [[[1 / 2; 1 / 2]]] (1 / 10000000).
Proof.
  apply (sparsity_loss_sums_over_features 2 [[[1 / 2; 1 / 2]]] (1 / 10000000));
    [lia | repeat constructor].
Defined.

#[local] Close Scope R_scope.

(* ===================================================================== *)
(** ** The training loop *)
(* ===================================================================== *)

Import Loop.

Section LoopFacts.

Context {W batch opt val es : Type}.
Variable opt_step : bool -> opt -> W -> batch -> opt * W.
Variable sched_step : opt -> opt.
Variable validate : val -> bool -> nat -> W -> crit.
Variable es_step : es -> crit -> es * bool.
Variable model : loc.
Variable tp : loop_params.
Variable self_supervised : bool.
Variable train_generator : nat -> list batch.

Abbreviation batch_step := (batch_step opt_step sched_step model tp self_supervised).
Abbreviation pure_step := (pure_step opt_step sched_step tp self_supervised).
Abbreviation pure_epochs := (pure_epochs opt_step sched_step tp self_supervised train_generator).
Abbreviation epoch := (epoch opt_step sched_step validate es_step model tp self_supervised train_generator).
Abbreviation run_epochs := (run_epochs opt_step sched_step validate es_step model tp self_supervised train_generator).
Abbreviation best_snapshot := (best_snapshot opt_step sched_step validate tp self_supervised train_generator).
Abbreviation live := (live model).

Abbreviation agrees := (agrees model).
Abbreviation tracks_live := (tracks_live model).

Implicit Types (s : @train_state W opt es) (a : opt * W * nat) (best : option W * crit).

Lemma batch_step_agrees s a b :
  agrees s a ->
  agrees (batch_step s b) (pure_step a b)
  /\ model_max_criteria (batch_step s b) = model_max_criteria s
  /\ model_max_state_dict (batch_step s b) = model_max_state_dict s
  /\ st_es (batch_step s b) = st_es s.
Proof.
  destruct a as [[o w] n]. intros (Hl & Ho & Hn). simpl in *.
  unfold Loop.batch_step, Loop.pure_step, Loop.live in *. rewrite Hl, Ho, Hn.
  destruct (opt_step self_supervised o w b) as [o1 w'].
  repeat split; simpl.
  apply list_lookup_insert_eq. by eapply lookup_lt_Some.
Qed.

Lemma batches_agree bs : forall s a,
  agrees s a ->
  agrees (fold_left batch_step bs s) (fold_left pure_step bs a)
  /\ model_max_criteria (fold_left batch_step bs s) = model_max_criteria s
  /\ model_max_state_dict (fold_left batch_step bs s) = model_max_state_dict s
  /\ st_es (fold_left batch_step bs s) = st_es s.
Proof.
  induction bs as [|b bs IH]; intros s a Ha; simpl; [done|].
  destruct (batch_step_agrees s a b Ha) as (Ha' & Hc & Hd & He).
  destruct (IH _ _ Ha') as (Ha'' & Hc' & Hd' & He').
  repeat split; try apply Ha''; congruence.
Qed.

Lemma save_model_agrees l s a :
  agrees s a ->
  agrees (save_model model self_supervised l s) a
  /\ model_max_criteria (save_model model self_supervised l s) = model_max_criteria s
  /\ model_max_state_dict (save_model model self_supervised l s) = model_max_state_dict s
  /\ st_es (save_model model self_supervised l s) = st_es s.
Proof.
  intros (Hl & Ho & Hn). unfold save_model, agrees, Loop.live in *. by rewrite Hl.
Qed.

Lemma load_live_is_identity (s : list W) w :
  s !! model = Some w -> load_state_dict model model s = s.
Proof. intros Hw. unfold load_state_dict. rewrite Hw. by apply list_insert_id. Qed.


Lemma track_best_spec c s a :
  agrees s a -> tracks_live s ->
  agrees (track_best model c s) a
  /\ tracks_live (track_best model c s)
  /\ model_max_criteria (track_best model c s)
     = (if is_running_min c (model_max_criteria s) then c else model_max_criteria s).
Proof.
  intros Ha Ht. unfold track_best.
  destruct (is_running_min c (model_max_criteria s)); [|done].
  repeat split; try apply Ha. right. done.
Qed.

Lemma restore_best_spec s a :
  agrees s a -> tracks_live s ->
  agrees (restore_best model s) a
  /\ tracks_live (restore_best model s)
  /\ model_max_criteria (restore_best model s) = model_max_criteria s.
Proof.
  intros Ha Ht. unfold restore_best.
  destruct Ht as [Ht|Ht]; rewrite Ht; [by split; [|split; [left|]]|].
  destruct Ha as (Hl & Ho & Hn). unfold agrees, tracks_live, Loop.live in *. simpl.
  rewrite (load_live_is_identity _ _ Hl). auto.
Qed.

(** One epoch, against the optimizer run and the specification's tracking. *)
Lemma epoch_spec vg s a best c s' stop :
  agrees s a -> tracks_live s -> model_max_criteria s = snd best ->
  epoch vg s c = (s', stop) ->
  agrees s' (fold_left pure_step (train_generator c) a)
  /\ tracks_live s'
  /\ (stop = true -> early_stopping tp = true /\ vg <> None)
  /\ match vg with
     | None => model_max_criteria s' = snd best
     | Some v =>
         model_max_criteria s'
         = snd (best_snapshot v a best [c])
     end.
Proof.
  intros Ha Ht Hb. unfold Loop.epoch.
  destruct (batches_agree (train_generator c) s a Ha) as (Ha1 & Hc1 & Hd1 & _).
  set (s1 := fold_left batch_step (train_generator c) s) in *.
  set (a1 := fold_left pure_step (train_generator c) a) in *.
  assert (tracks_live s1) as Ht1 by (unfold tracks_live in *; by rewrite Hd1).
  set (s2 := if (0 <? c)%nat && (c mod Pos.to_nat (epoch_save_frequency tp) =? 0)%nat
             then save_model model self_supervised (SaveEpoch c) s1 else s1).
  assert (agrees s2 a1 /\ tracks_live s2 /\ model_max_criteria s2 = snd best)
    as (Ha2 & Ht2 & Hc2).
  { subst s2. destruct (_ && _).
    - destruct (save_model_agrees (SaveEpoch c) s1 a1 Ha1) as (? & Hc & Hd & _).
      unfold tracks_live in *. rewrite Hc, Hd. split; [done|]. split; [done | congruence].
    - split; [done|]. split; [done | congruence]. }
  clearbody s2. destruct vg as [v|].
  2: { intros [= <- <-]. repeat split; try apply Ha2; done. }
  destruct Ha2 as (Hl2 & Ho2 & Hn2). unfold Loop.live in Hl2. rewrite Hl2.
  assert (agrees s2 a1) as Ha2 by done.
  destruct (track_best_spec (validate v self_supervised c (snd (fst a1))) s2 a1 Ha2 Ht2)
    as (Ha3 & Ht3 & Hc3).
  set (s3 := track_best model _ s2) in *.
  assert (model_max_criteria s3 = snd (best_snapshot v a best [c])) as Hres.
  { rewrite Hc3, Hc2. simpl. fold a1. by destruct (is_running_min _ (snd best)). }
  destruct (early_stopping tp) eqn:Hes.
  - destruct (es_step (st_es s3) _) as [e [|]]; intros [= <- <-].
    + assert (agrees (set_es e s3) a1) as Ha4 by done.
      assert (tracks_live (set_es e s3)) as Ht4 by done.
      destruct (restore_best_spec _ _ Ha4 Ht4) as (Ha5 & Ht5 & Hc5).
      repeat split; try apply Ha5; try done. by rewrite Hc5.
    + repeat split; try apply Ha3; done.
  - intros [= <- <-]. repeat split; try apply Ha3; done.
Qed.

Lemma pure_epochs_cons a c cs :
  pure_epochs a (c :: cs) = pure_epochs (fold_left pure_step (train_generator c) a) cs.
Proof. done. Qed.

Lemma best_snapshot_cons v a best c cs :
  best_snapshot v a best (c :: cs)
  = best_snapshot v (fold_left pure_step (train_generator c) a) (best_snapshot v a best [c]) cs.
Proof. done. Qed.

(** The loop: the epochs that ran are a prefix of the budget; the whole of
    it unless an epoch ended in [break]. *)
Lemma run_epochs_spec vg cs : forall s a best,
  agrees s a -> tracks_live s -> model_max_criteria s = snd best ->
  exists m,
    (m <= length cs)%nat
    /\ match snd (run_epochs vg s cs) with
       | None => m = length cs
       | Some k => (0 < m)%nat /\ cs !! (m - 1)%nat = Some k
                   /\ early_stopping tp = true /\ vg <> None
       end
    /\ agrees (fst (run_epochs vg s cs)) (pure_epochs a (take m cs))
    /\ tracks_live (fst (run_epochs vg s cs))
    /\ match vg with
       | None => model_max_criteria (fst (run_epochs vg s cs)) = snd best
       | Some v =>
           model_max_criteria (fst (run_epochs vg s cs))
           = snd (best_snapshot v a best (take m cs))
       end.
Proof.
  induction cs as [|c cs IH]; intros s a best Ha Ht Hb.
  - exists 0%nat. simpl. repeat split; try apply Ha; try done. by destruct vg.
  - cbn [Loop.run_epochs].
    destruct (epoch vg s c) as [s' stop] eqn:He.
    destruct (epoch_spec vg s a best c s' stop Ha Ht Hb He) as (Ha' & Ht' & Hstop & Hc').
    destruct stop.
    + exists 1%nat. simpl. destruct (Hstop eq_refl) as [? ?].
      repeat split; try apply Ha'; try done; try lia.
    + set (best' := match vg with
                    | Some v => best_snapshot v a best [c]
                    | None => best
                    end).
      destruct (IH s' (fold_left pure_step (train_generator c) a) best' Ha' Ht')
        as (m & Hm & Hk & Ha'' & Ht'' & Hc'').
      { subst best'. by destruct vg. }
      exists (S m). simpl. split; [lia|]. split.
      { destruct (snd (run_epochs vg s' cs)); [|lia].
        destruct Hk as (Hm0 & Hl & ?). split; [lia|]. split; [|done].
        rewrite Nat.sub_0_r. destruct m; [lia|]. simpl in *.
        by rewrite Nat.sub_0_r in Hl. }
      split; [done|]. split; [done|].
      subst best'. destruct vg; [|done]. done.
Qed.


Lemma seq_prefix_stop e m k :
  (0 < m)%nat -> (m <= e)%nat -> seq 0 e !! (m - 1)%nat = Some k ->
  m = S k /\ (k < e)%nat /\ take m (seq 0 e) = seq 0 (S k).
Proof.
  intros Hm He Hk. apply lookup_seq in Hk as [-> Hlt].
  split; [lia|]. split; [lia|].
  rewrite take_seq. f_equal. lia.
Qed.

Variable new_opt : opt.
Variable new_es : es.
Variable val_generator : option val.
Variable epochs step_offset : nat.
Variable store : list W.
Variable saved : list (bool * save_label * W).

Abbreviation the_train :=
  (train opt_step sched_step validate es_step model tp new_opt new_es train_generator
     val_generator epochs self_supervised step_offset store saved).
Abbreviation the_stop :=
  (stopped_early opt_step sched_step validate es_step model tp new_opt new_es
     train_generator val_generator epochs self_supervised step_offset store saved).

(** What the whole of [__train] leaves behind. *)
Lemma train_spec w0 :
  store !! model = Some w0 ->
  exists ran,
    match the_stop with
    | None => ran = epochs
    | Some k => ran = S k /\ (k < epochs)%nat
                /\ early_stopping tp = true /\ val_generator <> None
    end
    /\ agrees the_train (pure_epochs (new_opt, w0, step_offset) (seq 0 ran))
    /\ match val_generator with
       | None => model_max_criteria the_train = NaN
       | Some v =>
           model_max_criteria the_train
           = snd (best_snapshot v (new_opt, w0, step_offset) (None, NaN) (seq 0 ran))
       end.
Proof.
  intros Hw. unfold train, stopped_early, phase_loop.
  set (s0 := init_state new_opt new_es step_offset store saved).
  destruct (run_epochs_spec val_generator (seq 0 epochs) s0
              (new_opt, w0, step_offset) (None, NaN))
    as (m & Hm & Hk & Ha & _ & Hc); [done | by left | done |].
  rewrite length_seq in Hm, Hk.
  set (R := run_epochs val_generator s0 (seq 0 epochs)) in *.
  destruct (save_model_agrees SaveFinal (fst R) _ Ha) as (Ha' & Hc' & _).
  rewrite Hc'.
  destruct (snd R) as [k|].
  - destruct Hk as (Hm0 & Hl & Hes & Hvg).
    destruct (seq_prefix_stop _ _ _ Hm0 Hm Hl) as (-> & Hlt & Htake).
    rewrite Htake in *. exists (S k). done.
  - subst m. rewrite firstn_all2 in * by (rewrite length_seq; lia).
    exists epochs. done.
Qed.


(** C2 (amended): when the epoch loop of a phase runs out of its budget,
    nothing is restored: the live weights are those the last optimizer step
    left.  The loop tracks, as [model_max_criteria], the criterion of the
    specification's best-model snapshot.  Early stopping fires only when it
    is enabled and a validation stream is there; when it fires, at some
    epoch [k] of the budget, the loop ends with that epoch: the step
    counter is that of the epochs up to [k]. *)
Theorem phase_end_keeps_last_weights w0 :
  store !! model = Some w0 ->
  match the_stop with
  | None =>
      live the_train
      = Some (snd (fst (pure_epochs (new_opt, w0, step_offset) (seq 0 epochs))))
      /\ st_step the_train = snd (pure_epochs (new_opt, w0, step_offset) (seq 0 epochs))
      /\ forall v, val_generator = Some v ->
           model_max_criteria the_train
           = snd (best_snapshot v (new_opt, w0, step_offset) (None, NaN) (seq 0 epochs))
  | Some k =>
      (k < epochs)%nat /\ early_stopping tp = true /\ val_generator <> None
      /\ st_step the_train = snd (pure_epochs (new_opt, w0, step_offset) (seq 0 (S k)))
      /\ forall v, val_generator = Some v ->
           model_max_criteria the_train
           = snd (best_snapshot v (new_opt, w0, step_offset) (None, NaN) (seq 0 (S k)))
  end.
Proof.
  intros Hw. destruct (train_spec w0 Hw) as (ran & Hran & (Hl & _ & Hn) & Hc).
  destruct the_stop as [k|].
  - destruct Hran as (-> & Hk & Hes & Hvg). repeat split; try done.
    intros v ->. done.
  - subst ran. repeat split; try done. intros v ->. done.
Qed.

(** Early stopping: [load_state_dict] receives the live tensors themselves,
    so the weights after the restore are those the last optimizer step of
    the stopping epoch left. *)
Theorem early_stop_reloads_live_weights w0 k :
  store !! model = Some w0 ->
  the_stop = Some k ->
  live the_train = Some (snd (fst (pure_epochs (new_opt, w0, step_offset) (seq 0 (S k))))).
Proof.
  intros Hw Hk. destruct (train_spec w0 Hw) as (ran & Hran & (Hl & _) & _).
  rewrite Hk in Hran. destruct Hran as (-> & _). done.
Qed.

End LoopFacts.

(** C2 (as worded): two epochs without early stopping, the first one the
    better.  At the end of the loop the live weight is 2, the weight of the
    last epoch; the best-model snapshot is 1. *)
Lemma loop_end_is_not_best_snapshot :
  stopped_early add_step (fun o => o) weight_as_loss tracker_step 0%nat
    (demo_params false) tt fresh_tracker one_batch_of_one (Some tt) 2 false 0 [0%Z] []
  = None
  /\ live 0 (demo_train false 2) = Some 2%Z
  /\ demo_best_snapshot 2 = Some 1%Z
  /\ live 0 (demo_train false 2) <> demo_best_snapshot 2.
Proof. repeat split; try reflexivity. vm_compute. discriminate. Qed.

(** The loop theorem on the two-epoch run without early stopping. *)
Lemma phase_end_keeps_last_weights_witness :
  live 0 (demo_train false 2) = Some 2%Z
  /\ st_step (demo_train false 2) = 2%nat
  /\ forall v, Some tt = Some v -> model_max_criteria (demo_train false 2) = Fin 1.
Proof.
  exact (phase_end_keeps_last_weights add_step (fun o => o) weight_as_loss tracker_step
           0%nat (demo_params false) false one_batch_of_one tt fresh_tracker (Some tt)
           2 0 [0%Z] [] 0%Z eq_refl).
Defined.

(** The early-stopping theorem on the run that stops at its second
    epoch: the live weight is 2, not the snapshot's 1. *)
Lemma early_stop_reloads_live_weights_witness :
  live 0 (demo_train true 5) = Some 2%Z.
Proof.
  exact (early_stop_reloads_live_weights add_step (fun o => o) weight_as_loss tracker_step
           0%nat (demo_params true) false one_batch_of_one tt fresh_tracker (Some tt)
           5 0 [0%Z] [] 0%Z 1%nat eq_refl eq_refl).
Defined.

(* ===================================================================== *)
(** ** The public facade *)
(* ===================================================================== *)

Import Facade.
#[local] Open Scope string_scope.

Section DictFacts.

Context {V : Type}.
Implicit Types (d : list (key * V)) (k : key) (v : V).

Lemma dict_get_set d k v k' :
  dict_get (dict_set d k v) k' = if decide (k = k') then Some v else dict_get d k'.
Proof.
  induction d as [|[k0 v0] d IH]; simpl.
  - repeat case_decide; congruence.
  - destruct (decide (k0 = k)) as [->|Hne]; simpl; repeat case_decide; congruence.
Qed.

Lemma dict_set_keys d k v k' :
  k' ∈ map fst (dict_set d k v) <-> k' = k \/ k' ∈ map fst d.
Proof.
  induction d as [|[k0 v0] d IH]; simpl.
  - rewrite list_elem_of_singleton, elem_of_nil. tauto.
  - case_decide; simpl; rewrite !elem_of_cons; [|rewrite IH]; subst; tauto.
Qed.

Lemma dict_set_NoDup d k v : NoDup (map fst d) -> NoDup (map fst (dict_set d k v)).
Proof.
  induction d as [|[k0 v0] d IH]; simpl; intros Hnd.
  - apply NoDup_singleton.
  - apply NoDup_cons in Hnd as [Hk0 Hnd]. case_decide; simpl.
    + subst. by apply NoDup_cons.
    + apply NoDup_cons. split; [|by apply IH].
      rewrite dict_set_keys. intros [->|?]; done.
Qed.

Lemma dict_set_elem d k v k' v' :
  (k', v') ∈ dict_set d k v -> (k' = k /\ v' = v) \/ (k', v') ∈ d.
Proof.
  induction d as [|[k0 v0] d IH]; simpl.
  - rewrite list_elem_of_singleton. intros [= -> ->]. by left.
  - case_decide; rewrite !elem_of_cons.
    + intros [[= -> ->]|Hin]; [by left | by right; right].
    + intros [Heq|Hin]; [by right; left|].
      destruct (IH Hin); [by left | by right; right].
Qed.

(** What [dict(zip(ks, vs))] holds comes from the zipped pairs. *)
Lemma dict_of_pairs_get (Q : key -> V -> Prop) (pairs : list (key * V)) : forall d,
  Forall (fun kv => Q (fst kv) (snd kv)) pairs ->
  (forall k v, dict_get d k = Some v -> Q k v) ->
  forall k v,
    dict_get (fold_left (fun d kv => dict_set d (fst kv) (snd kv)) pairs d) k = Some v ->
    Q k v.
Proof.
  induction pairs as [|[k0 v0] pairs IH]; intros d Hp Hd k v; simpl; [by apply Hd|].
  apply Forall_cons in Hp as [H0 Hp]. apply IH; [done|].
  intros k' v'. rewrite dict_get_set. case_decide; [|by apply Hd].
  intros [= <-]. by subst.
Qed.

End DictFacts.

Lemma combine_seq_lookup {A} (ks : list A) j n :
  Forall (fun kv => (j <= snd kv)%nat /\ ks !! (snd kv - j)%nat = Some (fst kv)
                    /\ (snd kv < j + n)%nat)
         (combine ks (seq j n)).
Proof.
  revert j n. induction ks as [|k ks IH]; intros j [|n]; simpl; try constructor.
  - simpl. rewrite Nat.sub_diag. split; [lia|]. split; [done | lia].
  - eapply Forall_impl; [apply (IH (S j) n)|]. intros [k' i] (Hle & Hl & Hlt). simpl in *.
    split; [lia|]. split; [|lia].
    replace (i - j)%nat with (S (i - S j)) by lia. done.
Qed.

(** [data_columns] maps a label to a position that carries it. *)
Lemma data_columns_position X_train n k i :
  dict_get (data_columns_of X_train n) k = Some i ->
  (i < n)%nat
  /\ forall k', dict_get (data_columns_of X_train n) k' = Some i -> k' = k.
Proof.
  assert (forall ks : list key,
            forall k i, dict_get (dict_of_zip ks (seq 0 n)) k = Some i ->
                        ks !! i = Some k /\ (i < n)%nat) as Hzip.
  { intros ks k0 i0. unfold dict_of_zip.
    apply (dict_of_pairs_get (fun k i => ks !! i = Some k /\ (i < n)%nat)); [|done].
    eapply Forall_impl; [apply (combine_seq_lookup ks 0 n)|].
    intros [k' i']; simpl. rewrite Nat.sub_0_r. intros (_ & ? & ?). done. }
  intros Hk.
  assert (exists ks, data_columns_of X_train n = dict_of_zip ks (seq 0 n)) as [ks Hks].
  { unfold data_columns_of. destruct X_train; eauto. }
  rewrite Hks in *. destruct (Hzip _ _ _ Hk) as [Hpos Hlt]. split; [done|].
  intros k' Hk'. destruct (Hzip _ _ _ Hk') as [Hpos' _]. congruence.
Qed.

Section ConfigFacts.

Variable generate_categorical_to_ordinal_map : container -> list (key * pyval).
Variable X_train : container.
Variable data_columns : list (key * nat).

Abbreviation fitted_entry := (fitted_entry data_columns).
Abbreviation fitted_config := (fitted_config data_columns).

Lemma build_config_fitted cols : forall acc c,
  build_config generate_categorical_to_ordinal_map X_train data_columns cols acc = inr c ->
  fitted_config acc -> fitted_config c.
Proof.
  induction cols as [|col cols IH]; intros acc c; simpl.
  - by intros [= <-].
  - destruct (as_key col) as [|k]; [done|]. cbn [bind].
    destruct (getitem X_train k) as [|column]; [done|]. cbn [bind].
    destruct (dict_get data_columns k) as [i|] eqn:Hi; [|done].
    intros Hb [Hnd Hall]. apply (IH _ _ Hb). split; [by apply dict_set_NoDup|].
    apply Forall_forall. intros [k' v'] Hin.
    apply dict_set_elem in Hin as [[-> ->]|Hin].
    + simpl. by eexists _, _, _.
    + rewrite Forall_forall in Hall. by apply (Hall (k', v')).
Qed.

Lemma as_nat_of_nat i : as_nat (PInt (Z.of_nat i)) = Some i.
Proof.
  unfold as_nat. rewrite (proj2 (Z.leb_le 0 _)) by lia. by rewrite Nat2Z.id.
Qed.

(** Such a configuration reads back, entry by entry, with the positions
    that [data_columns] gives. *)
Lemma config_view_fitted c :
  Forall (fun kv => fitted_entry (fst kv) (snd kv)) c ->
  exists es,
    config_view c = Some es
    /\ map fst es = map fst c
    /\ Forall2 (fun kv e => dict_get data_columns (fst kv) = Some (Masking.idx (snd e))) c es.
Proof.
  induction 1 as [|[k v] c Hent Hall (es & Hes & Hkeys & Hidx)].
  - exists []. by repeat split.
  - destruct Hent as (cast_map & i & ident & Hv & Hi). simpl in Hv, Hi. subst v.
    eexists (_ :: es). cbn [config_view]. unfold entry_view. simpl.
    rewrite !(proj2 (Z.leb_le 0 _)) by lia. rewrite !Nat2Z.id. simpl.
    rewrite Hes. simpl. repeat split.
    + by rewrite Hkeys.
    + by constructor.
Qed.

End ConfigFacts.

Section FitEstablishes.

Variable generate_categorical_to_ordinal_map : container -> list (key * pyval).
Variable n_output_dims : container -> pyval -> pyval.

Abbreviation configure := (configure generate_categorical_to_ordinal_map n_output_dims).

Lemma configure_gives_mask_params mp tp X_train y_train X_val y_val cols e mp' m' r :
  mp !! "categorical_variables" = Some (PList cols) ->
  mp !! "categorical_config" = Some (PDict []) ->
  mp !! "embedding_dim" = Some (PInt e) -> (0 <= e)%Z ->
  configure mp None tp X_train y_train X_val y_val = (mp', Some m', r) ->
  built_from m' = mp'
  /\ exists v,
       mask_view mp' = Some v
       /\ Masking.config_in_range v
       /\ mp' !! "n_input_dims" = Some (PInt (Masking.n_input_dims v)).
Proof.
  intros Hcv Hcc Hed He. unfold Facade.configure, item.
  destruct (mp !! "discrete_outputs") as [flag|]; [|done]. cbn [bind].
  set (mp1 := if truthy flag then _ else mp).
  assert (mp1 !! "categorical_variables" = Some (PList cols)
          /\ mp1 !! "categorical_config" = Some (PDict [])
          /\ mp1 !! "embedding_dim" = Some (PInt e)) as (Hcv1 & Hcc1 & Hed1).
  { subst mp1. destruct (truthy flag); rewrite ?lookup_insert_ne by done; done. }
  clearbody mp1. clear Hcv Hcc Hed.
  destruct (_ || _); [done|].
  destruct (shape1 X_train) as [|n] eqn:Hn; [done|]. cbn [bind].
  destruct (if is_none X_val then _ else _) as [|[]]; [done|]. cbn [bind].
  rewrite Hcv1. cbn [bind len].
  set (data_columns := data_columns_of X_train n).
  destruct (if (0 <? length cols)%nat then _ else _) as [|new_config] eqn:Hnew; [done|].
  set (mp2 := match new_config with
              | Some config_dict => <["categorical_config" := PDict config_dict]> mp1
              | None => mp1
              end).
  assert (exists c, fitted_config data_columns c
                    /\ mp2 !! "categorical_config" = Some (PDict c)
                    /\ mp2 !! "embedding_dim" = Some (PInt e)) as (c & Hfit & Hcc2 & Hed2).
  { subst mp2. destruct (0 <? length cols)%nat.
    - destruct (build_config _ _ _ cols []) as [|c] eqn:Hb; [done|].
      cbn [bind] in Hnew. injection Hnew as <-. exists c.
      split; [|split; [by rewrite lookup_insert_eq | by rewrite lookup_insert_ne]].
      apply (build_config_fitted _ _ _ _ _ _ Hb). split; constructor.
    - injection Hnew as <-. exists []. split; [|done]. split; constructor. }
  clearbody mp2. rewrite Hcc2, Hed2. cbn [bind len as_int].
  destruct (mp2 !! "discrete_target_mapping") as [dtm|]; [|done]. cbn [bind].
  intros [= <- <- _]. split; [done|].
  destruct Hfit as [Hnd Hall].
  destruct (config_view_fitted data_columns c Hall) as (es & Hes & Hkeys & Hidx).
  exists {| Masking.n_original_input_dims := n;
            Masking.categorical_config := es;
            Masking.embedding_dim := Z.to_nat e |}.
  split; [|split].
  - unfold mask_view.
    rewrite !lookup_insert_ne by done. rewrite lookup_insert_eq, Hcc2, Hed2.
    cbn [mbind option_bind]. rewrite as_nat_of_nat. cbn [mbind option_bind].
    unfold as_nat. rewrite (proj2 (Z.leb_le 0 e)) by done. cbn [mbind option_bind].
    by rewrite Hes.
  - unfold Masking.config_in_range, Masking.idx_list. simpl.
    assert (Forall2 (fun k i => dict_get data_columns k = Some i)
              (map fst c) (map (fun kv => Masking.idx (snd kv)) es)) as Hpos.
    { clear -Hidx. induction Hidx; simpl; constructor; done. }
    clear Hidx Hes Hkeys Hall. revert Hnd Hpos.
    generalize (map fst c) as ks. generalize (map (fun kv => Masking.idx (snd kv)) es) as ixs.
    intros ixs ks Hnd Hpos. induction Hpos as [|k i ks ixs Hki Hpos IH].
    { split; constructor. }
    apply NoDup_cons in Hnd as [Hk Hnd]. destruct (IH Hnd) as [Hnd' Hlt].
    destruct (data_columns_position _ _ _ _ Hki) as [Hi Hinj]. split.
    + constructor; [|done]. intros Hin.
      apply list_elem_of_lookup in Hin as [j Hj].
      destruct (Forall2_lookup_r _ _ _ _ _ Hpos Hj) as (k' & Hk' & Hget).
      apply Hinj in Hget. subst k'. apply Hk. eapply list_elem_of_lookup_2, Hk'.
    + by constructor.
  - rewrite !lookup_insert_ne by done. rewrite lookup_insert_eq.
    unfold Masking.n_input_dims. simpl. do 3 f_equal.
    apply (f_equal length) in Hkeys. rewrite !length_map in Hkeys.
    by rewrite Hkeys, Z2Nat.id.
Qed.

End FitEstablishes.

Section FacadeFacts.

Variable generate_categorical_to_ordinal_map : container -> list (key * pyval).
Variable n_output_dims : container -> pyval -> pyval.

Abbreviation fit := (fit generate_categorical_to_ordinal_map n_output_dims).
Abbreviation configure := (configure generate_categorical_to_ordinal_map n_output_dims).

(** The literal defaults carry the flag that line 420 reads, whatever the
    overrides. *)
Lemma overridden_defaults_have_flag (overrides : dict) :
  exists v, (overrides ∪ default_model_params) !! "discrete_outputs" = Some v.
Proof.
  destruct (overrides !! "discrete_outputs") as [v|] eqn:Hv.
  - exists v. by apply lookup_union_Some_l.
  - exists (PBool false). rewrite lookup_union_r by done. reflexivity.
Qed.

(** Line 425 sits before every use of the validation set: with a training
    set that is something and a validation set that is nothing, it
    raises. *)
Lemma configure_without_validation mp m tp X_train y_train :
  (m = None -> exists v, mp !! "discrete_outputs" = Some v) ->
  type_of X_train <> TNoneType ->
  snd (configure mp m tp X_train y_train CNone CNone)
  = inl (ValueError "Training and validation datasets should have same type").
Proof.
  intros Hv Hx. unfold Facade.configure, item.
  assert (bool_decide (type_of X_train <> type_of CNone) = true) as Hne
    by (by apply bool_decide_eq_true_2).
  destruct m as [x|]; cbn [bind]; [by rewrite Hne|].
  destruct (Hv eq_refl) as [v ->]. cbn [bind].
  destruct (truthy v); by rewrite Hne.
Qed.

Lemma fit_raises_without_validation overrides c_model_save X_train y_train (tp sp : dict) :
  type_of X_train <> TNoneType ->
  snd (fit (init class_store overrides c_model_save) X_train y_train CNone CNone tp sp)
  = inl (ValueError "Training and validation datasets should have same type").
Proof.
  intros Hx. unfold Facade.fit.
  destruct c_model_save as [[lp lm]|]; simpl.
  - pose proof (configure_without_validation lp (Some lm) (tp ∪ default_train_params)
                  X_train y_train) as H.
    destruct (configure _ _ _ _ _ _ _) as [[mp' m'] r]. simpl in *. by apply H.
  - pose proof (configure_without_validation (overrides ∪ default_model_params) None
                  (tp ∪ default_train_params) X_train y_train) as H.
    destruct (configure _ _ _ _ _ _ _) as [[mp' m'] r]. simpl in *. apply H; [|done].
    intros _. apply overridden_defaults_have_flag.
Qed.

(** Once a model is there, [fit] leaves the model alone, and of the model
    parameters it can only touch [categorical_config]. *)
Lemma configure_with_model mp x tp X_train y_train X_val y_val :
  snd (fst (configure mp (Some x) tp X_train y_train X_val y_val)) = Some x
  /\ forall k, k <> "categorical_config" ->
       fst (fst (configure mp (Some x) tp X_train y_train X_val y_val)) !! k = mp !! k.
Proof.
  unfold Facade.configure.
  repeat case_match; simplify_eq; (split; [done|]); intros k Hk; simpl;
    rewrite ?lookup_insert_ne by done; done.
Qed.

(** The two updates that open [fit] act on the class-level dictionaries. *)
Lemma fit_updates_class_defaults overrides c_model_save
    X_train y_train X_val y_val (tp sp : dict) :
  fst (fst (fit (init class_store overrides c_model_save)
              X_train y_train X_val y_val tp sp)) !! TRAIN_DEFAULTS
  = Some (tp ∪ default_train_params)
  /\ fst (fst (fit (init class_store overrides c_model_save)
                 X_train y_train X_val y_val tp sp)) !! SAVE_DEFAULTS
     = Some (sp ∪ default_save_params).
Proof.
  unfold Facade.fit. destruct c_model_save as [[lp lm]|]; simpl;
    destruct (configure _ _ _ _ _ _ _) as [[mp' m'] r]; simpl; done.
Qed.

(** A second instance, built after the first one was fitted, holds the
    very dictionary the first one holds. *)
Lemma second_instance_shares_params overrides
    X_train y_train X_val y_val (tp sp : dict) :
  params_of (init (fst (fst (fit (init class_store overrides None)
                               X_train y_train X_val y_val tp sp))) ∅ None)
  = params_of (fst (fit (init class_store overrides None)
                      X_train y_train X_val y_val tp sp)).
Proof.
  unfold Facade.fit. simpl.
  destruct (configure _ _ _ _ _ _ _) as [[mp' m'] r]. simpl.
  unfold params_of. simpl. by rewrite (left_id_L ∅ (∪)).
Qed.

(** The overrides of an earlier [fit] are still there when a later
    instance is fitted with none. *)
Lemma later_fit_reads_earlier_overrides overrides overrides'
    X_train y_train X_val y_val X_train' y_train' X_val' y_val' (tp sp : dict) :
  fst (fst (fit (init (fst (fst (fit (init class_store overrides None)
                                   X_train y_train X_val y_val tp sp)))
                   overrides' None)
              X_train' y_train' X_val' y_val' ∅ ∅)) !! TRAIN_DEFAULTS
  = Some (tp ∪ default_train_params).
Proof.
  unfold Facade.fit. simpl.
  destruct (configure _ _ _ _ _ _ _) as [[mp' m'] r]. simpl.
  destruct (configure _ _ _ _ _ _ _) as [[mp'' m''] r']. simpl.
  by rewrite (left_id_L ∅ (∪)).
Qed.

End FacadeFacts.

(** C1: omitting the validation set is refused.  For an instance built
    either way, a training set that is a table or a 2-D array, and any
    targets and overrides, [fit] with [X_val = None] and [y_val = None]
    raises the "same type" configuration error of line 426 instead of going
    on to train. *)
Theorem fit_without_validation_raises
    (generate_categorical_to_ordinal_map : container -> list (key * pyval))
    (n_output_dims : container -> pyval -> pyval)
    (overrides : dict) (c_model_save : option (dict * tabnet_model))
    (columns : list key) (n_cols : nat) (rows : list (list pyval))
    (y_train : container) (train_params_arg save_params_arg : dict) :
  snd (fit generate_categorical_to_ordinal_map n_output_dims
         (init class_store overrides c_model_save)
         (CDataFrame columns rows) y_train CNone CNone train_params_arg save_params_arg)
  = inl (ValueError "Training and validation datasets should have same type")
  /\ snd (fit generate_categorical_to_ordinal_map n_output_dims
            (init class_store overrides c_model_save)
            (CNdarray2 n_cols rows) y_train CNone CNone train_params_arg save_params_arg)
     = inl (ValueError "Training and validation datasets should have same type").
Proof. split; by apply fit_raises_without_validation. Qed.

(** C5: a later [fit] rewrites the categorical encoding maps.  Whatever
    the map generator, the first fit builds the model with the map of
    column ["c"] taken from the first table (values a, b); the second fit,
    on other data (values b, z), keeps that model and the target mapping
    but leaves in [categorical_config] the map taken from the second table.
    With the ordinal numbering the map goes from a -> 0, b -> 1 to
    b -> 0, z -> 1. *)
Theorem refit_overwrites_categorical_config :
  (forall g n,
     snd (first_fit_with g n) = inr [false]
     /\ snd (second_fit_with g n) = inr [false]
     /\ model (snd (fst (first_fit_with g n))) <> None
     /\ model (snd (fst (second_fit_with g n))) = model (snd (fst (first_fit_with g n)))
     /\ param (fst (first_fit_with g n)) "categorical_config"
        = Some (PDict [ (KStr "c",
                         config_entry (g (CSeries [PStr "a"; PStr "b"])) 0 (PStr "c")) ])
     /\ param (fst (second_fit_with g n)) "categorical_config"
        = Some (PDict [ (KStr "c",
                         config_entry (g (CSeries [PStr "b"; PStr "z"])) 0 (PStr "c")) ])
     /\ built_param (fst (second_fit_with g n)) "categorical_config"
        = Some (PDict [ (KStr "c",
                         config_entry (g (CSeries [PStr "a"; PStr "b"])) 0 (PStr "c")) ])
     /\ param (fst (second_fit_with g n)) "discrete_target_mapping"
        = param (fst (first_fit_with g n)) "discrete_target_mapping")
  /\ ordinal_map (CSeries [PStr "a"; PStr "b"]) = [(KStr "a", PInt 0); (KStr "b", PInt 1)]
  /\ ordinal_map (CSeries [PStr "b"; PStr "z"]) = [(KStr "b", PInt 0); (KStr "z", PInt 1)]
  /\ param (fst second_fit) "categorical_config" <> param (fst first_fit) "categorical_config".
Proof.
  split; [|split; [|split]].
  - intros g n. repeat split; try (vm_compute; reflexivity). vm_compute. discriminate.
  - reflexivity.
  - reflexivity.
  - vm_compute. discriminate.
Qed.

(** C6: the class-level dictionaries are shared and mutated in place.
    Building an instance with overrides writes them into the class-level
    model defaults, and a later instance reads them back; [fit] writes its
    overrides into the class-level training and saving defaults, where a
    later [fit] of another instance finds them; and an instance built after
    a first one was fitted holds the very dictionary of the first, with the
    values the fit derived (here the categorical configuration and the
    input width 3, which the literal defaults do not have). *)
Theorem class_defaults_are_shared :
  (forall overrides : dict,
     fst (init class_store overrides None) !! MODEL_DEFAULTS
     = Some (overrides ∪ default_model_params)
     /\ params_of (init (fst (init class_store overrides None)) ∅ None)
        = Some (overrides ∪ default_model_params))
  /\ (forall g n overrides c_model_save X_train y_train X_val y_val (tp sp : dict),
        fst (fst (fit g n (init class_store overrides c_model_save)
                    X_train y_train X_val y_val tp sp)) !! TRAIN_DEFAULTS
        = Some (tp ∪ default_train_params)
        /\ fst (fst (fit g n (init class_store overrides c_model_save)
                       X_train y_train X_val y_val tp sp)) !! SAVE_DEFAULTS
           = Some (sp ∪ default_save_params))
  /\ (forall g n overrides overrides' X_train y_train X_val y_val
             X_train' y_train' X_val' y_val' (tp sp : dict),
        fst (fst (fit g n
                    (init (fst (fst (fit g n (init class_store overrides None)
                                       X_train y_train X_val y_val tp sp)))
                       overrides' None)
                    X_train' y_train' X_val' y_val' ∅ ∅)) !! TRAIN_DEFAULTS
        = Some (tp ∪ default_train_params))
  /\ (forall g n overrides X_train y_train X_val y_val (tp sp : dict),
        params_of (init (fst (fst (fit g n (init class_store overrides None)
                                     X_train y_train X_val y_val tp sp))) ∅ None)
        = params_of (fst (fit g n (init class_store overrides None)
                            X_train y_train X_val y_val tp sp)))
  /\ param second_instance "categorical_variables" = Some (PList [PStr "c"])
  /\ param second_instance "n_input_dims" = Some (PInt 3)
  /\ param second_instance "categorical_config" = param (fst first_fit) "categorical_config"
  /\ default_model_params !! "n_input_dims" = None
  /\ default_model_params !! "categorical_variables" = Some (PList []).
Proof.
  split; [|split; [|split; [|split]]].
  - intros overrides. split; [done|].
    unfold params_of. simpl. by rewrite (left_id_L ∅ (∪)).
  - intros. apply fit_updates_class_defaults.
  - intros. apply later_fit_reads_earlier_overrides.
  - intros. apply second_instance_shares_params.
  - repeat split; vm_compute; reflexivity.
Qed.

(** After a first [fit] that builds the model, on an instance whose
    categorical configuration was still the literal default, the mask for
    [p = 0] has [n] rows of ones, as wide as the [n_input_dims] the model
    was built with. *)
Theorem fitted_mask_has_model_width
    (generate_categorical_to_ordinal_map : container -> list (key * pyval))
    (n_output_dims : container -> pyval -> pyval)
    (mp tp : dict) (X_train y_train X_val y_val : container)
    (cols : list pyval) (e : Z) (mp' : dict) (m' : tabnet_model) (r : exn + list bool)
    (n : nat) (u : Masking.rng) :
  mp !! "categorical_variables" = Some (PList cols) ->
  mp !! "categorical_config" = Some (PDict []) ->
  mp !! "embedding_dim" = Some (PInt e) -> (0 <= e)%Z ->
  configure generate_categorical_to_ordinal_map n_output_dims mp None tp
    X_train y_train X_val y_val = (mp', Some m', r) ->
  exists out w,
    generate_mask mp' 0 n u = Some out
    /\ built_from m' !! "n_input_dims" = Some (PInt w)
    /\ length out = n
    /\ Forall (fun row => Z.of_nat (length row) = w /\ Forall (fun v => v = 1%Q) row) out.
Proof.
  intros Hcv Hcc Hed He Hfit.
  destruct (configure_gives_mask_params _ _ _ _ _ _ _ _ _ _ _ _ _ Hcv Hcc Hed He Hfit)
    as (-> & v & Hview & Hrange & Hwidth).
  destruct (all_ones_of_expanded_width v n u) as (out & Hout & Hlen & Hrows).
  exists out, (Masking.n_input_dims v). unfold generate_mask. rewrite Hview.
  repeat split; try done.
  eapply Forall_impl; [exact Hrows|]. intros row [Hw Hones]. split; [|done].
  by rewrite Hw, expanded_width_n_input_dims.
Qed.

(** The width theorem on the first fit of the two-column table. *)
Lemma fitted_mask_has_model_width_witness :
  exists out w,
    generate_mask (fst (fst (configure ordinal_map dataset_n_output_dims
                               (categorical_c ∪ default_model_params) None
                               default_train_params frame_ab targets frame_ab targets)))
      0 4 Masking.low_then_high = Some out
    /\ built_from (TabNetModel
                     (fst (fst (configure ordinal_map dataset_n_output_dims
                                  (categorical_c ∪ default_model_params) None
                                  default_train_params frame_ab targets frame_ab targets))))
       !! "n_input_dims" = Some (PInt w)
    /\ length out = 4%nat
    /\ Forall (fun row => Z.of_nat (length row) = w /\ Forall (fun v => v = 1%Q) row) out.
Proof.
  apply (fitted_mask_has_model_width ordinal_map dataset_n_output_dims
           (categorical_c ∪ default_model_params) default_train_params
           frame_ab targets frame_ab targets [PStr "c"] 2
           _ _ (inr [false]) 4%nat Masking.low_then_high);
    [reflexivity | reflexivity | reflexivity | lia | vm_compute; reflexivity].
Defined.

(* ===================================================================== *)
(** ** The masking engine: shape, entries and edge cases *)
(* ===================================================================== *)

#[local] Close Scope string_scope.

Section MaskingShape.

Lemma bernoulli1_binary q s v : bernoulli1 q s = Some v -> v = 0%Q \/ v = 1%Q.
Proof.
  unfold bernoulli1. destruct (_ && _); [|done].
  destruct (Qle_bool q (sample_val s)); intros [= <-]; auto.
Qed.

Lemma bernoulli1_raises q s : ((q < 0)%Q \/ (1 < q)%Q) -> bernoulli1 q s = None.
Proof.
  intros Hq. unfold bernoulli1.
  destruct (Qle_bool 0 q) eqn:H0; [|done].
  destruct (Qle_bool q 1) eqn:H1; [|done].
  apply Qle_bool_iff in H0, H1. lra.
Qed.

Lemma sample_nonneg s : Qle_bool 0 (sample_val s) = true.
Proof. apply Qle_bool_iff. unfold Qle, sample_val. simpl. lia. Qed.

(** The rows of a draw have the width of the probabilities, and its entries
    are 0 or 1. *)
Lemma drawn_row_binary n d p u mask row :
  bernoulli (scale (ones n d) (1 - p)) u = Some mask ->
  row ∈ mask -> length row = d /\ Forall (fun v => v = 0%Q \/ v = 1%Q) row.
Proof.
  intros Hb Hrow. apply list_elem_of_lookup in Hrow as [r Hr].
  pose proof Hb as Hb'. apply bernoulli_from_spec in Hb' as [Hlen Hrows].
  assert (r < length (scale (ones n d) (1 - p)))%nat as Hlt
    by (rewrite <- Hlen; by eapply lookup_lt_Some).
  destruct (lookup_lt_is_Some_2 _ _ Hlt) as [qs Hqs].
  destruct (Hrows r qs Hqs) as (row' & Hrow' & Hm).
  rewrite Hr in Hm. injection Hm as <-.
  apply scale_ones_lookup in Hqs as [_ ->].
  apply bernoulli_row_spec in Hrow' as [Hl Hent].
  rewrite length_replicate in Hl. split; [done|].
  apply Forall_forall. intros v Hv. apply list_elem_of_lookup in Hv as [c Hc].
  assert (c < d)%nat as Hcd by (rewrite <- Hl; by eapply lookup_lt_Some).
  destruct (Hent c (1 * (1 - p))%Q) as (v' & Hv' & Hl'); [by apply lookup_replicate_2|].
  rewrite Hc in Hl'. injection Hl' as <-. by eapply bernoulli1_binary.
Qed.

End MaskingShape.

(** Whatever the probability, a mask that is returned has [batch_size]
    rows of the expanded width, and holds only zeros and ones. *)
Theorem mask_shape_and_entries mp p n u out :
  generate_model_mask mp p n u = Some out ->
  length out = n
  /\ Forall (fun row => length row = expanded_width mp
                        /\ Forall (fun v => v = 0%Q \/ v = 1%Q) row) out.
Proof.
  rewrite generate_model_mask_layout.
  destruct (bernoulli _ u) as [mask|] eqn:Hb; [|done].
  intros [= <-]. split.
  - rewrite length_map. apply bernoulli_from_spec in Hb as [-> _]. apply scale_ones_length.
  - apply Forall_forall. intros row Hrow.
    apply list_elem_of_In, in_map_iff in Hrow as (drawn & <- & Hin).
    apply list_elem_of_In in Hin.
    destruct (drawn_row_binary _ _ _ _ _ _ Hb Hin) as [Hlen Hbin].
    split; [apply length_layout|].
    rewrite Forall_forall in Hbin.
    assert (forall c, (c < n_original_input_dims mp)%nat ->
                      nth c drawn 0%Q = 0%Q \/ nth c drawn 0%Q = 1%Q) as Hnth.
    { intros c Hc. apply Hbin. apply list_elem_of_In, nth_In. lia. }
    unfold layout. apply Forall_app. split.
    + apply Forall_forall. intros v Hv.
      apply list_elem_of_In, in_map_iff in Hv as (c & <- & Hc).
      apply list_elem_of_In, list_elem_of_filter in Hc as [_ Hc].
      apply elem_of_seq in Hc. apply Hnth. lia.
    + apply Forall_forall. intros v Hv.
      apply list_elem_of_In, in_concat in Hv as (blk & Hblk & Hv).
      apply in_map_iff in Hblk as (c & <- & Hc).
      apply list_elem_of_In, elem_of_cat_columns in Hc as [_ Hc].
      unfold block in Hv. apply list_elem_of_In, elem_of_replicate in Hv as [-> _].
      by apply Hnth.
Qed.

Lemma mask_shape_and_entries_witness :
  length [[1; 1; 1; 0; 0]; [1; 1; 1; 0; 0]]%Q = 2%nat
  /\ Forall (fun row => length row = expanded_width swapped_config
                        /\ Forall (fun v => v = 0%Q \/ v = 1%Q) row)
       [[1; 1; 1; 0; 0]; [1; 1; 1; 0; 0]]%Q.
Proof.
  apply (mask_shape_and_entries swapped_config (1 # 2) 2%nat low_then_high).
  reflexivity.
Defined.

Section MaskingEdges.

Lemma bernoulli_row_raises u q qs j :
  ((q < 0)%Q \/ (1 < q)%Q) -> bernoulli_row u j (q :: qs) = None.
Proof. intros Hq. cbn [bernoulli_row]. by rewrite bernoulli1_raises. Qed.

Lemma scale_ones_replicate n d c :
  scale (ones n d) c = replicate n (replicate d (1 * c)%Q).
Proof.
  unfold scale, ones. induction n as [|n IH]; [done|].
  cbn [replicate map]. f_equal; [|done]. clear. induction d; simpl; [done | by f_equal].
Qed.

Lemma bernoulli_row_nothing u j : bernoulli_row u j [] = Some [].
Proof. done. Qed.

Lemma bernoulli_from_empty_rows u n : forall i,
  bernoulli_from u i (replicate n []) = Some (replicate n []).
Proof. induction n as [|n IH]; intros i; [done|]. cbn [replicate bernoulli_from]. by rewrite IH. Qed.

Lemma bernoulli_row_never u d j :
  bernoulli_row u j (replicate d (1 * (1 - 1))%Q) = Some (replicate d 0%Q).
Proof.
  revert j. induction d as [|d IH]; intros j; [done|].
  cbn [replicate bernoulli_row]. rewrite IH.
  unfold bernoulli1. change (1 * (1 - 1))%Q with 0%Q.
  by rewrite sample_nonneg.
Qed.

Lemma bernoulli_never n d u :
  bernoulli (scale (ones n d) (1 - 1)) u = Some (replicate n (replicate d 0%Q)).
Proof.
  unfold bernoulli. generalize 0%nat as i. rewrite scale_ones_replicate.
  induction n as [|n IH]; intros i; [done|].
  cbn [replicate bernoulli_from]. by rewrite bernoulli_row_never, IH.
Qed.

End MaskingEdges.

(** A masking probability above 1, or below 0 by at least the spacing
    [2^-23] of single precision at 1, makes [torch.bernoulli] raise as soon
    as there is one entry to draw; with an empty batch, or no input column,
    the (empty) mask is returned all the same.  (The code tests the
    single-precision value of [1 - p]: for a negative [p] closer to 0 that
    value is 1, a probability [torch.bernoulli] accepts, and nothing is
    said here.  For the [p] of this statement the exact [1 - p] and its
    single-precision value lie on the same side of the interval [0, 1].) *)
Theorem mask_probability_out_of_range mp p n u :
  ((p <= - (1 # 8388608))%Q \/ (1 < p)%Q) ->
  (generate_model_mask mp p n u = None
   <-> (0 < n)%nat /\ (0 < n_original_input_dims mp)%nat).
Proof.
  intros Hp.
  assert ((p < 0)%Q \/ (1 < p)%Q) as Hp'.
  { destruct Hp as [Hp|Hp]; [left | by right].
    eapply Qle_lt_trans; [exact Hp|]. reflexivity. }
  clear Hp. rename Hp' into Hp.
  rewrite generate_model_mask_layout, scale_ones_replicate. unfold bernoulli.
  destruct n as [|n].
  { simpl. split; [done | lia]. }
  destruct (n_original_input_dims mp) as [|d] eqn:Hd.
  { change (replicate 0 (1 * (1 - p))%Q) with (@nil Q).
    rewrite (bernoulli_from_empty_rows u (S n) 0). simpl. split; [done | lia]. }
  cbn [replicate bernoulli_from]. rewrite bernoulli_row_raises by lra.
  simpl. split; [lia | done].
Qed.

Lemma mask_probability_out_of_range_witness :
  generate_model_mask swapped_config 2 2 low_then_high = None
  <-> (0 < 2)%nat /\ (0 < n_original_input_dims swapped_config)%nat.
Proof.
  apply (mask_probability_out_of_range swapped_config 2 2%nat low_then_high).
  right. reflexivity.
Defined.

(** With [p = 1] every entry of the mask is 0, whatever the samples. *)
Theorem generate_mask_p1_all_zeros mp n u :
  exists out,
    generate_model_mask mp 1 n u = Some out
    /\ length out = n
    /\ Forall (fun row => length row = expanded_width mp
                          /\ Forall (fun v => v = 0%Q) row) out.
Proof.
  rewrite generate_model_mask_layout, bernoulli_never.
  eexists. split; [reflexivity|]. split.
  { by rewrite length_map, length_replicate. }
  apply Forall_forall. intros row Hrow.
  apply list_elem_of_In, in_map_iff in Hrow as (zeros & <- & Hin).
  apply list_elem_of_In, elem_of_replicate in Hin as [-> _].
  split; [apply length_layout|].
  unfold layout. apply Forall_app. split.
  - apply Forall_forall. intros v Hv.
    apply list_elem_of_In, in_map_iff in Hv as (c & <- & Hc).
    apply list_elem_of_In, list_elem_of_filter in Hc as [_ Hc].
    apply elem_of_seq in Hc.
    apply nth_lookup_Some with (d := 0%Q). apply lookup_replicate_2. lia.
  - apply Forall_forall. intros v Hv.
    apply list_elem_of_In, in_concat in Hv as (blk & Hblk & Hv).
    apply in_map_iff in Hblk as (c & <- & Hc).
    apply list_elem_of_In, elem_of_cat_columns in Hc as [_ Hc].
    unfold block in Hv. apply list_elem_of_In, elem_of_replicate in Hv as [-> _].
    apply nth_lookup_Some with (d := 0%Q). apply lookup_replicate_2. lia.
Qed.

(** The mask depends on [categorical_config] only through the set of its
    column positions: neither the order of the entries nor a position
    listed twice changes it. *)
Theorem mask_ignores_registration_order mp mp' p n u :
  n_original_input_dims mp = n_original_input_dims mp' ->
  embedding_dim mp = embedding_dim mp' ->
  (forall c, c ∈ idx_list mp <-> c ∈ idx_list mp') ->
  generate_model_mask mp p n u = generate_model_mask mp' p n u.
Proof.
  intros Hn He Hidx. rewrite !generate_model_mask_layout, Hn.
  assert (idx_slices mp = idx_slices mp') as Hs.
  { apply set_eq. intros c. unfold idx_slices. rewrite !elem_of_list_to_set. apply Hidx. }
  destruct (bernoulli _ u) as [mask|]; [|done]. simpl. f_equal.
  apply map_ext. intros row. unfold layout, keep_columns, cat_columns.
  by rewrite Hs, Hn, He.
Qed.

Lemma mask_ignores_registration_order_witness :
  generate_model_mask swapped_config (1 # 2) 2 low_then_high
  = generate_model_mask
      {| n_original_input_dims := 3;
         categorical_config :=
           [ (KStr "a", {| cat_map := []; n_dims := 0; idx := 0; identifier := PStr "a" |});
             (KStr "b", {| cat_map := []; n_dims := 0; idx := 2; identifier := PStr "b" |});
             (KStr "a2", {| cat_map := []; n_dims := 0; idx := 0; identifier := PStr "a" |}) ];
         embedding_dim := 2 |}
      (1 # 2) 2 low_then_high.
Proof.
  apply (mask_ignores_registration_order swapped_config _ (1 # 2) 2%nat low_then_high);
    [reflexivity | reflexivity |].
  intros c. unfold idx_list. simpl. rewrite !elem_of_cons, elem_of_nil. tauto.
Defined.

(* ===================================================================== *)
(** ** The reconstruction loss: what it reads *)
(* ===================================================================== *)

#[local] Open Scope R_scope.

Section LossMore.

(** Two tensors of one shape with the same entries are the same tensor. *)
Lemma tensor_ext n d (t t' : tensor R) :
  shape n d t -> shape n d t' ->
  (forall i j, (i < n)%nat -> (j < d)%nat -> nth i t [] !! j = nth i t' [] !! j) ->
  t = t'.
Proof.
  intros [Hn Hd] [Hn' Hd'] Hent. apply list_eq_same_length with n; [done | done |].
  intros i row row' Hi Hrow Hrow'.
  rewrite Forall_forall in Hd, Hd'.
  assert (length row = d) by (apply Hd; by eapply list_elem_of_lookup_2).
  assert (length row' = d) by (apply Hd'; by eapply list_elem_of_lookup_2).
  apply list_eq_same_length with d; [done | done |].
  intros j v v' Hj Hv Hv'.
  specialize (Hent i j Hi Hj).
  rewrite (nth_lookup_Some _ _ [] _ Hrow), (nth_lookup_Some _ _ [] _ Hrow') in Hent.
  congruence.
Qed.


Lemma rsum_all_zero v : Forall (fun a => a = 0) v -> rsum v = 0.
Proof. induction 1 as [|a v -> _ IH]; simpl; [done | lra]. Qed.

End LossMore.

(** Only the masked-out positions count in the reconstruction loss,
    whatever deviations [torch.std] computes: two reconstructions that agree
    wherever the mask is not 1 have the same loss, and with nothing masked
    out the loss is 0. *)
Theorem reconstruction_loss_reads_masked_positions
    (torch_std : list R -> R) n d x xr xr' feature_mask :
  (2 <= n)%nat ->
  shape n d x -> shape n d xr -> shape n d xr' -> shape n d feature_mask ->
  (forall i j, (i < n)%nat -> (j < d)%nat ->
     nth j (nth i feature_mask []) 0 = 1
     \/ nth j (nth i xr []) 0 = nth j (nth i xr' []) 0) ->
  get_reconstruction_loss torch_std x xr feature_mask
  = get_reconstruction_loss torch_std x xr' feature_mask
  /\ (feature_mask = ones_like x ->
      get_reconstruction_loss torch_std x xr feature_mask = 0).
Proof.
  intros Hn Hx Hr Hr' Hm Hagree.
  assert (scaled_residual torch_std x xr feature_mask
          = scaled_residual torch_std x xr' feature_mask) as Heq.
  { apply (tensor_ext n d); try (apply scaled_residual_shape; (done || lia)).
    intros i j Hi Hj. rewrite !(scaled_residual_entry torch_std n d) by done.
    f_equal. destruct (Hagree i j Hi Hj) as [-> | ->]; [|done].
    unfold Rdiv. ring. }
  split.
  { unfold get_reconstruction_loss. by rewrite Heq. }
  intros ->. unfold get_reconstruction_loss, sum0, norm.
  rewrite rsum_all_zero; [apply sqrt_0|].
  apply Forall_forall. intros v Hv.
  apply list_elem_of_In, in_map_iff in Hv as (a & <- & Ha).
  apply in_concat in Ha as (row & Hrow & Ha).
  apply list_elem_of_In, list_elem_of_lookup in Hrow as [i Hi].
  apply list_elem_of_In, list_elem_of_lookup in Ha as [j Hj].
  assert (shape n d (scaled_residual torch_std x xr (ones_like x))) as [Hlen Hwid]
    by (apply scaled_residual_shape; (done || lia)).
  assert (i < n)%nat as Hin by (rewrite <- Hlen; by eapply lookup_lt_Some).
  assert (j < d)%nat as Hjd.
  { rewrite Forall_forall in Hwid.
    rewrite <- (Hwid row) by (eapply list_elem_of_lookup_2, Hi).
    by eapply lookup_lt_Some. }
  pose proof (scaled_residual_entry torch_std n d x xr (ones_like x) i j Hx Hr Hm Hin Hjd)
    as He.
  rewrite (nth_lookup_Some _ _ [] _ Hi), Hj in He. injection He as ->.
  destruct (shape_lookup _ _ _ _ _ Hx Hin Hjd) as (xrow & xv & Hxi & Hxl & Hxj).
  assert (nth j (nth i (ones_like x) []) 0 = 1) as ->.
  { unfold ones_like. rewrite (nth_lookup_Some _ i [] (map (fun _ => 1) xrow)).
    - apply nth_lookup_Some. by rewrite lookup_map, Hxj.
    - by rewrite lookup_map, Hxi. }
  unfold Rdiv. ring.
Qed.

Lemma reconstruction_loss_reads_masked_positions_witness :
  get_reconstruction_loss std1 [[0]; [0]] [[3]; [4]] [[1]; [1]]
  = get_reconstruction_loss std1 [[0]; [0]] [[7]; [9]] [[1]; [1]]
  /\ ([[1]; [1]] = ones_like [[0]; [0]] ->
      get_reconstruction_loss std1 [[0]; [0]] [[3]; [4]] [[1]; [1]] = 0).
Proof.
  apply (reconstruction_loss_reads_masked_positions std1 2 1
           [[0]; [0]] [[3]; [4]] [[7]; [9]] [[1]; [1]]);
    [lia | | | | |]; try (split; [reflexivity | repeat constructor]).
  intros i j Hi Hj. left.
  destruct i as [|[|i]]; [| |lia]; (destruct j; [reflexivity | lia]).
Defined.

#[local] Close Scope R_scope.

(* ===================================================================== *)
(** ** The training loop: steps, checkpoints and phases *)
(* ===================================================================== *)

Import Phases.

Lemma running_min_finite x y :
  is_running_min (Fin x) (Fin y) = Qle_bool x y.
Proof.
  unfold is_running_min, teq, tmin. simpl. rewrite orb_false_r.
  destruct (Qle_bool x y) eqn:Hle.
  - apply Qeq_bool_iff. reflexivity.
  - destruct (Qeq_bool x y) eqn:Heq; [|done].
    apply Qeq_bool_iff in Heq. 
    assert (Qle_bool x y = true) as Hc by (apply Qle_bool_iff; rewrite Heq; apply Qle_refl).
    congruence.
Qed.

(** Folding the tracking over finite criteria keeps their minimum. *)
Lemma running_min_fold cs : forall b,
  Forall (fun c => isnan c = false) cs ->
  let r := fold_left (fun b c => if is_running_min c b then c else b) cs b in
  match b with
  | NaN => (cs = [] /\ r = NaN)
           \/ exists q, r = Fin q /\ Fin q ∈ cs /\ forall q', Fin q' ∈ cs -> (q <= q')%Q
  | Fin qb => exists q, r = Fin q /\ (Fin q ∈ cs \/ q = qb) /\ (q <= qb)%Q
                        /\ forall q', Fin q' ∈ cs -> (q <= q')%Q
  end.
Proof.
  induction cs as [|c cs IH]; intros b Hfin; cbn zeta.
  - destruct b as [|qb]; [by left|]. exists qb. simpl.
    split; [done|]. split; [by right|]. split; [apply Qle_refl|].
    by intros q' ?%elem_of_nil.
  - apply Forall_cons in Hfin as [Hc Hfin]. destruct c as [|x]; [done|].
    cbn [fold_left].
    assert (forall b', b' = Fin x -> 
              exists q, fold_left (fun b c => if is_running_min c b then c else b) cs b' = Fin q
                        /\ (Fin q ∈ Fin x :: cs) /\ (q <= x)%Q
                        /\ forall q', Fin q' ∈ cs -> (q <= q')%Q) as Htake.
    { intros b' ->. destruct (IH (Fin x) Hfin) as (q & Hr & Hin & Hle & Hall).
      exists q. split; [done|]. split; [|done].
      destruct Hin as [Hin | ->]; [by right | by left]. }
    destruct b as [|y].
    + right. change (is_running_min (Fin x) NaN) with true. cbv iota.
      destruct (Htake _ eq_refl) as (q & Hr & Hin & Hle & Hall).
      exists q. split; [done|]. split; [done|].
      intros q' [[= ->] | Hq']%elem_of_cons; [done | by apply Hall].
    + rewrite running_min_finite. destruct (Qle_bool x y) eqn:Hxy.
      * apply Qle_bool_iff in Hxy.
        destruct (Htake _ eq_refl) as (q & Hr & Hin & Hle & Hall).
        exists q. split; [done|]. split; [by left|].
        split; [by eapply Qle_trans|].
        intros q' [[= ->] | Hq']%elem_of_cons; [done | by apply Hall].
      * assert (y < x)%Q as Hlt.
        { apply Qnot_le_lt. intros Hle. apply Qle_bool_iff in Hle. congruence. }
        destruct (IH (Fin y) Hfin) as (q & Hr & Hin & Hle & Hall).
        exists q. split; [done|]. split.
        { destruct Hin as [Hin | ->]; [left; by right | by right]. }
        split; [done|].
        intros q' [[= ->] | Hq']%elem_of_cons; [|by apply Hall].
        apply Qlt_le_weak. by eapply Qle_lt_trans.
Qed.

Section PhaseFacts.

Context {W batch opt val es : Type}.
Variable opt_step : bool -> opt -> W -> batch -> opt * W.
Variable sched_step : opt -> opt.
Variable validate : val -> bool -> nat -> W -> crit.
Variable es_step : es -> crit -> es * bool.
Variable model : loc.
Variable tp : loop_params.
Variable self_supervised : bool.
Variable train_generator : nat -> list batch.

Abbreviation batch_step := (batch_step opt_step sched_step model tp self_supervised).
Abbreviation pure_step := (pure_step opt_step sched_step tp self_supervised).
Abbreviation pure_epochs := (pure_epochs opt_step sched_step tp self_supervised train_generator).
Abbreviation epoch := (epoch opt_step sched_step validate es_step model tp self_supervised train_generator).
Abbreviation run_epochs := (run_epochs opt_step sched_step validate es_step model tp self_supervised train_generator).
Abbreviation best_snapshot := (best_snapshot opt_step sched_step validate tp self_supervised train_generator).
Abbreviation criteria_seen := (criteria_seen opt_step sched_step validate tp self_supervised train_generator).
Abbreviation epoch_saves := (epoch_saves opt_step sched_step tp self_supervised train_generator).
Abbreviation live := (live model).
Abbreviation agrees := (agrees model).
Abbreviation tracks_live := (tracks_live model).

Implicit Types (s : @train_state W opt es) (a : opt * W * nat) (best : option W * crit).

Lemma batches_saved bs : forall s,
  st_saved (fold_left batch_step bs s) = st_saved s.
Proof.
  induction bs as [|b bs IH]; intros s; simpl; [done|]. rewrite IH.
  unfold Loop.batch_step. destruct (st_store s !! model); [|done].
  by destruct (opt_step _ _ _ _).
Qed.

Lemma pure_step_count a b : snd (pure_step a b) = S (snd a).
Proof.
  destruct a as [[o w] n]. unfold Loop.pure_step.
  by destruct (opt_step _ _ _ _).
Qed.

Lemma pure_batches_count bs : forall a,
  snd (fold_left pure_step bs a) = (snd a + length bs)%nat.
Proof.
  induction bs as [|b bs IH]; intros a; simpl; [lia|].
  rewrite IH, pure_step_count. lia.
Qed.

Lemma pure_epochs_count cs : forall a,
  snd (pure_epochs a cs) = (snd a + n_batches train_generator cs)%nat.
Proof.
  unfold n_batches.
  induction cs as [|c cs IH]; intros a; [simpl; lia|].
  rewrite pure_epochs_cons, IH, pure_batches_count. simpl. lia.
Qed.

Lemma pure_epochs_snoc a cs c :
  pure_epochs a (cs ++ [c]) = fold_left pure_step (train_generator c) (pure_epochs a cs).
Proof. unfold Loop.pure_epochs. by rewrite fold_left_app. Qed.

(** What one epoch adds to the checkpoints, and what it keeps of the
    tracked state dictionary. *)
Lemma epoch_saved vg s a c s' stop :
  agrees s a -> tracks_live s -> has_snapshot s ->
  epoch vg s c = (s', stop) ->
  st_saved s'
  = st_saved s
    ++ (if saves_at tp c
        then [(self_supervised, SaveEpoch c,
               snd (fst (fold_left pure_step (train_generator c) a)))]
        else [])
  /\ has_snapshot s'
  /\ (stop = true -> model_max_state_dict s' = Some model).
Proof.
  intros Ha Ht Hj. unfold Loop.epoch, saves_at.
  destruct (batches_agree opt_step sched_step model tp self_supervised
              (train_generator c) s a Ha) as (Ha1 & Hc1 & Hd1 & _).
  pose proof (batches_saved (train_generator c) s) as Hs1.
  set (s1 := fold_left batch_step (train_generator c) s) in *.
  set (a1 := fold_left pure_step (train_generator c) a) in *.
  set (cond := (0 <? c)%nat && (c mod Pos.to_nat (epoch_save_frequency tp) =? 0)%nat).
  set (s2 := if cond then save_model model self_supervised (SaveEpoch c) s1 else s1).
  assert (agrees s2 a1
          /\ model_max_criteria s2 = model_max_criteria s
          /\ model_max_state_dict s2 = model_max_state_dict s
          /\ st_saved s2
             = st_saved s ++ (if cond then [(self_supervised, SaveEpoch c, snd (fst a1))] else []))
    as (Ha2 & Hc2 & Hd2 & Hs2).
  { subst s2. destruct cond.
    - destruct (save_model_agrees model self_supervised (SaveEpoch c) s1 a1 Ha1) as (? & Hc & Hd & _).
      split; [done|]. split; [congruence|]. split; [congruence|].
      destruct Ha1 as (Hl & _). unfold save_model, Loop.live in *.
      rewrite Hl. simpl. by rewrite Hs1.
    - rewrite app_nil_r. split; [done|]. split; [congruence|]. split; congruence. }
  clearbody s2. clear Hs1.
  assert (has_snapshot s2) as Hj2 by (unfold has_snapshot in *; rewrite Hc2, Hd2; done).
  destruct vg as [v|].
  2: { intros [= <- <-]. done. }
  destruct Ha2 as (Hl2 & Ho2 & Hn2). unfold Loop.live in Hl2. rewrite Hl2.
  set (vl := validate v self_supervised c (snd (fst a1))).
  assert (st_saved (track_best model vl s2) = st_saved s2
          /\ model_max_state_dict (track_best model vl s2) = Some model) as [Hs3 Hd3].
  { unfold track_best, state_dict.
    destruct (is_running_min vl (model_max_criteria s2)) eqn:Hmin; [done|].
    split; [done|].
    destruct Ht as [Ht|Ht]; [|congruence].
    rewrite <- Hd2 in Ht. rewrite (Hj2 Ht) in Hmin.
    unfold is_running_min in Hmin. simpl in Hmin. by rewrite orb_true_r in Hmin. }
  set (s3 := track_best model vl s2) in *. clearbody s3.
  destruct (early_stopping tp).
  - destruct (es_step (st_es s3) vl) as [e [|]]; intros [= <- <-].
    + unfold restore_best, set_es, has_snapshot. cbn [model_max_state_dict].
      rewrite Hd3. cbn [model_max_state_dict st_saved].
      split; [congruence | done].
    + unfold set_es, has_snapshot. cbn [model_max_state_dict st_saved].
      split; [congruence|]. by rewrite Hd3.
  - intros [= <- <-]. split; [congruence|]. split; [|done].
    unfold has_snapshot. by rewrite Hd3.
Qed.

Lemma run_epochs_saved vg cs : forall s a,
  agrees s a -> tracks_live s -> has_snapshot s ->
  exists m,
    (m <= length cs)%nat
    /\ match snd (run_epochs vg s cs) with
       | None => m = length cs
       | Some k => (0 < m)%nat /\ cs !! (m - 1)%nat = Some k
                   /\ model_max_state_dict (fst (run_epochs vg s cs)) = Some model
       end
    /\ st_saved (fst (run_epochs vg s cs)) = st_saved s ++ epoch_saves a (take m cs).
Proof.
  induction cs as [|c cs IH]; intros s a Ha Ht Hj.
  - exists 0%nat. simpl. by rewrite app_nil_r.
  - cbn [Loop.run_epochs].
    destruct (epoch vg s c) as [s' stop] eqn:He.
    destruct (epoch_spec opt_step sched_step validate es_step model tp self_supervised
                train_generator vg s a (None, model_max_criteria s) c s' stop
                Ha Ht eq_refl He) as (Ha' & Ht' & _).
    destruct (epoch_saved vg s a c s' stop Ha Ht Hj He) as (Hs' & Hj' & Hstop).
    destruct stop.
    + exists 1%nat. simpl. rewrite app_nil_r. repeat split; try done; try lia. by apply Hstop.
    + destruct (IH s' _ Ha' Ht' Hj') as (m & Hm & Hk & Hs'').
      exists (S m). simpl. split; [lia|]. split.
      { destruct (snd (run_epochs vg s' cs)); [|lia].
        destruct Hk as (Hm0 & Hl & ?). split; [lia|]. split; [|done].
        rewrite Nat.sub_0_r. destruct m; [lia|]. simpl in *.
        by rewrite Nat.sub_0_r in Hl. }
      rewrite Hs'', Hs'. by rewrite <- app_assoc.
Qed.

(** The checkpoints of the epochs from [start] on, by epoch. *)
Lemma epoch_saves_from a n : forall start,
  epoch_saves (pure_epochs a (seq 0 start)) (seq start n)
  = map (fun c => (self_supervised, SaveEpoch c,
                   weights_after opt_step sched_step tp self_supervised train_generator a c))
      (filter (fun c => saves_at tp c = true) (seq start n)).
Proof.
  induction n as [|n IH]; intros start; [done|].
  cbn [seq Phases.epoch_saves]. rewrite filter_cons.
  rewrite <- pure_epochs_snoc.
  change (seq 0 start ++ [start]) with (seq 0 start ++ [(0 + start)%nat]).
  rewrite <- seq_S, IH.
  destruct (saves_at tp start); [rewrite decide_True by done | rewrite decide_False by done];
    done.
Qed.

Lemma epoch_saves_seq a n :
  epoch_saves a (seq 0 n)
  = map (fun c => (self_supervised, SaveEpoch c,
                   weights_after opt_step sched_step tp self_supervised train_generator a c))
      (filter (fun c => saves_at tp c = true) (seq 0 n)).
Proof. exact (epoch_saves_from a n 0). Qed.

Variable new_opt : opt.
Variable new_es : es.
Variable val_generator : option val.
Variable epochs step_offset : nat.
Variable store : list W.
Variable saved : list (bool * save_label * W).

Abbreviation the_train :=
  (train opt_step sched_step validate es_step model tp new_opt new_es train_generator
     val_generator epochs self_supervised step_offset store saved).
Abbreviation the_stop :=
  (stopped_early opt_step sched_step validate es_step model tp new_opt new_es
     train_generator val_generator epochs self_supervised step_offset store saved).
Abbreviation the_run := (epochs_run the_stop epochs).

(** [train_spec], with the epochs that ran named. *)
Lemma train_ran w0 :
  store !! model = Some w0 ->
  (the_run <= epochs)%nat
  /\ (early_stopping tp = false \/ val_generator = None -> the_stop = None)
  /\ agrees the_train (pure_epochs (new_opt, w0, step_offset) (seq 0 the_run))
  /\ forall v, val_generator = Some v ->
       model_max_criteria the_train
       = snd (best_snapshot v (new_opt, w0, step_offset) (None, NaN) (seq 0 the_run)).
Proof.
  intros Hw.
  destruct (train_spec opt_step sched_step validate es_step model tp self_supervised
              train_generator new_opt new_es val_generator epochs step_offset store saved
              w0 Hw) as (ran & Hran & Ha & Hc).
  unfold epochs_run. destruct the_stop as [k|].
  - destruct Hran as (-> & Hk & Hes & Hvg).
    split; [lia|]. split; [intros [?|?]; congruence|]. split; [done|].
    intros v ->. done.
  - subst ran. split; [lia|]. split; [done|]. split; [done|]. intros v ->. done.
Qed.

Lemma train_saved w0 :
  store !! model = Some w0 ->
  st_saved the_train
  = saved
    ++ map (fun c => (self_supervised, SaveEpoch c,
                      weights_after opt_step sched_step tp self_supervised train_generator
                        (new_opt, w0, step_offset) c))
         (filter (fun c => saves_at tp c = true) (seq 0 the_run))
    ++ [(self_supervised, SaveFinal,
         snd (fst (pure_epochs (new_opt, w0, step_offset) (seq 0 the_run))))]
  /\ (forall k, the_stop = Some k -> model_max_state_dict the_train = Some model).
Proof.
  intros Hw. destruct (train_ran w0 Hw) as (_ & _ & Ha & _).
  set (s0 := init_state new_opt new_es step_offset store saved).
  assert (agrees s0 (new_opt, w0, step_offset)) as Ha0 by done.
  assert (tracks_live s0) as Ht0 by (by left).
  assert (has_snapshot s0) as Hj0 by done.
  destruct (run_epochs_saved val_generator (seq 0 epochs) s0 _ Ha0 Ht0 Hj0)
    as (m & Hm & Hk & Hs).
  rewrite length_seq in Hm.
  assert (take m (seq 0 epochs) = seq 0 the_run
          /\ (forall k, the_stop = Some k ->
                model_max_state_dict (fst (run_epochs val_generator s0 (seq 0 epochs)))
                = Some model)) as [Htake Hdict].
  { unfold epochs_run, stopped_early, phase_loop. fold s0.
    destruct (snd (run_epochs val_generator s0 (seq 0 epochs))) as [k|].
    - destruct Hk as (Hm0 & Hl & Hd).
      destruct (seq_prefix_stop _ _ _ Hm0 Hm Hl) as (-> & Hlt & Hpre).
      split; [done|]. by intros k' _.
    - rewrite length_seq in Hk. subst m. rewrite take_seq. split; [f_equal; lia | done]. }
  rewrite Htake, epoch_saves_seq in Hs.
  set (r := fst (run_epochs val_generator s0 (seq 0 epochs))) in *.
  change the_train with (save_model model self_supervised SaveFinal r) in Ha |- *.
  destruct Ha as (Hl & _). unfold save_model, Loop.live in *.
  destruct (st_store r !! model) as [w|] eqn:Hlive.
  - cbn [st_store] in Hl. rewrite Hlive in Hl. injection Hl as ->.
    cbn [st_saved model_max_state_dict]. rewrite Hs.
    split; [by rewrite <- app_assoc | done].
  - by rewrite Hlive in Hl.
Qed.


(** The tracking of the best criterion, on the criteria alone. *)
Lemma best_snapshot_criteria v cs : forall a best,
  snd (best_snapshot v a best cs)
  = fold_left (fun b c => if is_running_min c b then c else b)
      (criteria_seen v a cs) (snd best).
Proof.
  induction cs as [|c cs IH]; intros a best; [done|].
  rewrite best_snapshot_cons, IH. cbn [Phases.criteria_seen fold_left Loop.best_snapshot].
  f_equal. by destruct (is_running_min _ (snd best)).
Qed.

Lemma criteria_seen_length v cs : forall a, length (criteria_seen v a cs) = length cs.
Proof. induction cs as [|c cs IH]; intros a; simpl; [done | by rewrite IH]. Qed.


(** [__train] returns its step offset plus the batches of the epochs that
    ran, and runs the whole budget when early stopping is off or there is
    no validation stream. *)
Theorem train_counts_batches w0 :
  store !! model = Some w0 ->
  (forall c, train_generator c <> []) ->
  (the_run <= epochs)%nat
  /\ (early_stopping tp = false \/ val_generator = None -> the_run = epochs)
  /\ st_step the_train = (step_offset + n_batches train_generator (seq 0 the_run))%nat.
Proof.
  intros Hw _. destruct (train_ran w0 Hw) as (Hle & Hfull & (_ & _ & Hn) & _).
  split; [done|]. split.
  - intros H. unfold epochs_run. by rewrite (Hfull H).
  - rewrite Hn. by rewrite pure_epochs_count.
Qed.

(** The checkpoints of [__train]: one at every epoch [c > 0] that the save
    frequency divides, among the epochs that ran, holding the weights as
    the batches of that epoch left them; then the final one, holding the
    weights the live model has when the call returns. *)
Theorem train_checkpoints w0 :
  store !! model = Some w0 ->
  (forall c, train_generator c <> []) ->
  exists w,
    live the_train = Some w
    /\ st_saved the_train
       = saved
         ++ map (fun c => (self_supervised, SaveEpoch c,
                           weights_after opt_step sched_step tp self_supervised
                             train_generator (new_opt, w0, step_offset) c))
              (filter (fun c => saves_at tp c = true) (seq 0 the_run))
         ++ [(self_supervised, SaveFinal, w)].
Proof.
  intros Hw _. destruct (train_ran w0 Hw) as (_ & _ & (Hl & _) & _).
  destruct (train_saved w0 Hw) as [Hs _].
  eexists. split; [exact Hl | exact Hs].
Qed.

(** When early stopping fires there is a state dictionary to load: the
    tracked dictionary is never [None] at that point, and it is the
    dictionary of the live model. *)
Theorem early_stop_has_state_dict w0 k :
  store !! model = Some w0 ->
  (forall c, train_generator c <> []) ->
  the_stop = Some k ->
  model_max_state_dict the_train = Some (state_dict model (st_store the_train))
  /\ (k < epochs)%nat /\ early_stopping tp = true /\ val_generator <> None.
Proof.
  intros Hw _ Hk. destruct (train_saved w0 Hw) as [_ Hd].
  split; [by apply (Hd k)|].
  destruct (train_spec opt_step sched_step validate es_step model tp self_supervised
              train_generator new_opt new_es val_generator epochs step_offset store saved
              w0 Hw) as (ran & Hran & _).
  rewrite Hk in Hran. by destruct Hran as (_ & ? & ? & ?).
Qed.

(** When every validation criterion of the run is a number, the criterion
    the loop holds at the end is the least of them. *)
Theorem best_criterion_is_minimum w0 v :
  store !! model = Some w0 ->
  (forall c, train_generator c <> []) ->
  val_generator = Some v ->
  (0 < epochs)%nat ->
  Forall (fun c => isnan c = false)
    (criteria_seen v (new_opt, w0, step_offset) (seq 0 the_run)) ->
  exists q,
    model_max_criteria the_train = Fin q
    /\ Fin q ∈ criteria_seen v (new_opt, w0, step_offset) (seq 0 the_run)
    /\ forall q', Fin q' ∈ criteria_seen v (new_opt, w0, step_offset) (seq 0 the_run) ->
                  (q <= q')%Q.
Proof.
  intros Hw _ Hv Hpos Hfin. destruct (train_ran w0 Hw) as (_ & _ & _ & Hc).
  rewrite (Hc v Hv), best_snapshot_criteria.
  destruct (running_min_fold _ NaN Hfin) as [[Hnil _] | Hmin]; [|done].
  apply (f_equal length) in Hnil.
  rewrite criteria_seen_length, length_seq in Hnil. simpl in Hnil.
  unfold epochs_run in Hnil. destruct the_stop; lia.
Qed.

End PhaseFacts.

Lemma train_counts_batches_witness :
  st_step (demo_train true 5) = 2%nat.
Proof.
  apply (train_counts_batches add_step (fun o => o) weight_as_loss tracker_step
           0%nat (demo_params true) false one_batch_of_one tt fresh_tracker (Some tt)
           5 0 [0%Z] [] 0%Z); [reflexivity | done].
Defined.

Lemma train_checkpoints_witness :
  exists w,
    live 0 (saving_train 5) = Some w
    /\ st_saved (saving_train 5)
       = [(false, SaveEpoch 2, 3%Z); (false, SaveEpoch 4, 5%Z); (false, SaveFinal, w)].
Proof.
  apply (train_checkpoints add_step (fun o => o) weight_as_loss tracker_step
           0%nat saving_params false one_batch_of_one tt fresh_tracker (Some tt)
           5 0 [0%Z] [] 0%Z); [reflexivity | done].
Defined.

Lemma early_stop_has_state_dict_witness :
  model_max_state_dict (demo_train true 5) = Some 0%nat
  /\ (1 < 5)%nat /\ true = true /\ Some tt <> None.
Proof.
  apply (early_stop_has_state_dict add_step (fun o => o) weight_as_loss tracker_step
           0%nat (demo_params true) false one_batch_of_one tt fresh_tracker (Some tt)
           5 0 [0%Z] [] 0%Z 1%nat); [reflexivity | done | reflexivity].
Defined.

Lemma best_criterion_is_minimum_witness :
  exists q,
    model_max_criteria (demo_train false 3) = Fin q
    /\ Fin q ∈ [Fin 1; Fin 2; Fin 3]
    /\ forall q', Fin q' ∈ [Fin 1; Fin 2; Fin 3] -> (q <= q')%Q.
Proof.
  apply (best_criterion_is_minimum add_step (fun o => o) weight_as_loss tracker_step
           0%nat (demo_params false) false one_batch_of_one tt fresh_tracker (Some tt)
           3 0 [0%Z] [] 0%Z tt); [reflexivity | done | reflexivity | lia |].
  repeat constructor.
Defined.

Section FitPhases.

Context {W batch opt val es : Type}.
Variable opt_step : bool -> opt -> W -> batch -> opt * W.
Variable sched_step : opt -> opt.
Variable validate : val -> bool -> nat -> W -> crit.
Variable es_step : es -> crit -> es * bool.
Variable model : loc.
Variable tp : loop_params.
Variable new_opt : opt.
Variable new_es : es.
Variable train_generator : bool -> nat -> list batch.
Variable val_generator : option val.
Variable max_epochs : bool -> nat.
Variable store : list W.
Variable saved : list (bool * save_label * W).

Abbreviation phase_epochs self_supervised :=
  (pure_epochs opt_step sched_step tp self_supervised (train_generator self_supervised)).

(** With both phases enabled, the supervised phase starts from the weights
    and the step counter that the self-supervised phase left, with a new
    optimizer; the call ends on the supervised weights, its step counter is
    the number of batches of both phases, and each phase closes its
    checkpoints with a final one. *)
Theorem both_phases_compose w0 :
  store !! model = Some w0 ->
  (forall self_supervised c, train_generator self_supervised c <> []) ->
  exists ran1 ran2 saved1 saved2,
    (ran1 <= max_epochs true)%nat /\ (ran2 <= max_epochs false)%nat
    /\ (early_stopping tp = false \/ val_generator = None ->
        ran1 = max_epochs true /\ ran2 = max_epochs false)
    /\ let a1 := phase_epochs true (new_opt, w0, 0%nat) (seq 0 ran1) in
       let a2 := phase_epochs false (new_opt, snd (fst a1), snd a1) (seq 0 ran2) in
       let '(step, store', saved') :=
         run_phases opt_step sched_step validate es_step model tp new_opt new_es
           train_generator val_generator max_epochs [true; false] store saved in
       store' !! model = Some (snd (fst a2))
       /\ step = (n_batches (train_generator true) (seq 0 ran1)
                  + n_batches (train_generator false) (seq 0 ran2))%nat
       /\ saved' = saved ++ saved1 ++ [(true, SaveFinal, snd (fst a1))]
                   ++ saved2 ++ [(false, SaveFinal, snd (fst a2))]
       /\ Forall (fun x => exists c w, x = (true, SaveEpoch c, w)) saved1
       /\ Forall (fun x => exists c w, x = (false, SaveEpoch c, w)) saved2.
Proof.
  intros Hw _.
  set (s1 := train opt_step sched_step validate es_step model tp new_opt new_es
               (train_generator true) val_generator (max_epochs true) true 0 store saved).
  set (stop1 := stopped_early opt_step sched_step validate es_step model tp new_opt new_es
                  (train_generator true) val_generator (max_epochs true) true 0 store saved).
  destruct (train_ran opt_step sched_step validate es_step model tp true
              (train_generator true) new_opt new_es val_generator (max_epochs true) 0
              store saved w0 Hw) as (Hle1 & Hfull1 & (Hl1 & _ & Hn1) & _).
  destruct (train_saved opt_step sched_step validate es_step model tp true
              (train_generator true) new_opt new_es val_generator (max_epochs true) 0
              store saved w0 Hw) as [Hs1 _].
  fold s1 in Hl1, Hn1, Hs1. fold stop1 in Hle1, Hfull1, Hl1, Hn1, Hs1.
  set (ran1 := epochs_run stop1 (max_epochs true)) in *.
  set (a1 := phase_epochs true (new_opt, w0, 0%nat) (seq 0 ran1)) in *.
  set (s2 := train opt_step sched_step validate es_step model tp new_opt new_es
               (train_generator false) val_generator (max_epochs false) false
               (st_step s1) (st_store s1) (st_saved s1)).
  set (stop2 := stopped_early opt_step sched_step validate es_step model tp new_opt new_es
                  (train_generator false) val_generator (max_epochs false) false
                  (st_step s1) (st_store s1) (st_saved s1)).
  destruct (train_ran opt_step sched_step validate es_step model tp false
              (train_generator false) new_opt new_es val_generator (max_epochs false)
              (st_step s1) (st_store s1) (st_saved s1) _ Hl1)
    as (Hle2 & Hfull2 & (Hl2 & _ & Hn2) & _).
  destruct (train_saved opt_step sched_step validate es_step model tp false
              (train_generator false) new_opt new_es val_generator (max_epochs false)
              (st_step s1) (st_store s1) (st_saved s1) _ Hl1) as [Hs2 _].
  fold s2 in Hl2, Hn2, Hs2. fold stop2 in Hle2, Hfull2, Hl2, Hn2, Hs2.
  set (ran2 := epochs_run stop2 (max_epochs false)) in *.
  rewrite Hn1 in Hl2, Hn2, Hs2.
  exists ran1, ran2,
    (map (fun c => (true, SaveEpoch c,
                    weights_after opt_step sched_step tp true (train_generator true)
                      (new_opt, w0, 0%nat) c))
       (filter (fun c => saves_at tp c = true) (seq 0 ran1))),
    (map (fun c => (false, SaveEpoch c,
                    weights_after opt_step sched_step tp false (train_generator false)
                      (new_opt, snd (fst a1), snd a1) c))
       (filter (fun c => saves_at tp c = true) (seq 0 ran2))).
  split; [done|]. split; [done|]. split.
  { intros H. unfold ran1, ran2, epochs_run. by rewrite (Hfull1 H), (Hfull2 H). }
  cbv zeta. unfold run_phases. cbn [fold_left]. fold s1. fold s2.
  split; [exact Hl2|]. split.
  { rewrite Hn2. rewrite !pure_epochs_count. simpl. unfold a1.
    rewrite pure_epochs_count. simpl. lia. }
  split.
  { rewrite Hs2, Hs1. by rewrite <- !app_assoc. }
  split; apply Forall_forall; intros x Hx;
    apply list_elem_of_In, in_map_iff in Hx as (c & <- & _); eauto.
Qed.

End FitPhases.

Lemma both_phases_compose_witness :
  exists ran1 ran2 saved1 saved2,
    (ran1 <= 3)%nat /\ (ran2 <= 2)%nat
    /\ (false = false \/ Some tt = None -> ran1 = 3%nat /\ ran2 = 2%nat)
    /\ let a1 := pure_epochs add_step (fun o => o) saving_params true one_batch_of_one
                   (tt, 0%Z, 0%nat) (seq 0 ran1) in
       let a2 := pure_epochs add_step (fun o => o) saving_params false one_batch_of_one
                   (tt, snd (fst a1), snd a1) (seq 0 ran2) in
       let '(step, store', saved') := demo_phases 3 2 in
       store' !! 0%nat = Some (snd (fst a2))
       /\ step = (n_batches one_batch_of_one (seq 0 ran1)
                  + n_batches one_batch_of_one (seq 0 ran2))%nat
       /\ saved' = [] ++ saved1 ++ [(true, SaveFinal, snd (fst a1))]
                   ++ saved2 ++ [(false, SaveFinal, snd (fst a2))]
       /\ Forall (fun x => exists c w, x = (true, SaveEpoch c, w)) saved1
       /\ Forall (fun x => exists c w, x = (false, SaveEpoch c, w)) saved2.
Proof.
  apply (both_phases_compose add_step (fun o => o) weight_as_loss tracker_step
           0%nat saving_params tt fresh_tracker (fun _ => one_batch_of_one) (Some tt)
           (fun self_supervised : bool => if self_supervised then 3%nat else 2%nat)
           [0%Z] [] 0%Z); [reflexivity | done].
Defined.

(* ===================================================================== *)
(** ** The guards of [fit] *)
(* ===================================================================== *)

Import Facade Guards.
#[local] Open Scope string_scope.

Section FitMore.

Variable generate_categorical_to_ordinal_map : container -> list (key * pyval).
Variable n_output_dims : container -> pyval -> pyval.

Abbreviation fit := (fit generate_categorical_to_ordinal_map n_output_dims).
Abbreviation configure := (configure generate_categorical_to_ordinal_map n_output_dims).
Abbreviation build_config := (build_config generate_categorical_to_ordinal_map).

(** [fit] on an instance as [__init__] leaves it, through [configure]. *)
Lemma fit_of_init overrides c X_train y_train X_val y_val (tp sp : dict) :
  let mp := match c with
            | Some (lp, _) => lp
            | None => overrides ∪ default_model_params
            end in
  let m := match c with
           | Some (_, lm) => Some lm
           | None => None
           end in
  let cfg := configure mp m (tp ∪ default_train_params) X_train y_train X_val y_val in
  let r := fit (init class_store overrides c) X_train y_train X_val y_val tp sp in
  snd r = snd cfg
  /\ params_of (fst r) = Some (fst (fst cfg))
  /\ model (snd (fst r)) = snd (fst cfg)
  /\ params_of (init class_store overrides c) = Some mp
  /\ model (snd (init class_store overrides c)) = m
  /\ (m = None -> exists v, mp !! "discrete_outputs" = Some v).
Proof.
  cbv zeta. unfold Facade.fit. destruct c as [[lp lm]|]; simpl;
    destruct (configure _ _ _ _ _ _ _) as [[mp' m'] r]; simpl;
    repeat split; try done.
  intros _. apply overridden_defaults_have_flag.
Qed.

Lemma configure_rejects_mismatch mp m tp X_train y_train X_val y_val :
  (m = None -> exists v, mp !! "discrete_outputs" = Some v) ->
  mismatched X_train y_train X_val y_val ->
  (exists msg, snd (configure mp m tp X_train y_train X_val y_val) = inl (ValueError msg))
  /\ snd (fst (configure mp m tp X_train y_train X_val y_val)) = m
  /\ forall k, k <> "discrete_target_mapping" ->
       fst (fst (configure mp m tp X_train y_train X_val y_val)) !! k = mp !! k.
Proof.
  intros Hv Hmis. unfold Facade.configure.
  set (first := if m is None then _ else _).
  assert (exists set_target, first = inr set_target) as [set_target ->].
  { subst first. destruct m; [by eexists|]. destruct (Hv eq_refl) as [v Hv'].
    unfold item. rewrite Hv'. by eexists. }
  set (mp1 := if set_target then _ else mp).
  assert (forall k, k <> "discrete_target_mapping" -> mp1 !! k = mp !! k) as Hframe.
  { intros k Hk. subst mp1. destruct set_target; [|done]. by rewrite lookup_insert_ne. }
  clearbody mp1.
  destruct (bool_decide (type_of X_train <> type_of X_val)
            || bool_decide (type_of y_train <> type_of y_val)) eqn:Htype.
  { simpl. eauto. }
  apply orb_false_elim in Htype as [Hx Hy].
  apply bool_decide_eq_false in Hx, Hy.
  destruct Hmis as [Hm | [Hm | [Hm | Hm]]]; [done | done | |].
  - destruct Hm as (columns & rows & val_columns & val_rows & -> & -> & Hne).
    cbn [shape1 bind is_none check_val_columns].
    destruct (negb (length val_columns =? length columns)%nat); simpl; [eauto|].
    rewrite bool_decide_eq_false_2 by done. simpl. eauto.
  - destruct Hm as (n_cols & rows & val_n_cols & val_rows & -> & -> & Hne).
    cbn [shape1 bind is_none check_val_columns].
    assert ((val_n_cols =? n_cols)%nat = false) as -> by (by apply Nat.eqb_neq).
    simpl. eauto.
Qed.

Lemma configure_frame mp m tp X_train y_train X_val y_val k :
  k ∉ fit_keys ->
  fst (fst (configure mp m tp X_train y_train X_val y_val)) !! k = mp !! k.
Proof.
  intros Hk. unfold fit_keys in Hk. rewrite !not_elem_of_cons in Hk.
  destruct Hk as (? & ? & ? & ? & ? & ? & ? & _).
  unfold Facade.configure.
  repeat case_match; simplify_eq; simpl; rewrite ?lookup_insert_ne by done; done.
Qed.

Lemma check_val_columns_error X_train X_val n e :
  check_val_columns X_train X_val n = inl e ->
  e <> ValueError "No training scheme defined: set `run_self_supervised_training` or `run_supervised_training` to True".
Proof.
  unfold check_val_columns, shape1, bind.
  repeat case_match; intros; simplify_eq; done.
Qed.

Lemma build_config_error X_train data_columns cols : forall acc e,
  build_config X_train data_columns cols acc = inl e ->
  e = KeyError \/ e = IndexError \/ e = TypeError.
Proof.
  induction cols as [|col cols IH]; intros acc e; simpl; [done|].
  unfold bind, as_key, getitem.
  repeat case_match; intros; simplify_eq; eauto.
Qed.

(** The error of line 534 is raised on a model that is there: every
    earlier step of [fit] went through. *)
Lemma configure_no_scheme mp m tp X_train y_train X_val y_val :
  snd (configure mp m tp X_train y_train X_val y_val) = inl no_scheme ->
  exists built,
    snd (fst (configure mp m tp X_train y_train X_val y_val)) = Some built
    /\ (m = None ->
        built = TabNetModel (fst (fst (configure mp m tp X_train y_train X_val y_val)))).
Proof.
  unfold Facade.configure, no_scheme.
  destruct (if m is None then _ else _) as [e|set_target] eqn:H1.
  { simpl. intros [= ->]. destruct m; [done|]. unfold item, bind in H1.
    destruct (mp !! "discrete_outputs"); discriminate H1. }
  set (mp1 := if set_target then _ else mp). clearbody mp1.
  destruct (_ || _); [done|].
  destruct (n <- shape1 X_train ;; _) as [e|n] eqn:H2.
  { simpl. intros [= ->]. unfold bind in H2. destruct (shape1 X_train) as [e|n] eqn:Hs.
    - injection H2 as ->. unfold shape1 in Hs. by repeat case_match.
    - destruct (is_none X_val); [done|].
      destruct (check_val_columns X_train X_val n) as [e|[]] eqn:Hc; [|done].
      injection H2 as ->. by apply check_val_columns_error in Hc. }
  destruct (cv <- item mp1 "categorical_variables" ;; _) as [e|new_config] eqn:H3.
  { simpl. intros [= ->]. unfold bind, item, len in H3.
    repeat case_match; simplify_eq;
      match goal with H : build_config _ _ _ _ = inl _ |- _ =>
        apply build_config_error in H; destruct H as [?|[?|?]]; discriminate end. }
  set (mp2 := match new_config with Some _ => _ | None => mp1 end). clearbody mp2.
  destruct (cc <- item mp2 "categorical_config" ;; _) as [e|[n_in n_cont]] eqn:H4.
  { simpl. intros [= ->]. unfold bind, item, len, as_int in H4.
    repeat case_match; simplify_eq. }
  destruct (if m is None then _ else _) as [e|build] eqn:H5 in |- *.
  { simpl. intros [= ->]. destruct m; [done|]. unfold bind, item in H5.
    repeat case_match; simplify_eq. }
  simpl. intros _. destruct m as [x|].
  - injection H5 as <-. by exists x.
  - unfold bind, item in H5. destruct (mp2 !! "discrete_target_mapping"); [|done].
    injection H5 as <-. by eexists.
Qed.

(** What [fit] returns when it raises nothing: the phases of the truthy
    flags; none at all only with flags that are falsy without both being
    equal to [False]. *)
Lemma configure_plan mp m tp X_train y_train X_val y_val plan :
  snd (configure mp m tp X_train y_train X_val y_val) = inr plan ->
  exists ss sv,
    tp !! "run_self_supervised_training" = Some ss
    /\ tp !! "run_supervised_training" = Some sv
    /\ plan = ((if truthy ss then [true] else []) ++ (if truthy sv then [false] else []))%list
    /\ eq_False ss && eq_False sv = false.
Proof.
  unfold Facade.configure.
  destruct (if m is None then _ else _) as [e|set_target]; [done|].
  destruct (_ || _); [done|].
  destruct (n <- shape1 X_train ;; _) as [e|n]; [done|].
  destruct (cv <- item _ "categorical_variables" ;; _) as [e|new_config]; [done|].
  destruct (cc <- item _ "categorical_config" ;; _) as [e|[n_in n_cont]]; [done|].
  destruct (if m is None then _ else _) as [e|build]; [done|].
  cbn [snd]. unfold bind, item.
  destruct (tp !! "run_self_supervised_training") as [ss|]; [|done].
  destruct (tp !! "run_supervised_training") as [sv|]; [|done].
  destruct (eq_False ss && eq_False sv) eqn:E; [done|].
  intros [= <-]. by exists ss, sv.
Qed.

Lemma index_of_None k ks : index_of k ks = None <-> k ∉ ks.
Proof.
  induction ks as [|k' ks IH]; simpl; [split; [intros _ ?%elem_of_nil | ]; done|].
  rewrite not_elem_of_cons. destruct (decide (k' = k)) as [->|Hne].
  - split; [done | tauto].
  - destruct (index_of k ks); simpl.
    + split; [done|]. intros [_ Hk]. apply IH in Hk. done.
    + split; [|done]. intros _. split; [done|]. by apply IH.
Qed.

(** A categorical variable that is not a column of the table. *)
Lemma build_config_missing columns rows data_columns cols : forall acc,
  Forall (fun col => exists k, as_key col = inr k) cols ->
  (exists col k, col ∈ cols /\ as_key col = inr k /\ k ∉ columns) ->
  build_config (CDataFrame columns rows) data_columns cols acc = inl KeyError.
Proof.
  induction cols as [|col cols IH]; intros acc Hkeys (bad & kb & Hin & Hkb & Hmiss).
  { by apply elem_of_nil in Hin. }
  apply Forall_cons in Hkeys as [[k Hk] Hkeys].
  cbn [Facade.build_config]. rewrite Hk. cbn [bind getitem].
  destruct (index_of k columns) as [i|] eqn:Hi; [|done].
  cbn [bind]. destruct (dict_get data_columns k); [|done].
  apply IH; [done|]. exists bad, kb. split; [|done].
  apply elem_of_cons in Hin as [-> | Hin]; [|done].
  assert (k = kb) as -> by congruence.
  apply index_of_None in Hmiss. congruence.
Qed.

Lemma configure_missing_column mp m tp columns rows val_rows y_train y_val cols :
  (m = None -> exists v, mp !! "discrete_outputs" = Some v) ->
  type_of y_train = type_of y_val ->
  mp !! "categorical_variables" = Some (PList cols) ->
  Forall (fun col => exists k, as_key col = inr k) cols ->
  (exists col k, col ∈ cols /\ as_key col = inr k /\ k ∉ columns) ->
  exists mp',
    configure mp m tp (CDataFrame columns rows) y_train (CDataFrame columns val_rows) y_val
    = (mp', m, inl KeyError)
    /\ forall k, k <> "discrete_target_mapping" -> mp' !! k = mp !! k.
Proof.
  intros Hv Hy Hcv Hkeys Hbad. unfold Facade.configure.
  set (first := if m is None then _ else _).
  assert (exists set_target, first = inr set_target) as [set_target ->].
  { subst first. destruct m; [by eexists|]. destruct (Hv eq_refl) as [v Hv'].
    unfold item. rewrite Hv'. by eexists. }
  set (mp1 := if set_target then _ else mp).
  assert (forall k, k <> "discrete_target_mapping" -> mp1 !! k = mp !! k) as Hframe.
  { intros k Hk. subst mp1. destruct set_target; [|done]. by rewrite lookup_insert_ne. }
  clearbody mp1. exists mp1. split; [|done].
  rewrite (bool_decide_eq_false_2 (type_of (CDataFrame columns rows)
                                   <> type_of (CDataFrame columns val_rows)))
    by (intros H; by apply H).
  rewrite (bool_decide_eq_false_2 (type_of y_train <> type_of y_val)) by (intros H; by apply H).
  cbn [orb shape1 bind is_none check_val_columns].
  rewrite Nat.eqb_refl. cbn [negb]. rewrite bool_decide_eq_true_2 by done.
  unfold item at 1. rewrite Hframe, Hcv by done. cbn [bind len].
  destruct Hbad as (bad & kb & Hin & Hkb & Hmiss).
  destruct cols as [|col cols]; [by apply elem_of_nil in Hin|].
  cbn [length Nat.ltb Nat.leb].
  rewrite build_config_missing by eauto. done.
Qed.

(** With a model at hand, [fit] builds no other, and of the model
    parameters it can only write [categorical_config]. *)
Lemma configure_keeps_model mp x tp X_train y_train X_val y_val :
  snd (fst (configure mp (Some x) tp X_train y_train X_val y_val)) = Some x.
Proof. unfold Facade.configure. repeat case_match; simplify_eq; done. Qed.

Lemma configure_loaded_frame mp x tp X_train y_train X_val y_val k :
  k <> "categorical_config" ->
  fst (fst (configure mp (Some x) tp X_train y_train X_val y_val)) !! k = mp !! k.
Proof.
  intros Hk. unfold Facade.configure.
  repeat case_match; simplify_eq; simpl; rewrite ?lookup_insert_ne by done; done.
Qed.

End FitMore.

(** A validation set that does not match the training set (another type,
    other column labels, another number of columns) makes [fit] raise a
    [ValueError]; no model is built, and of the model parameters only
    [discrete_target_mapping] may have been written by then. *)
Theorem fit_rejects_mismatched_validation
    (g : container -> list (key * pyval)) (n : container -> pyval -> pyval)
    (overrides : dict) (c : option (dict * tabnet_model))
    (X_train y_train X_val y_val : container) (tp sp : dict) :
  mismatched X_train y_train X_val y_val ->
  (exists msg,
     snd (fit g n (init class_store overrides c) X_train y_train X_val y_val tp sp)
     = inl (ValueError msg))
  /\ model (snd (fst (fit g n (init class_store overrides c)
                        X_train y_train X_val y_val tp sp)))
     = model (snd (init class_store overrides c))
  /\ forall k, k <> "discrete_target_mapping" ->
       param (fst (fit g n (init class_store overrides c)
                     X_train y_train X_val y_val tp sp)) k
       = param (init class_store overrides c) k.
Proof.
  intros Hmis.
  destruct (fit_of_init g n overrides c X_train y_train X_val y_val tp sp)
    as (Hr & Hp & Hm & Hp0 & Hm0 & Hflag).
  destruct (configure_rejects_mismatch g n _ _ (tp ∪ default_train_params)
              X_train y_train X_val y_val Hflag Hmis) as (Herr & Hmodel & Hframe).
  rewrite Hr, Hm, Hm0. split; [done|]. split; [done|].
  intros k Hk. unfold param. rewrite Hp, Hp0. simpl. by apply Hframe.
Qed.

Lemma fit_rejects_mismatched_validation_witness :
  (exists msg,
     snd (fit ordinal_map dataset_n_output_dims built frame_ab targets frame_other targets ∅ ∅)
     = inl (ValueError msg))
  /\ model (snd (fst (fit ordinal_map dataset_n_output_dims built
                        frame_ab targets frame_other targets ∅ ∅)))
     = model (snd built)
  /\ forall k, k <> "discrete_target_mapping" ->
       param (fst (fit ordinal_map dataset_n_output_dims built
                     frame_ab targets frame_other targets ∅ ∅)) k
       = param built k.
Proof.
  apply (fit_rejects_mismatched_validation ordinal_map dataset_n_output_dims
           categorical_c None frame_ab targets frame_other targets ∅ ∅).
  right. right. left.
  exists [KStr "c"; KStr "x"], [ [PStr "a"; PInt 1]; [PStr "b"; PInt 2] ],
    [KStr "c"; KStr "y"], [ [PStr "a"; PInt 1]; [PStr "b"; PInt 2] ].
  split; [reflexivity|]. split; [reflexivity | discriminate].
Defined.

(** [fit] writes no key of the model parameters other than the seven it
    derives from the data: the hyperparameters the instance was built with
    read the same after the call, however it ends. *)
Theorem fit_keeps_other_model_params
    (g : container -> list (key * pyval)) (n : container -> pyval -> pyval)
    (overrides : dict) (c : option (dict * tabnet_model))
    (X_train y_train X_val y_val : container) (tp sp : dict) (k : string) :
  k ∉ fit_keys ->
  param (fst (fit g n (init class_store overrides c) X_train y_train X_val y_val tp sp)) k
  = param (init class_store overrides c) k.
Proof.
  intros Hk.
  destruct (fit_of_init g n overrides c X_train y_train X_val y_val tp sp)
    as (_ & Hp & _ & Hp0 & _).
  unfold param. rewrite Hp, Hp0. simpl. by apply configure_frame.
Qed.

Lemma fit_keeps_other_model_params_witness :
  param (fst first_fit) "n_steps" = param built "n_steps".
Proof.
  apply (fit_keeps_other_model_params ordinal_map dataset_n_output_dims
           categorical_c None frame_ab targets frame_ab targets ∅ ∅ "n_steps").
  unfold fit_keys. rewrite !not_elem_of_cons. repeat split; try discriminate.
  apply not_elem_of_nil.
Defined.

(** When [fit] raises the "No training scheme" error the model has already
    been built: the instance keeps it, built from the parameters the call
    derived. *)
Theorem no_scheme_error_leaves_model
    (g : container -> list (key * pyval)) (n : container -> pyval -> pyval)
    (overrides : dict) (c : option (dict * tabnet_model))
    (X_train y_train X_val y_val : container) (tp sp : dict) :
  snd (fit g n (init class_store overrides c) X_train y_train X_val y_val tp sp)
  = inl no_scheme ->
  exists net,
    model (snd (fst (fit g n (init class_store overrides c)
                       X_train y_train X_val y_val tp sp))) = Some net
    /\ (c = None ->
        params_of (fst (fit g n (init class_store overrides c)
                          X_train y_train X_val y_val tp sp))
        = Some (built_from net)).
Proof.
  intros Herr.
  destruct (fit_of_init g n overrides c X_train y_train X_val y_val tp sp)
    as (Hr & Hp & Hm & _ & _ & _).
  rewrite Hr in Herr. apply configure_no_scheme in Herr as (net & Hb & Hfrom).
  exists net. rewrite Hm, Hp. split; [done|].
  intros ->. by rewrite (Hfrom eq_refl).
Qed.

Lemma no_scheme_error_leaves_model_witness :
  exists net,
    model (snd (fst (fit ordinal_map dataset_n_output_dims built
                       frame_ab targets frame_ab targets supervised_off ∅))) = Some net
    /\ (@None (dict * tabnet_model) = None ->
        params_of (fst (fit ordinal_map dataset_n_output_dims built
                          frame_ab targets frame_ab targets supervised_off ∅))
        = Some (built_from net)).
Proof.
  apply (no_scheme_error_leaves_model ordinal_map dataset_n_output_dims
           categorical_c None frame_ab targets frame_ab targets supervised_off ∅).
  vm_compute. reflexivity.
Defined.

(** When [fit] raises nothing, it runs the phases whose flags are truthy,
    the self-supervised one first.  It runs none at all only when both
    flags are falsy without both being equal to [False]; with boolean
    flags there is always a phase. *)
Theorem fit_plan_follows_flags
    (g : container -> list (key * pyval)) (n : container -> pyval -> pyval)
    (overrides : dict) (c : option (dict * tabnet_model))
    (X_train y_train X_val y_val : container) (tp sp : dict) (plan : list bool) :
  snd (fit g n (init class_store overrides c) X_train y_train X_val y_val tp sp)
  = inr plan ->
  exists ss sv,
    (tp ∪ default_train_params) !! "run_self_supervised_training" = Some ss
    /\ (tp ∪ default_train_params) !! "run_supervised_training" = Some sv
    /\ plan = ((if truthy ss then [true] else []) ++ (if truthy sv then [false] else []))%list
    /\ (plan = [] -> truthy ss = false /\ truthy sv = false
                     /\ (eq_False ss = false \/ eq_False sv = false))
    /\ (forall a b, ss = PBool a -> sv = PBool b -> plan <> []).
Proof.
  intros Hplan.
  destruct (fit_of_init g n overrides c X_train y_train X_val y_val tp sp)
    as (Hr & _).
  rewrite Hr in Hplan. apply configure_plan in Hplan as (ss & sv & Hss & Hsv & -> & Hguard).
  exists ss, sv. split; [done|]. split; [done|]. split; [done|]. split.
  - intros Hnil. apply app_eq_nil in Hnil as [H1 H2].
    destruct (truthy ss); [done|]. destruct (truthy sv); [done|].
    split; [done|]. split; [done|]. by apply andb_false_iff.
  - intros a b -> ->. simpl in *. destruct a, b; done.
Qed.

Lemma fit_plan_follows_flags_witness :
  exists ss sv,
    (supervised_none ∪ default_train_params) !! "run_self_supervised_training" = Some ss
    /\ (supervised_none ∪ default_train_params) !! "run_supervised_training" = Some sv
    /\ [] = ((if truthy ss then [true] else []) ++ (if truthy sv then [false] else []))%list
    /\ (@nil bool = [] -> truthy ss = false /\ truthy sv = false
                          /\ (eq_False ss = false \/ eq_False sv = false))
    /\ (forall a b, ss = PBool a -> sv = PBool b -> @nil bool <> []).
Proof.
  apply (fit_plan_follows_flags ordinal_map dataset_n_output_dims
           categorical_c None frame_ab targets frame_ab targets supervised_none ∅ []).
  vm_compute. reflexivity.
Defined.

(** An instance built from a checkpoint holds the loaded parameters, not
    the class-level ones: the [model_params] argument is ignored, and
    neither [__init__] nor a later [fit] writes the class-level model
    defaults; [fit] keeps the loaded model, and of the loaded parameters
    it can only rewrite [categorical_config]. *)
Theorem checkpoint_instance_leaves_class_defaults
    (g : container -> list (key * pyval)) (n : container -> pyval -> pyval)
    (h : list dict) (overrides lp : dict) (lm : tabnet_model)
    (X_train y_train X_val y_val : container) (tp sp : dict) :
  (3 <= length h)%nat ->
  params_of (init h overrides (Some (lp, lm))) = Some lp
  /\ fst (init h overrides (Some (lp, lm))) !! MODEL_DEFAULTS = h !! MODEL_DEFAULTS
  /\ fst (fst (fit g n (init h overrides (Some (lp, lm)))
                 X_train y_train X_val y_val tp sp)) !! MODEL_DEFAULTS
     = h !! MODEL_DEFAULTS
  /\ model (snd (fst (fit g n (init h overrides (Some (lp, lm)))
                        X_train y_train X_val y_val tp sp))) = Some lm
  /\ forall k, k <> "categorical_config" ->
       param (fst (fit g n (init h overrides (Some (lp, lm)))
                     X_train y_train X_val y_val tp sp)) k = lp !! k.
Proof.
  intros Hlen. unfold init, params_of, param, params_of, MODEL_DEFAULTS. cbn [fst snd model_params].
  split; [by rewrite lookup_app_r, Nat.sub_diag by lia|].
  split; [by rewrite lookup_app_l by lia|].
  unfold Facade.fit, update_at, SAVE_DEFAULTS, TRAIN_DEFAULTS. cbn [model_params model].
  rewrite !alter_app_l by (rewrite ?length_alter; lia).
  rewrite lookup_app_r by (rewrite !length_alter; lia).
  rewrite !length_alter, Nat.sub_diag. cbn [lookup list_lookup].
  rewrite lookup_app_l by (rewrite !length_alter; lia).
  rewrite list_lookup_alter_eq.
  rewrite list_lookup_alter_ne by done.
  destruct (lookup_lt_is_Some_2 h 0) as [tp0 Htp0]; [lia|].
  rewrite Htp0. cbn [fmap option_fmap option_map].
  pose proof (configure_keeps_model g n lp lm (tp ∪ tp0) X_train y_train X_val y_val)
    as Hm.
  pose proof (configure_loaded_frame g n lp lm (tp ∪ tp0) X_train y_train X_val y_val)
    as Hframe.
  destruct (Facade.configure g n lp (Some lm) (tp ∪ tp0) X_train y_train X_val y_val)
    as [[mp' m'] r].
  cbn [fst snd model model_params] in *.
  split.
  { rewrite list_lookup_insert_ne by (rewrite ?length_app, ?length_alter; lia).
    rewrite lookup_app_l by (rewrite !length_alter; lia).
    by rewrite !list_lookup_alter_ne by done. }
  split; [done|].
  intros k Hk.
  rewrite list_lookup_insert_eq by (rewrite length_app, !length_alter; simpl; lia).
  simpl. by apply Hframe.
Qed.

Lemma checkpoint_instance_leaves_class_defaults_witness :
  params_of (init class_store categorical_c (Some (default_model_params, TabNetModel ∅)))
  = Some default_model_params
  /\ fst (init class_store categorical_c (Some (default_model_params, TabNetModel ∅)))
       !! MODEL_DEFAULTS = class_store !! MODEL_DEFAULTS
  /\ fst (fst (fit ordinal_map dataset_n_output_dims
                 (init class_store categorical_c (Some (default_model_params, TabNetModel ∅)))
                 frame_ab targets frame_ab targets ∅ ∅)) !! MODEL_DEFAULTS
     = class_store !! MODEL_DEFAULTS
  /\ model (snd (fst (fit ordinal_map dataset_n_output_dims
                        (init class_store categorical_c
                           (Some (default_model_params, TabNetModel ∅)))
                        frame_ab targets frame_ab targets ∅ ∅))) = Some (TabNetModel ∅)
  /\ forall k, k <> "categorical_config" ->
       param (fst (fit ordinal_map dataset_n_output_dims
                     (init class_store categorical_c
                        (Some (default_model_params, TabNetModel ∅)))
                     frame_ab targets frame_ab targets ∅ ∅)) k
       = default_model_params !! k.
Proof.
  apply (checkpoint_instance_leaves_class_defaults ordinal_map dataset_n_output_dims
           class_store categorical_c default_model_params (TabNetModel ∅)
           frame_ab targets frame_ab targets ∅ ∅).
  simpl. lia.
Defined.

(** A categorical variable that is not a column of the training table
    makes [fit] raise [KeyError]: no model is built and
    [categorical_config] stays as it was. *)
Theorem fit_missing_categorical_column
    (g : container -> list (key * pyval)) (n : container -> pyval -> pyval)
    (overrides : dict) (columns : list key) (rows val_rows : list (list pyval))
    (y_train y_val : container) (tp sp : dict) (cols : list pyval) :
  type_of y_train = type_of y_val ->
  overrides !! "categorical_variables" = Some (PList cols) ->
  Forall (fun col => exists k, as_key col = inr k) cols ->
  (exists col k, col ∈ cols /\ as_key col = inr k /\ k ∉ columns) ->
  snd (fit g n (init class_store overrides None)
         (CDataFrame columns rows) y_train (CDataFrame columns val_rows) y_val tp sp)
  = inl KeyError
  /\ model (snd (fst (fit g n (init class_store overrides None)
                        (CDataFrame columns rows) y_train
                        (CDataFrame columns val_rows) y_val tp sp))) = None
  /\ param (fst (fit g n (init class_store overrides None)
                   (CDataFrame columns rows) y_train
                   (CDataFrame columns val_rows) y_val tp sp)) "categorical_config"
     = param (init class_store overrides None) "categorical_config".
Proof.
  intros Hy Hcv Hkeys Hbad.
  destruct (fit_of_init g n overrides None (CDataFrame columns rows) y_train
              (CDataFrame columns val_rows) y_val tp sp)
    as (Hr & Hp & Hm & Hp0 & _ & Hflag).
  destruct (configure_missing_column g n (overrides ∪ default_model_params) None
              (tp ∪ default_train_params) columns rows val_rows y_train y_val cols
              Hflag Hy) as (mp' & Hcfg & Hframe); [by apply lookup_union_Some_l | done | done |].
  unfold param. rewrite Hr, Hm, Hp, Hp0, Hcfg. simpl.
  split; [done|]. split; [done|]. by apply Hframe.
Qed.

Lemma fit_missing_categorical_column_witness :
  snd (fit ordinal_map dataset_n_output_dims (init class_store categorical_missing None)
         frame_ab targets frame_ab targets ∅ ∅)
  = inl KeyError
  /\ model (snd (fst (fit ordinal_map dataset_n_output_dims
                        (init class_store categorical_missing None)
                        frame_ab targets frame_ab targets ∅ ∅))) = None
  /\ param (fst (fit ordinal_map dataset_n_output_dims
                   (init class_store categorical_missing None)
                   frame_ab targets frame_ab targets ∅ ∅)) "categorical_config"
     = param (init class_store categorical_missing None) "categorical_config".
Proof.
  apply (fit_missing_categorical_column ordinal_map dataset_n_output_dims
           categorical_missing [KStr "c"; KStr "x"]
           [ [PStr "a"; PInt 1]; [PStr "b"; PInt 2] ]
           [ [PStr "a"; PInt 1]; [PStr "b"; PInt 2] ]
           targets targets ∅ ∅ [PStr "c"; PStr "nowhere"]).
  - reflexivity.
  - reflexivity.
  - repeat constructor; by eexists.
  - exists (PStr "nowhere"), (KStr "nowhere").
    split; [by right; left|]. split; [reflexivity|].
    rewrite !not_elem_of_cons. repeat split; try discriminate. apply not_elem_of_nil.
Defined.

#[local] Close Scope string_scope.

(* ===================================================================== *)
(** ** Inference *)
(* ===================================================================== *)

Import Facade Guards Predict.

Section BatchFacts.

Context {A : Type}.
Implicit Types (l : list A).

Lemma batches_aux_concat fuel batch_size : forall l,
  (0 < batch_size)%nat -> (length l <= fuel)%nat ->
  concat (batches_aux fuel batch_size l) = l.
Proof.
  induction fuel as [|fuel IH]; intros l Hb Hl.
  - destruct l; [done | simpl in Hl; lia].
  - destruct l as [|x l]; [done|]. cbn [batches_aux concat].
    rewrite IH; [apply take_drop | done |].
    rewrite length_drop. simpl in *. lia.
Qed.

Lemma batches_concat batch_size l :
  (0 < batch_size)%nat -> concat (batches batch_size l) = l.
Proof. intros Hb. by apply batches_aux_concat. Qed.

Lemma batches_aux_nonempty fuel batch_size : forall l,
  (0 < batch_size)%nat -> Forall (fun b => b <> []) (batches_aux fuel batch_size l).
Proof.
  induction fuel as [|fuel IH]; intros l Hb; [constructor|].
  destruct l as [|x l]; [constructor|]. cbn [batches_aux].
  constructor; [|by apply IH].
  destruct batch_size; [lia | done].
Qed.

Lemma batches_nil batch_size l : batches batch_size l = [] <-> l = [].
Proof. unfold batches. destruct l; simpl; done. Qed.

(** A batch of one item: the batch size is 1, or one item is left over. *)
Lemma batches_aux_single fuel batch_size : forall l,
  (0 < batch_size)%nat -> (length l <= fuel)%nat ->
  Exists (fun b => length b = 1%nat) (batches_aux fuel batch_size l)
  <-> l <> [] /\ (batch_size = 1%nat \/ (length l mod batch_size = 1)%nat).
Proof.
  induction fuel as [|fuel IH]; intros l Hb Hl.
  { destruct l; [|simpl in Hl; lia]. simpl. rewrite Exists_nil. by split; [|intros [? _]]. }
  destruct l as [|x l]; [simpl; rewrite Exists_nil; by split; [|intros [? _]]|].
  cbn [batches_aux]. rewrite Exists_cons, length_take.
  set (n := length (x :: l)) in *.
  assert (0 < n)%nat as Hn by (subst n; simpl; lia).
  rewrite IH by (rewrite ?length_drop; fold n; lia).
  rewrite length_drop. fold n.
  destruct (decide (n <= batch_size)%nat) as [Hle|Hgt].
  - assert (drop batch_size (x :: l) = []) as -> by (apply drop_ge; fold n; lia).
    split.
    + intros [H1 | [? _]]; [|done]. split; [done|].
      rewrite Nat.min_r in H1 by lia.
      destruct (decide (n = batch_size)) as [<-|]; [by left|].
      right. rewrite Nat.mod_small by lia. done.
    + intros [_ [-> | Hmod]]; left; [lia|].
      rewrite Nat.min_r by lia.
      destruct (decide (n = batch_size)) as [<-|].
      * rewrite Nat.Div0.mod_same in Hmod. lia.
      * rewrite Nat.mod_small in Hmod by lia. done.
  - assert ((n - batch_size) mod batch_size = n mod batch_size)%nat as Hmod.
    { replace n with ((n - batch_size) + 1 * batch_size)%nat at 2 by lia.
      by rewrite Nat.Div0.mod_add. }
    rewrite Hmod, Nat.min_l by lia.
    assert (drop batch_size (x :: l) <> []) as Hne.
    { intros H0. apply (f_equal length) in H0. rewrite length_drop in H0.
      fold n in H0. simpl in H0. lia. }
    split.
    + intros [-> | [_ H1]]; (split; [done|]); [by left | done].
    + intros [_ [-> | H1]]; [by left | right; split; [done | by right]].
Qed.

Lemma batches_single batch_size l :
  (0 < batch_size)%nat ->
  Exists (fun b => length b = 1%nat) (batches batch_size l)
  <-> l <> [] /\ (batch_size = 1%nat \/ (length l mod batch_size = 1)%nat).
Proof. intros Hb. by apply batches_aux_single. Qed.

End BatchFacts.

Section TensorFacts.

#[local] Open Scope R_scope.

Lemma collect_map {X Y} (f : X -> raised + Y) (g : X -> Y) (l : list X) :
  Forall (fun x => f x = inr (g x)) l -> collect f l = inr (map g l).
Proof. induction 1 as [|x l Hx _ IH]; simpl; [done | by rewrite Hx, IH]. Qed.

Lemma collect_fails {X Y} (f : X -> raised + Y) (l : list X) ys :
  collect f l = inr ys -> Forall2 (fun x y => f x = inr y) l ys.
Proof.
  revert ys. induction l as [|x l IH]; intros ys; simpl.
  - intros [= <-]. constructor.
  - destruct (f x) as [e|y] eqn:Hx; [done|]. simpl.
    destruct (collect f l) as [e|ys']; [done|]. simpl. intros [= <-].
    constructor; [done | by apply IH].
Qed.

Lemma filter_all {X} (P : X -> Prop) `{!forall x, Decision (P x)} (l : list X) :
  Forall P l -> filter P l = l.
Proof.
  induction 1 as [|x l Hx _ IH]; [done|].
  rewrite filter_cons, decide_True by done. by rewrite IH.
Qed.

Lemma cat2_blocks k (bs : list (list (list R))) :
  cat2 k (map (T2 k) bs) = inr (concat bs).
Proof.
  induction bs as [|b bs IH]; simpl; [done|]. by rewrite Nat.eqb_refl, IH.
Qed.

Lemma cat_blocks k (bs : list (list (list R))) :
  bs <> [] -> cat (map (T2 k) bs) = inr (T2 k (concat bs)).
Proof.
  destruct bs as [|b bs]; [done|]. intros _. unfold cat. cbn [map].
  assert (existsb is_T0 (T2 k b :: map (T2 k) bs) = false) as ->.
  { apply not_true_is_false. intros (t & Hin & Ht)%existsb_exists.
    apply in_inv in Hin as [<- | Hin]; [done|].
    apply in_map_iff in Hin as (? & <- & _). done. }
  assert (filter (fun t => is_skipped t = false) (T2 k b :: map (T2 k) bs)
          = T2 k b :: map (T2 k) bs) as ->.
  { apply filter_all, Forall_forall.
    intros t Hin. apply elem_of_cons in Hin as [-> | Hin]; [done|].
    apply list_elem_of_In, in_map_iff in Hin as (? & <- & _). done. }
  by rewrite cat2_blocks.
Qed.

Lemma cat1_vectors (vs : list (list R)) : cat1 (map T1 vs) = inr (concat vs).
Proof. induction vs as [|v vs IH]; simpl; [done | by rewrite IH]. Qed.

Lemma cat_vectors (vs : list (list R)) :
  vs <> [] -> Forall (fun v => v <> []) vs -> cat (map T1 vs) = inr (T1 (concat vs)).
Proof.
  destruct vs as [|v vs]; [done|]. intros _ Hne. unfold cat. cbn [map].
  assert (existsb is_T0 (T1 v :: map T1 vs) = false) as ->.
  { apply not_true_is_false. intros (t & Hin & Ht)%existsb_exists.
    apply in_inv in Hin as [<- | Hin]; [done|].
    apply in_map_iff in Hin as (? & <- & _). done. }
  assert (filter (fun t => is_skipped t = false) (T1 v :: map T1 vs)
          = T1 v :: map T1 vs) as ->.
  { apply filter_all, Forall_forall.
    intros t Hin.
    assert (exists v', t = T1 v' /\ v' ∈ v :: vs) as (v' & -> & Hv').
    { apply elem_of_cons in Hin as [-> | Hin]; [exists v; split; [done | by left]|].
      apply list_elem_of_In, in_map_iff in Hin as (v' & <- & Hv').
      exists v'. split; [done|]. right. by apply list_elem_of_In. }
    rewrite Forall_forall in Hne. specialize (Hne v' Hv'). by destruct v'. }
  by rewrite cat1_vectors.
Qed.

Lemma cat_scalar ts : Exists (fun t => is_T0 t = true) ts -> cat ts = inl RuntimeError.
Proof.
  intros Hex. unfold cat. destruct ts as [|t ts]; [done|].
  assert (existsb is_T0 (t :: ts) = true) as ->; [|done].
  apply existsb_exists. apply Exists_exists in Hex as (t' & Hin & Ht').
  exists t'. split; [by apply list_elem_of_In | done].
Qed.

(** The softmax keeps the order of the logits. *)
Lemma argmax_from_monotone (h : R -> R) v : forall best_i best i,
  (forall x y, x < y <-> h x < h y) ->
  argmax_from best_i (h best) i (map h v) = argmax_from best_i best i v.
Proof.
  induction v as [|a v IH]; intros best_i best i Hh; [done|]. simpl.
  destruct (Rlt_dec (h best) (h a)) as [H1|H1], (Rlt_dec best a) as [H2|H2];
    try (by apply IH); exfalso; apply Hh in H1 || apply Hh in H2; done.
Qed.

Lemma exp_sum_pos v : v <> [] -> 0 < Loss.rsum (map exp v).
Proof.
  intros Hne.
  assert (forall w, 0 <= Loss.rsum (map exp w)) as Hnn.
  { induction w as [|a w IH]; simpl; [lra|]. pose proof (exp_pos a). lra. }
  destruct v as [|a v]; [done|]. simpl.
  pose proof (exp_pos a). pose proof (Hnn v). lra.
Qed.

Lemma argmax_softmax v : argmax_row (softmax_row v) = argmax_row v.
Proof.
  destruct v as [|a v]; [done|]. unfold softmax_row.
  set (S := Loss.rsum (map exp (a :: v))).
  assert (0 < S) as HS by (by apply exp_sum_pos).
  cbn [map argmax_row].
  apply (argmax_from_monotone (fun x => exp x / S)).
  intros x y. split.
  - intros Hxy. apply Rmult_lt_compat_r; [by apply Rinv_0_lt_compat | by apply exp_increasing].
  - intros Hxy. apply exp_lt_inv.
    apply Rmult_lt_reg_r with (/ S); [by apply Rinv_0_lt_compat | done].
Qed.



Lemma softmax_length v : length (softmax_row v) = length v.
Proof. unfold softmax_row. by rewrite length_map. Qed.

End TensorFacts.

Section PredictFacts.

#[local] Open Scope string_scope.

Context {row labels : Type}.
Variable inference_dataset : container -> pyval -> list (key * nat) -> raised + list row.
Variable forward : tabnet_model -> list row -> tensor Q -> tensor R.
Variable n_out : tabnet_model -> nat.
Variable map_ordinals_to_categoricals : itensor -> pyval -> labels.
Variable label_count : labels -> nat.
Variable u : Masking.rng.

Abbreviation predict_batch := (predict_batch forward n_out u).
Abbreviation predict_agg := (predict_agg inference_dataset forward n_out u).
Abbreviation predict :=
  (predict inference_dataset forward n_out map_ordinals_to_categoricals u).
Abbreviation predict_proba :=
  (predict_proba inference_dataset forward n_out map_ordinals_to_categoricals label_count u).

Abbreviation row_wise := (row_wise forward).
Abbreviation serves := (serves inference_dataset).

Lemma predict_batch_row_wise mp net f d b v :
  mask_view mp = Some v -> row_wise net f -> mp !! "discrete_outputs" = Some d ->
  predict_batch mp net b
  = inr (if truthy d then T2 (n_out net) (softmax_last (map f b))
         else squeeze (T2 (n_out net) (map f b))).
Proof.
  intros Hv Hf Hd. unfold Predict.predict_batch, generate_mask. rewrite Hv. cbn [mbind option_bind].
  destruct (all_ones_of_expanded_width v (length b) u) as (out & -> & Hlen & Hones).
  rewrite (Hf b out Hlen).
  - unfold item. rewrite Hd. cbn [lift rbind]. by destruct (truthy d).
  - eapply Forall_impl; [exact Hones|]. by intros r [_ ?].
Qed.

Lemma predict_agg_row_wise mp net f d X items batch_size training :
  serves mp X items -> row_wise net f -> mp !! "discrete_outputs" = Some d ->
  (0 < batch_size)%nat ->
  predict_agg mp (Some net) training X batch_size
  = match cat (map (fun b => if truthy d then T2 (n_out net) (softmax_last (map f b))
                             else squeeze (T2 (n_out net) (map f b)))
                 (batches batch_size items)) with
    | inl e => (false, inl e)
    | inr y => (true, inr (squeeze y))
    end.
Proof.
  intros (v & cc & n & Hv & Hcc & Hn & Hitems) Hf Hd Hb.
  unfold Predict.predict_agg. rewrite Hn. unfold item. rewrite Hcc. cbn [lift rbind].
  rewrite Hitems. cbn [rbind].
  destruct batch_size as [|k]; [lia|]. cbn [Nat.eqb rbind].
  rewrite (collect_map _ (fun b => if truthy d then T2 (n_out net) (softmax_last (map f b))
                                   else squeeze (T2 (n_out net) (map f b)))).
  2: { apply Forall_forall. intros b _. by eapply predict_batch_row_wise. }
  cbn [rbind]. by destruct (cat _).
Qed.

(** The discrete outputs of two or more batches, or of one. *)
Lemma discrete_outputs_cat net (f : row -> list R) items batch_size :
  (0 < batch_size)%nat -> items <> [] ->
  cat (map (fun b => T2 (n_out net) (softmax_last (map f b))) (batches batch_size items))
  = inr (T2 (n_out net) (map (fun r => softmax_row (f r)) items)).
Proof.
  intros Hb Hne.
  rewrite <- (map_map (fun b => softmax_last (map f b)) (T2 (n_out net))).
  rewrite cat_blocks.
  - do 2 f_equal. unfold softmax_last.
    rewrite <- (batches_concat batch_size items Hb) at 2.
    generalize (batches batch_size items). intros bs.
    induction bs as [|b bs IH]; [done|]. simpl. rewrite map_app, IH.
    by rewrite map_map.
  - intros H0. apply map_eq_nil in H0. by apply batches_nil in H0.
Qed.



Lemma squeeze_column (g : row -> R) (b : list row) :
  (2 <= length b)%nat -> squeeze (T2 1 (map (fun r => [g r]) b)) = T1 (map g b).
Proof.
  intros Hn. destruct b as [|r1 [|r2 b]]; simpl in Hn; try lia. cbn [map squeeze Nat.eqb].
  do 3 f_equal. by rewrite map_map.
Qed.

Lemma squeeze_vector (vs : list R) : (2 <= length vs)%nat -> squeeze (T1 vs) = T1 vs.
Proof. intros Hn. destruct vs as [|v1 [|v2 vs]]; simpl in Hn; try lia. done. Qed.



(** One input row: [__predict] squeezes the single row of probabilities
    to a vector, so [predict] returns one scalar class rather than a
    vector of one, and [predict_proba] a table of one column with a row
    per class. *)
Theorem single_row_prediction_drops_rank
    mp net (f : row -> list R) d dtm X r batch_size training :
  serves mp X [r] -> row_wise net f ->
  mp !! "discrete_outputs" = Some d -> truthy d = true ->
  mp !! "discrete_target_mapping" = Some dtm ->
  length (f r) = n_out net ->
  label_count (map_ordinals_to_categoricals (I1 [0%nat]) dtm) = 1%nat ->
  (2 <= n_out net)%nat -> (0 < batch_size)%nat ->
  predict mp (Some net) training X batch_size
  = (true, inr (Labels (map_ordinals_to_categoricals (I0 (argmax_row (f r))) dtm)))
  /\ predict_proba mp (Some net) training X batch_size
     = (true,
        inr (ProbaFrame (map_ordinals_to_categoricals (I1 [0%nat]) dtm)
               (map (fun p => [p]) (softmax_row (f r))))).
Proof.
  intros Hs Hf Hd Ht Hdtm Hw Hlabels Hk Hb.
  pose proof (predict_agg_row_wise mp net f d X [r] batch_size training Hs Hf Hd Hb) as Hagg.
  rewrite Ht in Hagg. rewrite discrete_outputs_cat in Hagg by done.
  cbn [map squeeze] in Hagg. destruct (Nat.eqb_spec (n_out net) 1); [lia|].
  assert (exists p ps, softmax_row (f r) = p :: ps) as (p & ps & Hrow).
  { pose proof (softmax_length (f r)) as Hl. rewrite Hw in Hl.
    destruct (softmax_row (f r)) as [|p ps]; [simpl in Hl; lia | eauto]. }
  split.
  - unfold Predict.predict, item. rewrite Hd, Hagg, Ht. cbn [rbind].
    unfold argmax_last. rewrite Hrow, <- Hrow, argmax_softmax.
    cbn [rbind]. by rewrite Hdtm.
  - unfold Predict.predict_proba, item. rewrite Hd, Ht. cbn [negb]. rewrite Hagg.
    cbn [rbind fst snd]. rewrite Hdtm. cbn [lift rbind seq].
    by rewrite Hlabels.
Qed.

(** A regression model (one output) raises [RuntimeError] whenever a
    batch holds a single row, that is when the batch size is 1 or one row
    is left over: the squeeze of that batch is 0-dimensional and
    [torch.cat] refuses it.  The model is then left in evaluation mode.
    Otherwise the values come back in the order of the rows, and the model
    in training mode. *)
Theorem regression_predict_single_row_batch
    mp net (g : row -> R) d X items batch_size training :
  serves mp X items -> row_wise net (fun r => [g r]) ->
  mp !! "discrete_outputs" = Some d -> truthy d = false ->
  n_out net = 1%nat -> (0 < batch_size)%nat -> items <> [] ->
  (batch_size = 1%nat \/ (length items mod batch_size = 1)%nat ->
   predict mp (Some net) training X batch_size = (false, inl RuntimeError))
  /\ (~ (batch_size = 1%nat \/ (length items mod batch_size = 1)%nat) ->
      predict mp (Some net) training X batch_size
      = (true, inr (Values (T1 (map g items))))).
Proof.
  intros Hs Hf Hd Ht Hone Hb Hne.
  pose proof (predict_agg_row_wise mp net _ d X items batch_size training Hs Hf Hd Hb) as Hagg.
  rewrite Ht, Hone in Hagg.
  unfold Predict.predict, item. rewrite Hd, Hagg, Ht. clear Hagg.
  pose proof (batches_single batch_size items Hb) as Hsingle.
  split.
  - intros Hcase.
    assert (Exists (fun b => length b = 1%nat) (batches batch_size items)) as Hex.
    { apply Hsingle. by split. }
    rewrite cat_scalar; [done|].
    apply Exists_exists in Hex as (b & Hin & Hlen).
    apply Exists_exists. exists (squeeze (T2 1 (map (fun r => [g r]) b))).
    split; [apply list_elem_of_In, in_map_iff; exists b; by rewrite <- list_elem_of_In|].
    destruct b as [|r [|? ?]]; simpl in Hlen; try lia. done.
  - intros Hcase.
    assert (Forall (fun b => (2 <= length b)%nat) (batches batch_size items)) as Hbig.
    { pose proof (batches_aux_nonempty (length items) batch_size items Hb) as Hnon.
      fold (batches batch_size items) in Hnon.
      apply Forall_forall. intros b Hin.
      rewrite Forall_forall in Hnon. specialize (Hnon b Hin).
      destruct (decide (length b = 1%nat)) as [H1|H1].
      - exfalso. apply Hcase. apply Hsingle, Exists_exists. eauto.
      - destruct b as [|? [|? ?]]; simpl in *; (done || lia). }
    assert (map (fun b => squeeze (T2 1 (map (fun r => [g r]) b))) (batches batch_size items)
            = map T1 (map (map g) (batches batch_size items))) as ->.
    { rewrite map_map. apply Forall_fmap_ext_1.
      eapply Forall_impl; [exact Hbig|]. intros b Hlen. by apply squeeze_column. }
    rewrite cat_vectors.
    + assert (concat (map (map g) (batches batch_size items)) = map g items) as ->.
      { rewrite <- (batches_concat batch_size items Hb) at 2.
        generalize (batches batch_size items). intros bs.
        induction bs as [|b bs IH]; [done|]. simpl. by rewrite map_app, IH. }
      rewrite squeeze_vector; [done|]. rewrite length_map.
      destruct items as [|r1 [|r2 items]]; [done | | simpl; lia].
      exfalso. apply Hcase.
      destruct (decide (batch_size = 1%nat)); [by left|].
      right. simpl. rewrite Nat.mod_small by lia. done.
    + intros H0. apply map_eq_nil in H0. by apply batches_nil in H0.
    + apply Forall_forall. intros v Hv.
      apply list_elem_of_In, in_map_iff in Hv as (b & <- & Hin).
      rewrite Forall_forall in Hbig. apply list_elem_of_In in Hin.
      specialize (Hbig b Hin). destruct b; simpl in *; [lia | done].
Qed.

End PredictFacts.

(** Without a model, [predict] raises the "not yet initialized" error and
    [predict_proba] raises it for a discrete model, the "not available"
    error otherwise; the mode of nothing is changed.  This is so on an
    instance that was never fitted, and on one whose [fit] was refused for
    a validation set that does not match. *)
Theorem predict_without_model_raises
    {row labels : Type}
    (inference_dataset : container -> pyval -> list (key * nat) -> raised + list row)
    (forward : tabnet_model -> list row -> tensor Q -> tensor R)
    (n_out : tabnet_model -> nat)
    (map_ordinals_to_categoricals : itensor -> pyval -> labels)
    (label_count : labels -> nat)
    (u : Masking.rng)
    (g : container -> list (key * pyval)) (n : container -> pyval -> pyval)
    (overrides : dict) (X_train y_train X_val y_val : container) (tp sp : dict)
    (w : world) (X : container) (batch_size : nat) (training : bool) :
  w = init class_store overrides None
  \/ (mismatched X_train y_train X_val y_val
      /\ w = fst (fit g n (init class_store overrides None)
                    X_train y_train X_val y_val tp sp)) ->
  exists mp d,
    params_of w = Some mp
    /\ mp !! "discrete_outputs"%string = Some d
    /\ predict inference_dataset forward n_out map_ordinals_to_categoricals u
         mp (model (snd w)) training X batch_size
       = (training, inl not_initialized)
    /\ predict_proba inference_dataset forward n_out map_ordinals_to_categoricals
         label_count u mp (model (snd w)) training X batch_size
       = (training, inl (if truthy d then not_initialized else no_proba)).
Proof.
  intros Hw.
  assert (exists mp d, params_of w = Some mp /\ mp !! "discrete_outputs"%string = Some d
                       /\ model (snd w) = None) as (mp & d & Hp & Hd & Hm).
  { destruct (overridden_defaults_have_flag overrides) as [d Hd].
    destruct Hw as [-> | [Hmis ->]].
    - exists (overrides ∪ default_model_params), d. done.
    - destruct (fit_of_init g n overrides None X_train y_train X_val y_val tp sp)
        as (_ & Hp & Hm & _ & _ & Hflag).
      destruct (configure_rejects_mismatch g n _ _ (tp ∪ default_train_params)
                  X_train y_train X_val y_val Hflag Hmis) as (_ & Hmodel & Hframe).
      eexists _, d. split; [exact Hp|]. split; [by rewrite Hframe|].
      by rewrite Hm, Hmodel. }
  exists mp, d. split; [done|]. split; [done|]. rewrite Hm.
  unfold Predict.predict, Predict.predict_proba, Predict.predict_agg, item. rewrite Hd.
  split; destruct (truthy d); done.
Qed.

Lemma predict_without_model_raises_witness :
  exists mp d,
    params_of built = Some mp
    /\ mp !! "discrete_outputs"%string = Some d
    /\ predict demo_rows (demo_forward 1) (fun _ => 1%nat) demo_labels Masking.low_then_high
         mp (model (snd built)) true demo_X 2
       = (true, inl not_initialized)
    /\ predict_proba demo_rows (demo_forward 1) (fun _ => 1%nat) demo_labels
         demo_label_count Masking.low_then_high mp (model (snd built)) true demo_X 2
       = (true, inl (if truthy d then not_initialized else no_proba)).
Proof.
  apply (predict_without_model_raises demo_rows (demo_forward 1) (fun _ => 1%nat) demo_labels
           demo_label_count Masking.low_then_high ordinal_map dataset_n_output_dims
           categorical_c CNone CNone CNone CNone ∅ ∅ built demo_X 2 true).
  left. reflexivity.
Defined.



Lemma single_row_prediction_drops_rank_witness :
  predict demo_rows (demo_forward 2) (fun _ => 2%nat) demo_labels Masking.low_then_high
    discrete_params (Some (TabNetModel discrete_params)) false demo_one 2
  = (true, inr (Labels (I0 (argmax_row (demo_logits 2 [1; 5]%R)))))
  /\ predict_proba demo_rows (demo_forward 2) (fun _ => 2%nat) demo_labels
       demo_label_count Masking.low_then_high discrete_params (Some (TabNetModel discrete_params))
       false demo_one 2
     = (true,
        inr (ProbaFrame (I1 [0%nat])
               (map (fun p => [p]) (softmax_row (demo_logits 2 [1; 5]%R))))).
Proof.
  apply (single_row_prediction_drops_rank demo_rows (demo_forward 2) (fun _ => 2%nat)
           demo_labels demo_label_count Masking.low_then_high discrete_params (TabNetModel discrete_params)
           (demo_logits 2) (PBool true)
           (PDict [(KInt 0, PInt 0); (KInt 1, PInt 1)]) demo_one
           [1; 5]%R 2 false).
  - eexists _, _, _. repeat split; reflexivity.
  - intros b mask _ _. reflexivity.
  - reflexivity.
  - reflexivity.
  - reflexivity.
  - reflexivity.
  - reflexivity.
  - simpl. lia.
  - lia.
Defined.

Lemma regression_predict_single_row_batch_witness :
  predict demo_rows (demo_forward 1) (fun _ => 1%nat) demo_labels Masking.low_then_high
    regression_params (Some (TabNetModel regression_params)) true demo_X 2
  = (false, inl RuntimeError).
Proof.
  apply (regression_predict_single_row_batch demo_rows (demo_forward 1) (fun _ => 1%nat)
           demo_labels Masking.low_then_high regression_params
           (TabNetModel regression_params) (fun r => nth 0 r 0%R) (PBool false) demo_X
           [ [1; 5]; [7; 3]; [2; 2] ]%R 2 true).
  - eexists _, _, _. repeat split; reflexivity.
  - intros b mask _ _. reflexivity.
  - reflexivity.
  - reflexivity.
  - reflexivity.
  - lia.
  - discriminate.
  - right. reflexivity.
Defined.
